(** * Mix editor core: piece-table buffer and modal editor state

    A shallow embedding of [src/mix/core/src/buffer.c] and
    [src/mix/core/src/main.c].

    Conventions of the embedding.

    - The core is built with Emscripten, so [size_t] is an unsigned 32-bit
      integer and [long] a signed 32-bit integer.  A [size_t] is a [Z] in
      [0, SIZE_MOD); every [+], [-] of the source is written with its
      wrap-around ([sz_add], [sz_sub]).
    - A C array together with its element count is a list: [original] with
      [original_length], [add_buffer] with [add_length], [pieces] with
      [piece_count], [line_starts] with the entries the line cache has
      written.  Capacities are not modelled, and [malloc]/[realloc] are
      taken to succeed.
    - A [memmove] inside the piece array is the corresponding splice of
      the list, written with [ztake]/[zdrop].
    - Where the source would read or write outside an object the model
      stays inside it: a text shorter than the length passed with it
      yields the bytes it has, a read outside a storage yields nothing
      (NUL for a single byte), and a piece index past [piece_count] is not
      written.  None of this happens while the invariant [buf_ok] holds
      and the arguments are in range.
    - A [while] loop whose counter does not follow the structure of a
      list takes its number of iterations as fuel; the fuel given always
      suffices ([scan_forward_fuel] and the lemmas after it).
    - The record fields of [Piece] are called [piece_source],
      [piece_start], [piece_length] ([length] is the list function). *)

From Stdlib Require Import ZArith List Bool Lia.
From Stdlib Require Import Strings.Byte.
From Stdlib Require Strings.String.
Import String.StringSyntax.
Import ListNotations.
Local Open Scope Z_scope.
Delimit Scope string_scope with string.

(** ** size_t and long *)

Definition SIZE_BITS : Z := 32.
Definition SIZE_MOD : Z := 2 ^ SIZE_BITS.

Definition wrap (z : Z) : Z := z mod SIZE_MOD.
Definition sz_add (a b : Z) : Z := wrap (a + b).
Definition sz_sub (a b : Z) : Z := wrap (a - b).

(** [(long)i] for a [size_t] [i]. *)
Definition to_long (i : Z) : Z :=
  if i <? SIZE_MOD / 2 then i else i - SIZE_MOD.

Definition is_size (z : Z) : Prop := 0 <= z < SIZE_MOD.

(** ** Lists indexed by size_t *)

Definition zlen {A} (l : list A) : Z := Z.of_nat (length l).
Definition ztake {A} (n : Z) (l : list A) : list A := firstn (Z.to_nat n) l.
Definition zdrop {A} (n : Z) (l : list A) : list A := skipn (Z.to_nat n) l.
Definition znth_error {A} (l : list A) (i : Z) : option A :=
  if i <? 0 then None else nth_error l (Z.to_nat i).

(** ** Bytes *)

Definition NUL : byte := x00.
Definition NEWLINE : byte := x0a.
Definition SPACE : byte := x20.
Definition TAB : byte := x09.

(** The bytes of a string literal, for the examples. *)
Definition bytes (s : String.string) : list byte :=
  String.list_byte_of_string s.
Arguments bytes s%_string.

(** [strlen]: the number of bytes before the first NUL; a list that holds
    no NUL is terminated right after its last byte. *)
Fixpoint strlen (s : list byte) : Z :=
  match s with
  | [] => 0
  | c :: rest => if Byte.eqb c NUL then 0 else 1 + strlen rest
  end.

(** ** The piece table (buffer.h) *)

Inductive PieceSource : Type :=
| SOURCE_ORIGINAL
| SOURCE_ADD.

Record Piece : Type := mkPiece {
  piece_source : PieceSource;
  piece_start : Z;
  piece_length : Z
}.

Record Buffer : Type := mkBuffer {
  original : list byte;
  add_buffer : list byte;
  pieces : list Piece;
  total_length : Z;
  line_starts : list Z;
  line_count : Z;
  lines_dirty : bool
}.

Definition original_length (b : Buffer) : Z := zlen (original b).
Definition add_length (b : Buffer) : Z := zlen (add_buffer b).
Definition piece_count (b : Buffer) : Z := zlen (pieces b).

(** [(piece->source == SOURCE_ORIGINAL) ? buffer->original : buffer->add_buffer] *)
Definition storage (b : Buffer) (s : PieceSource) : list byte :=
  match s with
  | SOURCE_ORIGINAL => original b
  | SOURCE_ADD => add_buffer b
  end.

(** *** find_piece_at *)

Fixpoint find_piece_loop (ps : list Piece) (position i current_pos : Z)
  : option (Z * Z) :=
  match ps with
  | [] => None
  | p :: rest =>
      if position <? sz_add current_pos (piece_length p)
      then Some (i, sz_sub position current_pos)
      else find_piece_loop rest position (sz_add i 1)
             (sz_add current_pos (piece_length p))
  end.

Definition find_piece_at (b : Buffer) (position : Z) : option (Z * Z) :=
  match find_piece_loop (pieces b) position 0 0 with
  | Some r => Some r
  | None =>
      if position =? total_length b then Some (piece_count b, 0) else None
  end.

(** *** buffer_create *)

Definition buffer_create (initial_content : option (list byte)) : Buffer :=
  let len :=
    match initial_content with
    | Some s => strlen s
    | None => 0
    end in
  match initial_content with
  | Some s =>
      if 0 <? len then
        mkBuffer (ztake len s) [] [mkPiece SOURCE_ORIGINAL 0 len] len [] 0 true
      else mkBuffer [] [] [] 0 [] 0 true
  | None => mkBuffer [] [] [] 0 [] 0 true
  end.

Definition buffer_length (b : Buffer) : Z := total_length b.

(** *** buffer_insert *)

Definition set_pieces (b : Buffer) (ps : list Piece) (total : Z) : Buffer :=
  mkBuffer (original b) (add_buffer b) ps total
           (line_starts b) (line_count b) true.

Definition append_add (b : Buffer) (bytes : list byte) : Buffer :=
  mkBuffer (original b) (add_buffer b ++ bytes) (pieces b) (total_length b)
           (line_starts b) (line_count b) (lines_dirty b).

Definition buffer_insert (b : Buffer) (position : Z)
    (text : option (list byte)) (length : Z) : bool * Buffer :=
  match text with
  | None => (false, b)
  | Some t =>
      if length =? 0 then (false, b)
      else if total_length b <? position then (false, b)
      else
        let add_start := add_length b in
        let b1 := append_add b (ztake length t) in
        match find_piece_at b1 position with
        | None => (false, b1)
        | Some (piece_idx, offset) =>
            let new_piece := mkPiece SOURCE_ADD add_start length in
            let ps := pieces b1 in
            let ps' :=
              if piece_idx =? piece_count b1 then ps ++ [new_piece]
              else if offset =? 0 then
                ztake piece_idx ps ++ new_piece :: zdrop piece_idx ps
              else
                match znth_error ps piece_idx with
                | Some old =>
                    let left :=
                      mkPiece (piece_source old) (piece_start old) offset in
                    let right :=
                      mkPiece (piece_source old)
                              (sz_add (piece_start old) offset)
                              (sz_sub (piece_length old) offset) in
                    ztake piece_idx ps
                      ++ left :: new_piece :: right
                      :: zdrop (sz_add piece_idx 1) ps
                | None => ps
                end in
            (true, set_pieces b1 ps' (sz_add (total_length b1) length))
        end
  end.

(** *** buffer_delete *)

Definition set_piece_length (p : Piece) (l : Z) : Piece :=
  mkPiece (piece_source p) (piece_start p) l.

(** [piece->start += n; piece->length -= n;] *)
Definition advance_piece (p : Piece) (n : Z) : Piece :=
  mkPiece (piece_source p) (sz_add (piece_start p) n)
          (sz_sub (piece_length p) n).

(** [pieces[i] = f(pieces[i])].  The source reaches an index past
    [piece_count] only in the multi-piece branch of [buffer_delete], with
    [i = piece_count] and the new length 0, after its range check has
    wrapped around; the slot it writes is then removed again by the final
    sweep, and the list is left as it is. *)
Definition update_piece (ps : list Piece) (i : Z) (f : Piece -> Piece)
  : list Piece :=
  match znth_error ps i with
  | Some p => ztake i ps ++ f p :: zdrop (i + 1) ps
  | None => ps
  end.

(** The final sweep of the multi-piece branch: every piece of length 0
    is removed. *)
Definition remove_empty_pieces (ps : list Piece) : list Piece :=
  filter (fun p => negb (piece_length p =? 0)) ps.

(** In the multi-piece branch the [memmove] copies
    [pieces[end_piece .. piece_count)] to [pieces[start_piece + 1 ..)] and
    [piece_count] drops by [remove_count]: the array then holds the first
    [start_piece + 1] pieces followed by those from [end_piece] on.  This
    is also what the source computes when [remove_count] has wrapped
    around ([end_piece <= start_piece]), as long as the result fits the
    capacity of the array. *)
Definition buffer_delete (b : Buffer) (position length : Z) : bool * Buffer :=
  if length =? 0 then (false, b)
  else if total_length b <? sz_add position length then (false, b)
  else
    match find_piece_at b position with
    | None => (false, b)
    | Some (start_piece, start_offset) =>
        match find_piece_at b (sz_add position length) with
        | None => (false, b)
        | Some (end_piece, end_offset) =>
            let ps := pieces b in
            let ps' :=
              if start_piece =? end_piece then
                match znth_error ps start_piece with
                | Some piece =>
                    if (start_offset =? 0) && (end_offset =? piece_length piece)
                    then ztake start_piece ps ++ zdrop (sz_add start_piece 1) ps
                    else if start_offset =? 0
                    then update_piece ps start_piece
                           (fun p => advance_piece p length)
                    else if end_offset =? piece_length piece
                    then update_piece ps start_piece
                           (fun p => set_piece_length p start_offset)
                    else
                      let right :=
                        mkPiece (piece_source piece)
                                (sz_add (piece_start piece) end_offset)
                                (sz_sub (piece_length piece) end_offset) in
                      ztake start_piece ps
                        ++ set_piece_length piece start_offset :: right
                        :: zdrop (sz_add start_piece 1) ps
                | None => ps
                end
              else
                let ps1 :=
                  update_piece ps start_piece
                    (fun p => set_piece_length p start_offset) in
                let ps2 :=
                  if end_piece <? piece_count b
                  then update_piece ps1 end_piece
                         (fun p => advance_piece p end_offset)
                  else ps1 in
                let remove_count := sz_sub (sz_sub end_piece start_piece) 1 in
                let ps3 :=
                  if 0 <? remove_count
                  then ztake (sz_add start_piece 1) ps2 ++ zdrop end_piece ps2
                  else ps2 in
                remove_empty_pieces ps3 in
            (true, set_pieces b ps' (sz_sub (total_length b) length))
        end
    end.

(** *** buffer_char_at, buffer_get_text, buffer_get_all *)

Definition byte_at (l : list byte) (i : Z) : byte :=
  match znth_error l i with
  | Some c => c
  | None => NUL
  end.

Definition buffer_char_at (b : Buffer) (position : Z) : byte :=
  if total_length b <=? position then NUL
  else
    match find_piece_at b position with
    | None => NUL
    | Some (piece_idx, offset) =>
        match znth_error (pieces b) piece_idx with
        | Some piece =>
            byte_at (storage b (piece_source piece))
                    (sz_add (piece_start piece) offset)
        | None => NUL
        end
    end.

(** The loop of [buffer_get_text]; [result] holds the [written] bytes
    copied so far. *)
Fixpoint get_text_loop (b : Buffer) (ps : list Piece) (start length : Z)
    (written current_pos : Z) (result : list byte) : list byte :=
  match ps with
  | [] => result
  | piece :: rest =>
      if written <? length then
        let piece_end := sz_add current_pos (piece_length piece) in
        if start <? piece_end then
          let copy_start :=
            if current_pos <? start then sz_sub start current_pos else 0 in
          let copy_end :=
            if sz_add start length <? piece_end
            then sz_sub (sz_add start length) current_pos
            else piece_length piece in
          let copy_len := sz_sub copy_end copy_start in
          let source := storage b (piece_source piece) in
          get_text_loop b rest start length
            (sz_add written copy_len) piece_end
            (result
               ++ ztake copy_len
                    (zdrop (sz_add (piece_start piece) copy_start) source))
        else get_text_loop b rest start length written piece_end result
      else result
  end.

Definition buffer_get_text (b : Buffer) (start length : Z)
  : option (list byte) :=
  if total_length b <? sz_add start length then None
  else Some (get_text_loop b (pieces b) start length 0 0 []).

Definition buffer_get_all (b : Buffer) : option (list byte) :=
  buffer_get_text b 0 (total_length b).

(** *** The line cache *)

(** First loop of [rebuild_line_cache]: [line_count] starts at 1 and is
    incremented at every newline. *)
Fixpoint count_lines_loop (text : list byte) (line_count : Z) : Z :=
  match text with
  | [] => line_count
  | c :: rest =>
      count_lines_loop rest
        (if Byte.eqb c NEWLINE then sz_add line_count 1 else line_count)
  end.

(** Second loop: the entries written after [line_starts[0]]. *)
Fixpoint line_starts_loop (text : list byte) (i total : Z) : list Z :=
  match text with
  | [] => []
  | c :: rest =>
      if Byte.eqb c NEWLINE && (sz_add i 1 <=? total)
      then sz_add i 1 :: line_starts_loop rest (sz_add i 1) total
      else line_starts_loop rest (sz_add i 1) total
  end.

Definition rebuild_line_cache (b : Buffer) : Buffer :=
  if negb (lines_dirty b) then b
  else
    match buffer_get_all b with
    | None => b
    | Some text =>
        let scanned := ztake (total_length b) text in
        mkBuffer (original b) (add_buffer b) (pieces b) (total_length b)
                 (0 :: line_starts_loop scanned 0 (total_length b))
                 (count_lines_loop scanned 1)
                 false
    end.

(** [buffer->line_starts[i]] *)
Definition line_starts_at (b : Buffer) (i : Z) : Z :=
  match znth_error (line_starts b) i with
  | Some s => s
  | None => 0
  end.

Definition buffer_line_count (b : Buffer) : Z * Buffer :=
  let b := rebuild_line_cache b in
  (line_count b, b).

Definition buffer_line_start (b : Buffer) (line_number : Z) : Z * Buffer :=
  let b := rebuild_line_cache b in
  if line_count b <=? line_number then (total_length b, b)
  else (line_starts_at b line_number, b).

Definition buffer_line_length (b : Buffer) (line_number : Z) : Z * Buffer :=
  let b := rebuild_line_cache b in
  if line_count b <=? line_number then (0, b)
  else
    let start := line_starts_at b line_number in
    let end_ :=
      if sz_add line_number 1 <? line_count b
      then line_starts_at b (sz_add line_number 1)
      else total_length b in
    (sz_sub end_ start, b).

(** [buffer_get_line]: the bytes of a line without the newline that ends
    it. *)
Definition buffer_get_line (b : Buffer) (line_number : Z)
  : option (list byte) * Buffer :=
  let b := rebuild_line_cache b in
  if line_count b <=? line_number then (None, b)
  else
    let start := line_starts_at b line_number in
    let end_ :=
      if sz_add line_number 1 <? line_count b
      then line_starts_at b (sz_add line_number 1)
      else total_length b in
    let length := sz_sub end_ start in
    let length :=
      if (0 <? length)
         && Byte.eqb (buffer_char_at b (sz_sub end_ 1)) NEWLINE
      then sz_sub length 1
      else length in
    (buffer_get_text b start length, b).

(** The loop of [buffer_pos_to_line_col] over the entries
    [line_starts[i], line_starts[i+1], ...] that are below [line_count];
    [i + 1 < line_count] holds when a next entry exists.  [line] and [col]
    are the current values of the two out-parameters. *)
Fixpoint pos_to_line_col_loop (starts : list Z) (i position line col : Z)
  : Z * Z :=
  match starts with
  | [] => (line, col)
  | s :: rest =>
      match rest with
      | next :: _ =>
          if next <=? position
          then pos_to_line_col_loop rest (sz_add i 1) position
                 (sz_add i 1) (sz_sub position next)
          else if s <=? position then (i, sz_sub position s)
          else pos_to_line_col_loop rest (sz_add i 1) position line col
      | [] =>
          if s <=? position then (i, sz_sub position s) else (line, col)
      end
  end.

Definition buffer_pos_to_line_col (b : Buffer) (position : Z)
  : (Z * Z) * Buffer :=
  let b := rebuild_line_cache b in
  (pos_to_line_col_loop (ztake (line_count b) (line_starts b)) 0 position
     0 position, b).

Definition buffer_line_col_to_pos (b : Buffer) (line col : Z) : Z * Buffer :=
  let b := rebuild_line_cache b in
  let line := if line_count b <=? line then sz_sub (line_count b) 1 else line in
  let line_start := line_starts_at b line in
  let '(line_len, b) := buffer_line_length b line in
  let col := if line_len <? col then line_len else col in
  (sz_add line_start col, b).

(** *** Search and replace *)

Definition head_or_nul (s : list byte) : byte :=
  match s with
  | [] => NUL
  | c :: _ => c
  end.

(** [strncmp(s1, s2, n) == 0] *)
Fixpoint strncmp_eq (s1 s2 : list byte) (n : nat) : bool :=
  match n with
  | O => true
  | S n' =>
      let c1 := head_or_nul s1 in
      let c2 := head_or_nul s2 in
      if Byte.eqb c1 c2
      then if Byte.eqb c1 NUL then true else strncmp_eq (tl s1) (tl s2) n'
      else false
  end.

(** The loop of [buffer_find_next]; [suffix] is [text + i], and the loop
    stops at the latest where the text ends. *)
Fixpoint find_next_loop (suffix needle : list byte) (i needle_len total : Z)
  : Z :=
  if sz_add i needle_len <=? total then
    if strncmp_eq suffix needle (Z.to_nat needle_len) then to_long i
    else
      match suffix with
      | [] => -1
      | _ :: rest =>
          find_next_loop rest needle (sz_add i 1) needle_len total
      end
  else -1.

Definition buffer_find_next (b : Buffer) (start : Z)
    (needle : option (list byte)) : Z :=
  match needle with
  | None => -1
  | Some needle =>
      let needle_len := strlen needle in
      if needle_len =? 0 then -1
      else
        match buffer_get_all b with
        | None => -1
        | Some text =>
            find_next_loop (zdrop start text) needle start needle_len
              (total_length b)
        end
  end.


(** ** The editor (main.c) *)

Definition MODE_NORMAL : Z := 0.
Definition MODE_INSERT : Z := 1.
Definition MODE_VISUAL : Z := 2.
Definition MODE_COMMAND : Z := 3.
Definition MODE_SEARCH : Z := 4.

Record Cursor : Type := mkCursor {
  position : Z;
  line : Z;
  column : Z;
  preferred_column : Z
}.

(** The globals of main.c.  [g_buffer] is [None] for the null pointer and
    [g_mode] holds the integer that [set_mode] stored. *)
Record Editor : Type := mkEditor {
  g_buffer : option Buffer;
  g_cursor : Cursor;
  g_mode : Z;
  g_selection_start : Z;
  g_has_selection : bool;
  g_search_pattern : list byte
}.

(** The state of the module when it is loaded. *)
Definition initial_editor : Editor :=
  mkEditor None (mkCursor 0 0 0 0) MODE_NORMAL 0 false [].

Definition with_buffer (st : Editor) (b : option Buffer) : Editor :=
  mkEditor b (g_cursor st) (g_mode st) (g_selection_start st)
           (g_has_selection st) (g_search_pattern st).

Definition with_cursor (st : Editor) (c : Cursor) : Editor :=
  mkEditor (g_buffer st) c (g_mode st) (g_selection_start st)
           (g_has_selection st) (g_search_pattern st).

Definition with_position (st : Editor) (p : Z) : Editor :=
  with_cursor st
    (mkCursor p (line (g_cursor st)) (column (g_cursor st))
              (preferred_column (g_cursor st))).

Definition with_preferred_column (st : Editor) (c : Z) : Editor :=
  with_cursor st
    (mkCursor (position (g_cursor st)) (line (g_cursor st))
              (column (g_cursor st)) c).

(** [g_cursor.preferred_column = g_cursor.column;] *)
Definition sync_preferred_column (st : Editor) : Editor :=
  with_preferred_column st (column (g_cursor st)).

Definition editor_init (st : Editor) : Z * Editor :=
  (1, mkEditor (Some (buffer_create (Some []))) (mkCursor 0 0 0 0)
               MODE_NORMAL (g_selection_start st) false
               (g_search_pattern st)).

Definition editor_load_text (st : Editor) (text : option (list byte))
  : Z * Editor :=
  (1, mkEditor (Some (buffer_create text)) (mkCursor 0 0 0 0)
               (g_mode st) (g_selection_start st) (g_has_selection st)
               (g_search_pattern st)).

Definition editor_destroy (st : Editor) : Editor := with_buffer st None.

Definition get_buffer_length (st : Editor) : Z :=
  match g_buffer st with
  | Some b => buffer_length b
  | None => 0
  end.

Definition get_all_text (st : Editor) : option (list byte) :=
  match g_buffer st with
  | Some b => buffer_get_all b
  | None => None
  end.

Definition get_line_count (st : Editor) : Z * Editor :=
  match g_buffer st with
  | Some b =>
      let '(n, b) := buffer_line_count b in
      (n, with_buffer st (Some b))
  | None => (0, st)
  end.

Definition get_line (st : Editor) (line_number : Z)
  : option (list byte) * Editor :=
  match g_buffer st with
  | Some b =>
      let '(text, b) := buffer_get_line b line_number in
      (text, with_buffer st (Some b))
  | None => (None, st)
  end.

Definition bool_to_int (x : bool) : Z := if x then 1 else 0.

Definition insert_text (st : Editor) (pos : Z) (text : option (list byte))
  : Z * Editor :=
  match g_buffer st, text with
  | Some b, Some t =>
      let '(ok, b) := buffer_insert b pos text (strlen t) in
      (bool_to_int ok, with_buffer st (Some b))
  | _, _ => (0, st)
  end.

Definition delete_text (st : Editor) (pos length : Z) : Z * Editor :=
  match g_buffer st with
  | Some b =>
      let '(ok, b) := buffer_delete b pos length in
      (bool_to_int ok, with_buffer st (Some b))
  | None => (0, st)
  end.

(** *** Cursor *)

Definition update_cursor_line_col (st : Editor) : Editor :=
  match g_buffer st with
  | None => st
  | Some b =>
      let '((l, c), b) :=
        buffer_pos_to_line_col b (position (g_cursor st)) in
      mkEditor (Some b)
               (mkCursor (position (g_cursor st)) l c
                         (preferred_column (g_cursor st)))
               (g_mode st) (g_selection_start st) (g_has_selection st)
               (g_search_pattern st)
  end.

Definition clamp_cursor (st : Editor) : Editor :=
  match g_buffer st with
  | None => st
  | Some b =>
      let len := buffer_length b in
      let st :=
        if len <? position (g_cursor st) then with_position st len else st in
      update_cursor_line_col st
  end.

Definition get_cursor_position (st : Editor) : Z := position (g_cursor st).
Definition get_cursor_line (st : Editor) : Z := line (g_cursor st).
Definition get_cursor_column (st : Editor) : Z := column (g_cursor st).

Definition set_cursor_position (st : Editor) (pos : Z) : Editor :=
  sync_preferred_column (clamp_cursor (with_position st pos)).

(** *** Modes *)

Definition get_mode (st : Editor) : Z := g_mode st.

Definition set_mode (st : Editor) (mode : Z) : Editor :=
  if mode =? MODE_VISUAL then
    mkEditor (g_buffer st) (g_cursor st) mode (position (g_cursor st)) true
             (g_search_pattern st)
  else if mode =? MODE_NORMAL then
    mkEditor (g_buffer st) (g_cursor st) mode (g_selection_start st) false
             (g_search_pattern st)
  else
    mkEditor (g_buffer st) (g_cursor st) mode (g_selection_start st)
             (g_has_selection st) (g_search_pattern st).

(** *** Motions *)

Definition is_space (c : byte) : bool :=
  Byte.eqb c SPACE || Byte.eqb c TAB || Byte.eqb c NEWLINE.

Definition motion_h (st : Editor) : Editor :=
  if 0 <? position (g_cursor st) then
    sync_preferred_column
      (update_cursor_line_col
         (with_position st (sz_sub (position (g_cursor st)) 1)))
  else st.

Definition motion_l (st : Editor) : Editor :=
  match g_buffer st with
  | Some b =>
      if position (g_cursor st) <? buffer_length b then
        sync_preferred_column
          (update_cursor_line_col
             (with_position st (sz_add (position (g_cursor st)) 1)))
      else st
  | None => st
  end.

(** [if (len > 0 && buffer_char_at(b, start + len - 1) == '\n') len--;] *)
Definition strip_newline (b : Buffer) (line_start line_len : Z) : Z :=
  if (0 <? line_len)
     && Byte.eqb (buffer_char_at b (sz_sub (sz_add line_start line_len) 1))
                 NEWLINE
  then sz_sub line_len 1
  else line_len.

Definition motion_j (st : Editor) : Editor :=
  match g_buffer st with
  | None => st
  | Some b =>
      let '(line_count, b) := buffer_line_count b in
      let st := with_buffer st (Some b) in
      if line_count <=? sz_add (line (g_cursor st)) 1 then st
      else
        let '(next_line_start, b) :=
          buffer_line_start b (sz_add (line (g_cursor st)) 1) in
        let '(next_line_len, b) :=
          buffer_line_length b (sz_add (line (g_cursor st)) 1) in
        let next_line_len := strip_newline b next_line_start next_line_len in
        let new_col := preferred_column (g_cursor st) in
        let new_col :=
          if next_line_len <? new_col then next_line_len else new_col in
        update_cursor_line_col
          (with_position (with_buffer st (Some b))
             (sz_add next_line_start new_col))
  end.

Definition motion_k (st : Editor) : Editor :=
  match g_buffer st with
  | None => st
  | Some b =>
      if line (g_cursor st) =? 0 then st
      else
        let '(prev_line_start, b) :=
          buffer_line_start b (sz_sub (line (g_cursor st)) 1) in
        let '(prev_line_len, b) :=
          buffer_line_length b (sz_sub (line (g_cursor st)) 1) in
        let prev_line_len := strip_newline b prev_line_start prev_line_len in
        let new_col := preferred_column (g_cursor st) in
        let new_col :=
          if prev_line_len <? new_col then prev_line_len else new_col in
        update_cursor_line_col
          (with_position (with_buffer st (Some b))
             (sz_add prev_line_start new_col))
  end.

(** [while (pos < len) { c = buffer_char_at(b, pos); if (<c is space> ==
    stop_at_space) break; pos++; }] with one unit of [fuel] for each
    iteration. *)
Fixpoint scan_forward (fuel : nat) (b : Buffer) (stop_at_space : bool)
    (pos len : Z) : Z :=
  match fuel with
  | O => pos
  | S fuel' =>
      if pos <? len then
        if Bool.eqb (is_space (buffer_char_at b pos)) stop_at_space then pos
        else scan_forward fuel' b stop_at_space (sz_add pos 1) len
      else pos
  end.

(** [while (pos < bound) { c = buffer_char_at(b, pos + 1); if (<c is
    space>) break; pos++; }] *)
Fixpoint scan_word_end (fuel : nat) (b : Buffer) (pos bound : Z) : Z :=
  match fuel with
  | O => pos
  | S fuel' =>
      if pos <? bound then
        if is_space (buffer_char_at b (sz_add pos 1)) then pos
        else scan_word_end fuel' b (sz_add pos 1) bound
      else pos
  end.

(** [while (pos > 0) { c = buffer_char_at(b, pos - back); if (<c is
    space> == stop_at_space) break; pos--; }] *)
Fixpoint scan_backward (fuel : nat) (b : Buffer) (stop_at_space : bool)
    (back pos : Z) : Z :=
  match fuel with
  | O => pos
  | S fuel' =>
      if 0 <? pos then
        if Bool.eqb (is_space (buffer_char_at b (sz_sub pos back)))
                    stop_at_space
        then pos
        else scan_backward fuel' b stop_at_space back (sz_sub pos 1)
      else pos
  end.

(** Every loop of the motions moves [pos] by one at each iteration, so it
    makes fewer than [SIZE_MOD] iterations. *)
Definition loop_fuel (from to : Z) : nat := Z.to_nat (Z.abs (to - from)).

Definition motion_w (st : Editor) : Editor :=
  match g_buffer st with
  | None => st
  | Some b =>
      let len := buffer_length b in
      let pos := position (g_cursor st) in
      let pos := scan_forward (loop_fuel pos len) b true pos len in
      let pos := scan_forward (loop_fuel pos len) b false pos len in
      sync_preferred_column (update_cursor_line_col (with_position st pos))
  end.

Definition motion_b (st : Editor) : Editor :=
  match g_buffer st with
  | None => st
  | Some b =>
      if position (g_cursor st) =? 0 then st
      else
        let pos := sz_sub (position (g_cursor st)) 1 in
        let pos := scan_backward (loop_fuel 0 pos) b false 0 pos in
        let pos := scan_backward (loop_fuel 0 pos) b true 1 pos in
        sync_preferred_column (update_cursor_line_col (with_position st pos))
  end.

Definition motion_e (st : Editor) : Editor :=
  match g_buffer st with
  | None => st
  | Some b =>
      let len := buffer_length b in
      let pos := position (g_cursor st) in
      let pos := if pos <? len then sz_add pos 1 else pos in
      let pos := scan_forward (loop_fuel pos len) b false pos len in
      let pos :=
        scan_word_end (loop_fuel pos (sz_sub len 1)) b pos (sz_sub len 1) in
      sync_preferred_column (update_cursor_line_col (with_position st pos))
  end.

Definition motion_line_start (st : Editor) : Editor :=
  match g_buffer st with
  | None => st
  | Some b =>
      let '(start, b) := buffer_line_start b (line (g_cursor st)) in
      with_preferred_column
        (update_cursor_line_col
           (with_position (with_buffer st (Some b)) start)) 0
  end.

Definition motion_line_end (st : Editor) : Editor :=
  match g_buffer st with
  | None => st
  | Some b =>
      let '(line_start, b) := buffer_line_start b (line (g_cursor st)) in
      let '(line_len, b) := buffer_line_length b (line (g_cursor st)) in
      let line_len := strip_newline b line_start line_len in
      sync_preferred_column
        (update_cursor_line_col
           (with_position (with_buffer st (Some b))
              (sz_add line_start line_len)))
  end.

Definition motion_file_start (st : Editor) : Editor :=
  with_preferred_column (update_cursor_line_col (with_position st 0)) 0.

Definition motion_file_end (st : Editor) : Editor :=
  match g_buffer st with
  | None => st
  | Some b =>
      let '(line_count, b) := buffer_line_count b in
      let st := with_buffer st (Some b) in
      let st :=
        if 0 <? line_count then
          let '(start, b) := buffer_line_start b (sz_sub line_count 1) in
          with_position (with_buffer st (Some b)) start
        else st in
      sync_preferred_column (update_cursor_line_col st)
  end.

(** *** Edits at the cursor *)

Definition insert_char (st : Editor) (c : byte) : Z * Editor :=
  match g_buffer st with
  | None => (0, st)
  | Some b =>
      let '(ok, b) :=
        buffer_insert b (position (g_cursor st)) (Some [c; NUL]) 1 in
      let st := with_buffer st (Some b) in
      if ok then
        (1, update_cursor_line_col
              (with_position st (sz_add (position (g_cursor st)) 1)))
      else (0, st)
  end.

Definition insert_string (st : Editor) (str : option (list byte))
  : Z * Editor :=
  match g_buffer st, str with
  | Some b, Some s =>
      let len := strlen s in
      let '(ok, b) := buffer_insert b (position (g_cursor st)) str len in
      let st := with_buffer st (Some b) in
      if ok then
        (1, update_cursor_line_col
              (with_position st (sz_add (position (g_cursor st)) len)))
      else (0, st)
  | _, _ => (0, st)
  end.

Definition delete_char_before (st : Editor) : Z * Editor :=
  match g_buffer st with
  | None => (0, st)
  | Some b =>
      if position (g_cursor st) =? 0 then (0, st)
      else
        let '(ok, b) :=
          buffer_delete b (sz_sub (position (g_cursor st)) 1) 1 in
        let st := with_buffer st (Some b) in
        if ok then
          (1, update_cursor_line_col
                (with_position st (sz_sub (position (g_cursor st)) 1)))
        else (0, st)
  end.

Definition delete_char_after (st : Editor) : Z * Editor :=
  match g_buffer st with
  | None => (0, st)
  | Some b =>
      if position (g_cursor st) <? buffer_length b then
        let '(ok, b) := buffer_delete b (position (g_cursor st)) 1 in
        (bool_to_int ok, with_buffer st (Some b))
      else (0, st)
  end.

Definition delete_line (st : Editor) : Z * Editor :=
  match g_buffer st with
  | None => (0, st)
  | Some b =>
      let '(line_start, b) := buffer_line_start b (line (g_cursor st)) in
      let '(line_len, b) := buffer_line_length b (line (g_cursor st)) in
      let '(ok, b) := buffer_delete b line_start line_len in
      let st := with_buffer st (Some b) in
      if ok then (1, clamp_cursor (with_position st line_start))
      else (0, st)
  end.

(** *** Selection *)

Definition has_selection (st : Editor) : Z := bool_to_int (g_has_selection st).

Definition get_selection_start (st : Editor) : Z :=
  if negb (g_has_selection st) then position (g_cursor st)
  else if g_selection_start st <? position (g_cursor st)
       then g_selection_start st
       else position (g_cursor st).

Definition get_selection_end (st : Editor) : Z :=
  if negb (g_has_selection st) then position (g_cursor st)
  else if position (g_cursor st) <? g_selection_start st
       then g_selection_start st
       else position (g_cursor st).

(** *** Search *)

(** [strncpy] of at most 255 bytes of the C string [pattern], then the
    terminator at index 255. *)
Definition set_search_pattern (st : Editor) (pattern : list byte) : Editor :=
  mkEditor (g_buffer st) (g_cursor st) (g_mode st) (g_selection_start st)
           (g_has_selection st)
           (ztake 255 (ztake (strlen pattern) pattern)).

(** The tail shared by the two hits of [search_next] and [search_prev]. *)
Definition move_to_match (st : Editor) (found : Z) : Z * Editor :=
  (1, sync_preferred_column
        (update_cursor_line_col (with_position st found))).

Definition search_next (st : Editor) : Z * Editor :=
  match g_buffer st with
  | None => (0, st)
  | Some b =>
      if Byte.eqb (head_or_nul (g_search_pattern st)) NUL then (0, st)
      else
        let found :=
          buffer_find_next b (sz_add (position (g_cursor st)) 1)
            (Some (g_search_pattern st)) in
        if 0 <=? found then move_to_match st found
        else
          let found := buffer_find_next b 0 (Some (g_search_pattern st)) in
          if 0 <=? found then move_to_match st found
          else (0, st)
  end.

(** The loop of [buffer_find_prev], one unit of [fuel] for each value of
    [i] from [start - needle_len] down to 0. *)
Fixpoint find_prev_loop (fuel : nat) (text needle : list byte)
    (i needle_len : Z) : Z :=
  match fuel with
  | O => -1
  | S fuel' =>
      if strncmp_eq (zdrop i text) needle (Z.to_nat needle_len)
      then to_long i
      else if i =? 0 then -1
      else find_prev_loop fuel' text needle (sz_sub i 1) needle_len
  end.

Definition buffer_find_prev (b : Buffer) (start : Z)
    (needle : option (list byte)) : Z :=
  match needle with
  | None => -1
  | Some needle =>
      let needle_len := strlen needle in
      if (needle_len =? 0) || (start <? needle_len) then -1
      else
        match buffer_get_all b with
        | None => -1
        | Some text =>
            let i := sz_sub start needle_len in
            find_prev_loop (S (Z.to_nat i)) text needle i needle_len
        end
  end.

Definition search_prev (st : Editor) : Z * Editor :=
  match g_buffer st with
  | None => (0, st)
  | Some b =>
      if Byte.eqb (head_or_nul (g_search_pattern st)) NUL then (0, st)
      else
        let found :=
          buffer_find_prev b (position (g_cursor st))
            (Some (g_search_pattern st)) in
        if 0 <=? found then move_to_match st found
        else
          let found :=
            buffer_find_prev b (buffer_length b)
              (Some (g_search_pattern st)) in
          if 0 <=? found then move_to_match st found
          else (0, st)
  end.

(** ** Invariants of the data model *)

(** The bytes a piece designates: [storage[start .. start + length)]. *)
Definition piece_bytes (b : Buffer) (p : Piece) : list byte :=
  ztake (piece_length p) (zdrop (piece_start p) (storage b (piece_source p))).

(** The logical content of the document: the pieces' bytes in order. *)
Definition content (b : Buffer) : list byte :=
  flat_map (piece_bytes b) (pieces b).

Fixpoint sum_lengths (ps : list Piece) : Z :=
  match ps with
  | [] => 0
  | p :: rest => piece_length p + sum_lengths rest
  end.

(** A piece has positive length and lies inside its storage. *)
Definition piece_ok (b : Buffer) (p : Piece) : Prop :=
  0 < piece_length p /\ 0 <= piece_start p /\
  piece_start p + piece_length p <= zlen (storage b (piece_source p)).

Definition piece_okb (b : Buffer) (p : Piece) : bool :=
  (0 <? piece_length p) && (0 <=? piece_start p) &&
  (piece_start p + piece_length p <=? zlen (storage b (piece_source p))).

(** The line cache, when it is clean, is the one [rebuild_line_cache]
    computes from the content. *)
Definition cache_ok (b : Buffer) : Prop :=
  lines_dirty b = false ->
  line_starts b = 0 :: line_starts_loop (content b) 0 (total_length b) /\
  line_count b = count_lines_loop (content b) 1.

Definition list_Z_eqb (l1 l2 : list Z) : bool :=
  (length l1 =? length l2)%nat
  && forallb (fun xy => fst xy =? snd xy) (combine l1 l2).

Definition cache_okb (b : Buffer) : bool :=
  lines_dirty b
  || (list_Z_eqb (line_starts b)
        (0 :: line_starts_loop (content b) 0 (total_length b))
      && (line_count b =? count_lines_loop (content b) 1)).

(** The invariants of the buffer: valid pieces, the cached total, the two
    storages holding at least as many bytes as the document and lying,
    with a terminator, inside one 32-bit address space, and a coherent
    line cache. *)
Definition buf_ok (b : Buffer) : Prop :=
  Forall (piece_ok b) (pieces b) /\
  total_length b = sum_lengths (pieces b) /\
  sum_lengths (pieces b) <= original_length b + add_length b /\
  original_length b + add_length b < SIZE_MOD - 1 /\
  cache_ok b.

(** The executable form of [buf_ok]. *)
Definition buf_okb (b : Buffer) : bool :=
  forallb (piece_okb b) (pieces b)
  && (total_length b =? sum_lengths (pieces b))
  && (sum_lengths (pieces b) <=? original_length b + add_length b)
  && (original_length b + add_length b <? SIZE_MOD - 1)
  && cache_okb b.

(** Two buffers that hold the same document. *)
Definition same_doc (b b' : Buffer) : Prop :=
  original b' = original b /\ add_buffer b' = add_buffer b /\
  pieces b' = pieces b /\ total_length b' = total_length b.

(** [lo < s1 < s2 < ... < sn <= hi] for [ls = [s1; ...; sn]]. *)
Fixpoint chain (lo : Z) (ls : list Z) (hi : Z) : Prop :=
  match ls with
  | [] => lo <= hi
  | s :: rest => lo < s /\ chain s rest hi
  end.

(** What a clean line cache holds. *)
Definition lines_ok (b : Buffer) : Prop :=
  exists rest,
    line_starts b = 0 :: rest /\
    chain 0 rest (total_length b) /\
    line_count b = 1 + zlen rest.

(** ** Specification vocabulary *)



(** The pattern [pat] occurs literally in [doc] at offset [i]. *)
Definition occurs_at (doc pat : list byte) (i : Z) : Prop :=
  0 <= i /\ ztake (zlen pat) (zdrop i doc) = pat.

(** [i] is the smallest offset [>= from] at which [pat] occurs in [doc]. *)
Definition first_occurrence (doc pat : list byte) (from i : Z) : Prop :=
  from <= i /\ occurs_at doc pat i /\
  forall j, from <= j < i -> ~ occurs_at doc pat j.

(** A non-empty search register: what [set_search_pattern] stores is a C
    string of at most 255 bytes, none of them NUL. *)
Definition pattern_ok (pat : list byte) : Prop :=
  pat <> [] /\ strlen pat = zlen pat /\ zlen pat <= 255.

(** The cursor of [st] is at offset [i] of the unchanged document [doc]
    and the bytes read there are [pat]. *)
Definition cursor_on_match (st : Editor) (doc pat : list byte) (i : Z)
  : Prop :=
  position (g_cursor st) = i /\
  exists b,
    g_buffer st = Some b /\
    buffer_get_all b = Some doc /\
    buffer_get_text b i (zlen pat) = Some pat.

(** The number of newline bytes of a text. *)
Definition count_newlines (doc : list byte) : Z :=
  zlen (filter (fun c => Byte.eqb c NEWLINE) doc).

(** Line and column reached by reading [text] from line [line], column
    [col]: a newline starts the next line at column 0, any other byte
    advances the column. *)
Fixpoint line_col_scan (text : list byte) (line col : Z) : Z * Z :=
  match text with
  | [] => (line, col)
  | c :: rest =>
      if Byte.eqb c NEWLINE then line_col_scan rest (line + 1) 0
      else line_col_scan rest line (col + 1)
  end.

(** [i] is the greatest offset at which an occurrence of [pat] in [doc]
    ends at or before [upto]. *)
Definition last_occurrence (doc pat : list byte) (upto i : Z) : Prop :=
  occurs_at doc pat i /\ i + zlen pat <= upto /\
  (forall j, i < j -> j + zlen pat <= upto -> ~ occurs_at doc pat j).

(** ** Sequences of buffer operations *)

(** A call of [buffer_insert] or [buffer_delete] with its arguments. *)
Inductive BufferOp : Type :=
| OpInsert (position : Z) (text : option (list byte)) (length : Z)
| OpDelete (position length : Z).

Definition apply_op (b : Buffer) (op : BufferOp) : Buffer :=
  match op with
  | OpInsert position text length =>
      snd (buffer_insert b position text length)
  | OpDelete position length => snd (buffer_delete b position length)
  end.

Definition run_ops (b : Buffer) (ops : list BufferOp) : Buffer :=
  fold_left apply_op ops b.



(** ** Operations and invariant of the editor *)

(** The operations the host can invoke on the editor. *)
Inductive EditorOp : Type :=
| DoInit
| DoLoadText (text : option (list byte))
| DoInsertText (pos : Z) (text : option (list byte))
| DoDeleteText (pos length : Z)
| DoSetCursorPosition (pos : Z)
| DoSetMode (mode : Z)
| DoMotionH | DoMotionL | DoMotionJ | DoMotionK
| DoMotionW | DoMotionB | DoMotionE
| DoMotionLineStart | DoMotionLineEnd
| DoMotionFileStart | DoMotionFileEnd
| DoInsertChar (c : byte)
| DoInsertString (str : option (list byte))
| DoDeleteCharBefore | DoDeleteCharAfter | DoDeleteLine
| DoSetSearchPattern (pattern : list byte)
| DoSearchNext | DoSearchPrev.

Definition step (st : Editor) (op : EditorOp) : Editor :=
  match op with
  | DoInit => snd (editor_init st)
  | DoLoadText text => snd (editor_load_text st text)
  | DoInsertText pos text => snd (insert_text st pos text)
  | DoDeleteText pos length => snd (delete_text st pos length)
  | DoSetCursorPosition pos => set_cursor_position st pos
  | DoSetMode mode => set_mode st mode
  | DoMotionH => motion_h st
  | DoMotionL => motion_l st
  | DoMotionJ => motion_j st
  | DoMotionK => motion_k st
  | DoMotionW => motion_w st
  | DoMotionB => motion_b st
  | DoMotionE => motion_e st
  | DoMotionLineStart => motion_line_start st
  | DoMotionLineEnd => motion_line_end st
  | DoMotionFileStart => motion_file_start st
  | DoMotionFileEnd => motion_file_end st
  | DoInsertChar c => snd (insert_char st c)
  | DoInsertString str => snd (insert_string st str)
  | DoDeleteCharBefore => snd (delete_char_before st)
  | DoDeleteCharAfter => snd (delete_char_after st)
  | DoDeleteLine => snd (delete_line st)
  | DoSetSearchPattern pattern => set_search_pattern st pattern
  | DoSearchNext => snd (search_next st)
  | DoSearchPrev => snd (search_prev st)
  end.

Definition is_motion (op : EditorOp) : bool :=
  match op with
  | DoMotionH | DoMotionL | DoMotionJ | DoMotionK
  | DoMotionW | DoMotionB | DoMotionE
  | DoMotionLineStart | DoMotionLineEnd
  | DoMotionFileStart | DoMotionFileEnd => true
  | _ => false
  end.

(** The executable form of [is_size]. *)
Definition is_sizeb (z : Z) : bool := (0 <=? z) && (z <? SIZE_MOD).

(** The invariant of an initialised editor: the cursor fields are
    [size_t] values, the search register holds at most 255 bytes, there is
    a buffer, it satisfies its invariants, and the cursor is inside the
    document. *)
Definition editor_ok (st : Editor) : Prop :=
  is_size (line (g_cursor st)) /\
  is_size (column (g_cursor st)) /\
  is_size (preferred_column (g_cursor st)) /\
  zlen (g_search_pattern st) <= 255 /\
  0 <= position (g_cursor st) <= get_buffer_length st /\
  match g_buffer st with
  | Some b => buf_ok b
  | None => False
  end.

(** The executable form of [editor_ok]. *)
Definition editor_okb (st : Editor) : bool :=
  is_sizeb (line (g_cursor st))
  && is_sizeb (column (g_cursor st))
  && is_sizeb (preferred_column (g_cursor st))
  && (zlen (g_search_pattern st) <=? 255)
  && (0 <=? position (g_cursor st))
  && (position (g_cursor st) <=? get_buffer_length st)
  && match g_buffer st with
     | Some b => buf_okb b
     | None => false
     end.






(** The operations that can change the document. *)
Definition is_edit (op : EditorOp) : bool :=
  match op with
  | DoInit | DoLoadText _ | DoInsertText _ _ | DoDeleteText _ _
  | DoInsertChar _ | DoInsertString _
  | DoDeleteCharBefore | DoDeleteCharAfter | DoDeleteLine => true
  | _ => false
  end.

(** [st'] holds the document of [st]. *)
Definition same_text (st st' : Editor) : Prop :=
  match g_buffer st, g_buffer st' with
  | Some b, Some b' => same_doc b b'
  | None, None => True
  | _, _ => False
  end.

(** [st'] differs from [st] at most in its cursor and in the line cache
    of its buffer. *)
Definition cursor_moved (st st' : Editor) : Prop :=
  same_text st st' /\
  g_mode st' = g_mode st /\
  g_selection_start st' = g_selection_start st /\
  g_has_selection st' = g_has_selection st /\
  g_search_pattern st' = g_search_pattern st.

(** ** Example documents and states *)

(** The document of scenario 1 of the specification: "Hello World" with
    "Beautiful " inserted at offset 6; the piece table then has three
    pieces. *)
Definition hello_beautiful : Buffer :=
  snd (buffer_insert (buffer_create (Some (bytes "Hello World"))) 6
         (Some (bytes "Beautiful ")) 10).

(** The document of scenario 2: three lines, the first two ending in a newline. *)
Definition three_lines : Buffer :=
  buffer_create (Some (bytes "ab
cd
ef")).

(** The state of scenario 5 of the specification before its first
    search. *)
Definition needle_editor : Editor :=
  set_search_pattern
    (snd (editor_load_text initial_editor
            (Some (bytes "find the needle in the haystack"))))
    (bytes "the").


(** Scenario 6 of the specification: the cursor on line 1 of three. *)
Definition line2_editor : Editor :=
  set_cursor_position
    (snd (editor_load_text initial_editor (Some (bytes "line1
line2
line3")))) 8.

(** The document of scenario 3 with the cursor at its end. *)
Definition hello_editor : Editor :=
  set_cursor_position
    (snd (editor_load_text initial_editor (Some (bytes "hello world")))) 11.

(** An initialised editor with an empty document. *)
Definition empty_editor : Editor := snd (editor_init initial_editor).

(** A document loaded over an editor left in visual mode with its
    selection anchored at offset 8. *)
Definition stale_selection_editor : Editor :=
  snd (editor_load_text
         (set_mode
            (set_cursor_position
               (snd (editor_load_text initial_editor
                       (Some (bytes "hello world")))) 8)
            MODE_VISUAL)
         (Some (bytes "hi"))).
(** * Properties *)

(** ** size_t arithmetic *)

Lemma SIZE_MOD_eq : SIZE_MOD = 4294967296.
Proof. reflexivity. Qed.

Lemma wrap_small (z : Z) : 0 <= z < SIZE_MOD -> wrap z = z.
Proof. intros H. unfold wrap. apply Z.mod_small. exact H. Qed.


Lemma sz_add_small (a b : Z) : 0 <= a + b < SIZE_MOD -> sz_add a b = a + b.
Proof. apply wrap_small. Qed.

Lemma sz_sub_small (a b : Z) : 0 <= a - b < SIZE_MOD -> sz_sub a b = a - b.
Proof. apply wrap_small. Qed.

Lemma sz_sub_borrow (a b : Z) :
- SIZE_MOD <= a - b < 0 -> sz_sub a b = a - b + SIZE_MOD.
Proof.
intros H. unfold sz_sub, wrap.
symmetry. apply Z.mod_unique_pos with (q := -1); lia.
Qed.

Lemma sz_add_carry (a b : Z) :
SIZE_MOD <= a + b < 2 * SIZE_MOD -> sz_add a b = a + b - SIZE_MOD.
Proof.
intros H. unfold sz_add, wrap.
symmetry. apply Z.mod_unique_pos with (q := 1); lia.
Qed.

(** ** Lists indexed by Z *)

Section ZList.
Context {A : Type}.
Implicit Types (l : list A) (n : Z).

Lemma zlen_nonneg l : 0 <= zlen l.
Proof. unfold zlen. lia. Qed.

Lemma zlen_nil : zlen (@nil A) = 0.
Proof. reflexivity. Qed.

Lemma zlen_cons (x : A) l : zlen (x :: l) = 1 + zlen l.
Proof. unfold zlen. simpl length. lia. Qed.

Lemma zlen_app l1 l2 : zlen (l1 ++ l2) = zlen l1 + zlen l2.
Proof. unfold zlen. rewrite length_app. lia. Qed.

Lemma zlen_zero_nil l : zlen l = 0 -> l = [].
Proof. unfold zlen. destruct l; simpl; [reflexivity | lia]. Qed.

Lemma zlen_ztake n l : 0 <= n <= zlen l -> zlen (ztake n l) = n.
Proof. unfold zlen, ztake. intros H. rewrite length_firstn. lia. Qed.

Lemma zlen_ztake_le n l : zlen (ztake n l) <= zlen l.
Proof. unfold zlen, ztake. rewrite length_firstn. lia. Qed.

Lemma zlen_zdrop n l : 0 <= n <= zlen l -> zlen (zdrop n l) = zlen l - n.
Proof. unfold zlen, zdrop. intros H. rewrite length_skipn. lia. Qed.

Lemma ztake_all n l : zlen l <= n -> ztake n l = l.
Proof. unfold zlen, ztake. intros H. apply firstn_all2. lia. Qed.

Lemma ztake_none n l : n <= 0 -> ztake n l = [].
Proof.
  unfold ztake. intros H. replace (Z.to_nat n) with 0%nat by lia.
  reflexivity.
Qed.

Lemma zdrop_all n l : zlen l <= n -> zdrop n l = [].
Proof. unfold zlen, zdrop. intros H. apply skipn_all2. lia. Qed.

Lemma zdrop_none n l : n <= 0 -> zdrop n l = l.
Proof.
  unfold zdrop. intros H. replace (Z.to_nat n) with 0%nat by lia.
  reflexivity.
Qed.

Lemma ztake_app n l1 l2 :
  ztake n (l1 ++ l2) = ztake n l1 ++ ztake (n - zlen l1) l2.
Proof.
  unfold ztake, zlen. rewrite firstn_app. do 2 f_equal. lia.
Qed.

Lemma zdrop_app n l1 l2 :
  zdrop n (l1 ++ l2) = zdrop n l1 ++ zdrop (n - zlen l1) l2.
Proof.
  unfold zdrop, zlen. rewrite skipn_app. do 2 f_equal. lia.
Qed.

Lemma ztake_zdrop n l : ztake n l ++ zdrop n l = l.
Proof. apply firstn_skipn. Qed.

Lemma ztake_ztake n m l : n <= m -> ztake n (ztake m l) = ztake n l.
Proof.
  unfold ztake. intros H. rewrite firstn_firstn. f_equal. lia.
Qed.

Lemma zdrop_zdrop n m l :
  0 <= n -> 0 <= m -> zdrop n (zdrop m l) = zdrop (m + n) l.
Proof.
  unfold zdrop. intros Hn Hm. rewrite skipn_skipn. f_equal. lia.
Qed.

Lemma zdrop_ztake n m l :
  0 <= n -> zdrop n (ztake m l) = ztake (m - n) (zdrop n l).
Proof.
  unfold zdrop, ztake. intros Hn. rewrite skipn_firstn_comm. f_equal. lia.
Qed.


Lemma zdrop_app_exact l1 l2 : zdrop (zlen l1) (l1 ++ l2) = l2.
Proof.
  rewrite zdrop_app, zdrop_all, zdrop_none by lia. reflexivity.
Qed.


Lemma znth_error_app_exact l1 (x : A) l2 :
  znth_error (l1 ++ x :: l2) (zlen l1) = Some x.
Proof.
  unfold znth_error, zlen.
  destruct (Z.ltb_spec (Z.of_nat (length l1)) 0); [lia |].
  rewrite Nat2Z.id, nth_error_app2 by lia.
  rewrite Nat.sub_diag. reflexivity.
Qed.

Lemma znth_error_split l n (x : A) :
  znth_error l n = Some x ->
  exists l1 l2, l = l1 ++ x :: l2 /\ zlen l1 = n.
Proof.
  unfold znth_error. destruct (Z.ltb_spec n 0); [discriminate |].
  intros Hn. apply nth_error_split in Hn.
  destruct Hn as (l1 & l2 & -> & Hlen).
  exists l1, l2. split; [reflexivity | unfold zlen; lia].
Qed.

Lemma znth_error_none l n : zlen l <= n -> znth_error l n = None.
Proof.
  unfold znth_error, zlen. intros H.
  destruct (Z.ltb_spec n 0); [reflexivity |].
  apply nth_error_None. lia.
Qed.
End ZList.

(** ** Pieces and content *)

Ltac unwrap :=
  repeat match goal with
    | |- context [sz_add ?a ?b] => rewrite (sz_add_small a b) by lia
    | |- context [sz_sub ?a ?b] => rewrite (sz_sub_small a b) by lia
    | |- context [wrap ?a] => rewrite (wrap_small a) by lia
    end.

Ltac unwrap_in H :=
  repeat match type of H with
    | context [sz_add ?a ?b] => rewrite (sz_add_small a b) in H by lia
    | context [sz_sub ?a ?b] => rewrite (sz_sub_small a b) in H by lia
    | context [wrap ?a] => rewrite (wrap_small a) in H by lia
    end.

Lemma sum_lengths_app (l1 l2 : list Piece) :
  sum_lengths (l1 ++ l2) = sum_lengths l1 + sum_lengths l2.
Proof. induction l1 as [| p l1 IH]; simpl; lia. Qed.


Lemma content_cons (b : Buffer) (p : Piece) (ps : list Piece) :
  flat_map (piece_bytes b) (p :: ps)
  = piece_bytes b p ++ flat_map (piece_bytes b) ps.
Proof. reflexivity. Qed.

Lemma content_app (b : Buffer) (l1 l2 : list Piece) :
  flat_map (piece_bytes b) (l1 ++ l2)
  = flat_map (piece_bytes b) l1 ++ flat_map (piece_bytes b) l2.
Proof. apply flat_map_app. Qed.

Lemma piece_bytes_length (b : Buffer) (p : Piece) :
  piece_ok b p -> zlen (piece_bytes b p) = piece_length p.
Proof.
  intros (Hl & Hs & Hr). unfold piece_bytes.
  rewrite zlen_ztake; [reflexivity |].
  rewrite zlen_zdrop by lia. lia.
Qed.

Lemma pieces_content_length (b : Buffer) (ps : list Piece) :
  Forall (piece_ok b) ps ->
  zlen (flat_map (piece_bytes b) ps) = sum_lengths ps.
Proof.
  induction 1 as [| p ps Hp _ IH]; simpl; [reflexivity |].
  rewrite zlen_app, piece_bytes_length, IH by assumption. reflexivity.
Qed.

Lemma sum_lengths_nonneg (b : Buffer) (ps : list Piece) :
  Forall (piece_ok b) ps -> 0 <= sum_lengths ps.
Proof.
  induction 1 as [| p ps (Hl & _) _ IH]; simpl; lia.
Qed.

Lemma sum_lengths_count (b : Buffer) (ps : list Piece) :
  Forall (piece_ok b) ps -> zlen ps <= sum_lengths ps.
Proof.
  induction 1 as [| p ps (Hl & _) _ IH]; simpl; rewrite ?zlen_cons;
    [unfold zlen; simpl |]; lia.
Qed.

Lemma content_length (b : Buffer) :
  buf_ok b -> zlen (content b) = total_length b.
Proof.
  intros (Hp & Ht & _). rewrite Ht. apply pieces_content_length, Hp.
Qed.

Lemma total_length_range (b : Buffer) :
  buf_ok b -> 0 <= total_length b < SIZE_MOD - 1.
Proof.
  intros (Hp & Ht & Hs & Hm & _). rewrite Ht.
  pose proof (sum_lengths_nonneg b _ Hp). lia.
Qed.



(** ** find_piece_at *)

Lemma find_piece_loop_found (b : Buffer) (l1 : list Piece) :
  forall (p : Piece) (l2 : list Piece) (position i cur : Z),
    Forall (piece_ok b) (l1 ++ p :: l2) ->
    0 <= i -> i + zlen l1 < SIZE_MOD ->
    0 <= cur -> cur + sum_lengths l1 + piece_length p < SIZE_MOD ->
    cur + sum_lengths l1 <= position < cur + sum_lengths l1 + piece_length p ->
    find_piece_loop (l1 ++ p :: l2) position i cur
    = Some (i + zlen l1, position - cur - sum_lengths l1).
Proof.
  induction l1 as [| q l1 IH]; intros p l2 position i cur Hok Hi Hil Hc Hb Hp.
  - simpl in *. rewrite zlen_nil.
    apply Forall_inv in Hok. destruct Hok as (Hl & _).
    unwrap. destruct (Z.ltb_spec position (cur + piece_length p)); [| lia].
    unwrap. do 2 f_equal; lia.
  - simpl app in *. simpl sum_lengths in *. rewrite zlen_cons in *.
    pose proof (Forall_inv Hok) as (Hl & _).
    apply Forall_inv_tail in Hok.
    pose proof (sum_lengths_nonneg b l1
                  (proj1 (proj1 (Forall_app _ _ _) Hok))) as Hs.
    pose proof (zlen_nonneg l1).
    simpl find_piece_loop. unwrap.
    destruct (Z.ltb_spec position (cur + piece_length q)); [lia |].
    rewrite IH by (try assumption; lia).
    do 2 f_equal; lia.
Qed.

Lemma find_piece_loop_none (b : Buffer) (ps : list Piece) :
  forall (position i cur : Z),
    Forall (piece_ok b) ps ->
    0 <= cur -> cur + sum_lengths ps < SIZE_MOD ->
    cur + sum_lengths ps <= position ->
    find_piece_loop ps position i cur = None.
Proof.
  induction ps as [| q ps IH]; intros position i cur Hok Hc Hb Hp;
    [reflexivity |].
  simpl in *. pose proof (Forall_inv Hok) as (Hl & _).
  apply Forall_inv_tail in Hok.
  pose proof (sum_lengths_nonneg b ps Hok).
  unwrap. destruct (Z.ltb_spec position (cur + piece_length q)); [lia |].
  apply IH; try assumption; lia.
Qed.

(** Every position inside the document belongs to exactly one piece. *)
Lemma locate_piece (b : Buffer) (ps : list Piece) :
  forall (position : Z),
    Forall (piece_ok b) ps ->
    0 <= position < sum_lengths ps ->
    exists l1 p l2,
      ps = l1 ++ p :: l2 /\
      sum_lengths l1 <= position < sum_lengths l1 + piece_length p.
Proof.
  induction ps as [| q ps IH]; intros position Hok Hp; simpl in *; [lia |].
  pose proof (Forall_inv Hok) as (Hl & _). apply Forall_inv_tail in Hok.
  destruct (Z.lt_ge_cases position (piece_length q)) as [Hlt | Hge].
  - exists [], q, ps. simpl. split; [reflexivity | lia].
  - destruct (IH (position - piece_length q) Hok) as (l1 & p & l2 & -> & Hr);
      [lia |].
    exists (q :: l1), p, l2. simpl. split; [reflexivity | lia].
Qed.

Lemma find_piece_at_inside (b : Buffer) (l1 : list Piece) (p : Piece)
    (l2 : list Piece) (position : Z) :
  buf_ok b -> pieces b = l1 ++ p :: l2 ->
  sum_lengths l1 <= position < sum_lengths l1 + piece_length p ->
  find_piece_at b position = Some (zlen l1, position - sum_lengths l1).
Proof.
  intros Hok Hps Hp. pose proof (total_length_range b Hok) as Ht.
  destruct Hok as (Hf & Htot & _).
  rewrite Hps in Hf, Htot. rewrite Htot, sum_lengths_app in Ht.
  pose proof (sum_lengths_nonneg b _ Hf) as Hn.
  pose proof (sum_lengths_count b _ Hf) as Hc.
  rewrite sum_lengths_app, zlen_app, zlen_cons in *.
  simpl sum_lengths in *.
  pose proof (zlen_nonneg l2).
  assert (0 <= sum_lengths l2)
    by (apply Forall_app in Hf; destruct Hf as (_ & Hf);
        apply Forall_inv_tail in Hf; apply (sum_lengths_nonneg b _ Hf)).
  assert (0 <= sum_lengths l1)
    by (apply Forall_app in Hf; destruct Hf as (Hf & _);
        apply (sum_lengths_nonneg b _ Hf)).
  unfold find_piece_at. rewrite Hps.
  rewrite (find_piece_loop_found b) by (try assumption; lia).
  do 2 f_equal; lia.
Qed.


Lemma find_piece_at_beyond (b : Buffer) (position : Z) :
  buf_ok b -> total_length b < position ->
  find_piece_at b position = None.
Proof.
  intros Hok Hp. pose proof (total_length_range b Hok) as Ht.
  destruct Hok as (Hf & Htot & _).
  unfold find_piece_at.
  rewrite (find_piece_loop_none b) by (try assumption; lia).
  destruct (Z.eqb_spec position (total_length b)); [lia | reflexivity].
Qed.

(** ** buffer_get_text *)

Lemma storage_bound (b : Buffer) (s : PieceSource) :
  zlen (storage b s) <= original_length b + add_length b.
Proof.
  unfold original_length, add_length.
  pose proof (zlen_nonneg (original b)). pose proof (zlen_nonneg (add_buffer b)).
  destruct s; simpl; lia.
Qed.

(** The bytes one iteration of [buffer_get_text] copies out of a piece. *)
Lemma piece_copy (b : Buffer) (p : Piece) (cs n : Z) :
  piece_ok b p -> 0 <= cs -> cs + n <= piece_length p ->
  ztake n (zdrop (piece_start p + cs) (storage b (piece_source p)))
  = ztake n (zdrop cs (piece_bytes b p)).
Proof.
  intros (Hl & Hs & Hr) Hcs Hce. unfold piece_bytes.
  rewrite zdrop_ztake, zdrop_zdrop, ztake_ztake by lia. reflexivity.
Qed.

Lemma slice_app {A} (P R : list A) (d n : Z) :
  0 <= d <= zlen P ->
  ztake n (zdrop d (P ++ R))
  = ztake n (zdrop d P) ++ ztake (n - (zlen P - d)) R.
Proof.
  intros Hd. rewrite zdrop_app, ztake_app, zlen_zdrop by lia.
  rewrite (zdrop_none (d - zlen P)) by lia. reflexivity.
Qed.

Lemma slice_skip {A} (P R : list A) (d n : Z) :
  zlen P <= d ->
  ztake n (zdrop d (P ++ R)) = ztake n (zdrop (d - zlen P) R).
Proof.
  intros Hd. rewrite zdrop_app, (zdrop_all d P) by lia. reflexivity.
Qed.

Ltac slice_eq := repeat first [lia | reflexivity | progress f_equal].

Lemma get_text_loop_spec (b : Buffer) (ps : list Piece) :
  forall (start length written cur : Z) (result : list byte),
    Forall (piece_ok b) ps ->
    original_length b + add_length b < SIZE_MOD ->
    0 <= start -> 0 <= length -> 0 <= cur ->
    cur + sum_lengths ps < SIZE_MOD ->
    start + length <= cur + sum_lengths ps ->
    written = Z.max 0 (Z.min cur (start + length) - start) ->
    get_text_loop b ps start length written cur result
    = result
        ++ ztake (start + length - Z.max start cur)
             (zdrop (Z.max start cur - cur) (flat_map (piece_bytes b) ps)).
Proof.
  induction ps as [| p ps IH];
    intros start length written cur result Hok Hm Hs Hl Hc Hb Hr Hw.
  - simpl. unfold ztake, zdrop. rewrite skipn_nil, firstn_nil, app_nil_r.
    reflexivity.
  - pose proof (Forall_inv Hok) as Hp. apply Forall_inv_tail in Hok.
    pose proof (sum_lengths_nonneg b ps Hok) as Hn.
    pose proof (piece_bytes_length b p Hp) as HP.
    pose proof Hp as (Hpl & Hps & Hpr).
    pose proof (storage_bound b (piece_source p)) as Hsb.
    simpl sum_lengths in *. simpl flat_map. simpl get_text_loop.
    destruct (Z.ltb_spec written length) as [Hwl | Hwl].
    + unwrap.
      destruct (Z.ltb_spec start (cur + piece_length p)) as [Hin | Hout].
      * rewrite slice_app by lia. rewrite HP.
        destruct (Z.ltb_spec cur start) as [Hcs | Hcs];
          destruct (Z.ltb_spec (start + length) (cur + piece_length p))
            as [He | He];
          unwrap;
          rewrite IH by (try assumption; lia);
          rewrite <- app_assoc; f_equal;
          rewrite piece_copy by (try assumption; lia).
        -- rewrite (ztake_none (start + length
                                - Z.max start (cur + piece_length p))) by lia.
           rewrite (ztake_none (start + length - Z.max start cur
                                - (piece_length p - (Z.max start cur - cur))))
             by lia.
           slice_eq.
        -- rewrite (zdrop_none (Z.max start (cur + piece_length p)
                                - (cur + piece_length p))) by lia.
           rewrite !(ztake_all _ (zdrop _ (piece_bytes b p)))
             by (rewrite zlen_zdrop by lia; lia).
           slice_eq.
        -- rewrite (ztake_none (start + length
                                - Z.max start (cur + piece_length p))) by lia.
           rewrite (ztake_none (start + length - Z.max start cur
                                - (piece_length p - (Z.max start cur - cur))))
             by lia.
           slice_eq.
        -- rewrite (zdrop_none (Z.max start (cur + piece_length p)
                                - (cur + piece_length p))) by lia.
           rewrite !(ztake_all _ (zdrop _ (piece_bytes b p)))
             by (rewrite zlen_zdrop by lia; lia).
           slice_eq.
      * rewrite IH by (try assumption; lia).
        rewrite slice_skip by lia. rewrite HP.
        slice_eq.
    + rewrite ztake_none by lia. rewrite app_nil_r. reflexivity.
Qed.

Lemma buffer_get_text_spec (b : Buffer) (start length : Z) :
  buf_ok b -> 0 <= start -> 0 <= length ->
  start + length <= total_length b ->
  buffer_get_text b start length
  = Some (ztake length (zdrop start (content b))).
Proof.
  intros Hok Hs Hl Hr. pose proof (total_length_range b Hok) as Ht.
  destruct Hok as (Hf & Htot & _ & Hm & _).
  unfold buffer_get_text. unwrap.
  destruct (Z.ltb_spec (total_length b) (start + length)); [lia |].
  rewrite (get_text_loop_spec b) by (try assumption; lia).
  simpl. unfold content. slice_eq.
Qed.

Lemma buffer_get_text_out_of_range (b : Buffer) (start length : Z) :
  0 <= start -> 0 <= length -> start + length < SIZE_MOD ->
  total_length b < start + length ->
  buffer_get_text b start length = None.
Proof.
  intros Hs Hl Hm Hr. unfold buffer_get_text. unwrap.
  destruct (Z.ltb_spec (total_length b) (start + length)); [reflexivity | lia].
Qed.

(** [buffer_get_all] returns the logical content. *)
Lemma buffer_get_all_content (b : Buffer) :
  buf_ok b -> buffer_get_all b = Some (content b).
Proof.
  intros Hok. pose proof (total_length_range b Hok) as Ht.
  unfold buffer_get_all.
  rewrite buffer_get_text_spec by (try assumption; lia).
  rewrite zdrop_none by lia.
  rewrite ztake_all by (rewrite content_length by assumption; lia).
  reflexivity.
Qed.

(** ** buffer_insert *)

(** Pieces keep their bytes when the add buffer grows at its end. *)
Lemma piece_ok_grow (b b' : Buffer) (extra : list byte) (p : Piece) :
  original b' = original b -> add_buffer b' = add_buffer b ++ extra ->
  piece_ok b p ->
  piece_ok b' p /\ piece_bytes b' p = piece_bytes b p.
Proof.
  intros Ho Ha (Hl & Hs & Hr). unfold piece_ok, piece_bytes.
  destruct (piece_source p); simpl in *.
  - rewrite Ho. repeat split; assumption.
  - rewrite Ha. rewrite zlen_app. pose proof (zlen_nonneg extra).
    repeat split; try lia.
    rewrite zdrop_app, ztake_app.
    rewrite zlen_zdrop by lia.
    rewrite (ztake_none (piece_length p - _)) by lia.
    apply app_nil_r.
Qed.


(** Pieces depend on the buffer through its two storages only. *)
Lemma piece_ok_same (b b' : Buffer) (p : Piece) :
  original b' = original b -> add_buffer b' = add_buffer b ->
  piece_ok b p ->
  piece_ok b' p /\ piece_bytes b' p = piece_bytes b p.
Proof.
  intros Ho Ha. apply (piece_ok_grow b b' []); [assumption |].
  rewrite app_nil_r. assumption.
Qed.


Lemma piece_bytes_same (b b' : Buffer) (ps : list Piece) :
  original b' = original b -> add_buffer b' = add_buffer b ->
  flat_map (piece_bytes b') ps = flat_map (piece_bytes b) ps.
Proof.
  intros Ho Ha. apply flat_map_ext. intros p. unfold piece_bytes.
  destruct (piece_source p); simpl; rewrite ?Ho, ?Ha; reflexivity.
Qed.



(** ** buffer_delete *)


Lemma update_piece_beyond (ps : list Piece) (i : Z) (f : Piece -> Piece) :
  zlen ps <= i -> update_piece ps i f = ps.
Proof.
  intros H. unfold update_piece. rewrite znth_error_none by assumption.
  reflexivity.
Qed.










(** ** The executable invariant check *)

Lemma list_Z_eqb_eq (l1 l2 : list Z) : list_Z_eqb l1 l2 = true -> l1 = l2.
Proof.
  unfold list_Z_eqb. revert l2.
  induction l1 as [| x l1 IH]; intros [| y l2] H; simpl in H;
    try reflexivity; try discriminate.
  apply andb_true_iff in H. destruct H as (Hlen & H).
  apply andb_true_iff in H. destruct H as (Hxy & H).
  apply Z.eqb_eq in Hxy. subst y. f_equal.
  apply IH. rewrite Hlen. exact H.
Qed.

Lemma buf_okb_ok (b : Buffer) : buf_okb b = true -> buf_ok b.
Proof.
  unfold buf_okb, buf_ok. intros H.
  apply andb_true_iff in H. destruct H as (H & Hcache).
  apply andb_true_iff in H. destruct H as (H & Hfit).
  apply andb_true_iff in H. destruct H as (H & Hsum).
  apply andb_true_iff in H. destruct H as (Hpieces & Htotal).
  apply Z.eqb_eq in Htotal. apply Z.leb_le in Hsum. apply Z.ltb_lt in Hfit.
  split; [| split; [| split; [| split]]]; try assumption.
  - rewrite forallb_forall in Hpieces. apply Forall_forall. intros p Hin.
    specialize (Hpieces p Hin). unfold piece_okb in Hpieces. unfold piece_ok.
    apply andb_true_iff in Hpieces. destruct Hpieces as (Hp & Hr).
    apply andb_true_iff in Hp. destruct Hp as (Hl & Hs).
    apply Z.ltb_lt in Hl. apply Z.leb_le in Hs. apply Z.leb_le in Hr. lia.
  - intros Hd. unfold cache_okb in Hcache. rewrite Hd in Hcache.
    simpl orb in Hcache.
    apply andb_true_iff in Hcache. destruct Hcache as (Hls & Hlc).
    apply Z.eqb_eq in Hlc.
    split; [apply list_Z_eqb_eq; assumption | assumption].
Qed.

(** ** buffer_create *)

Lemma strlen_range (s : list byte) : 0 <= strlen s <= zlen s.
Proof.
  induction s as [| c s IH]; cbn [strlen].
  - unfold zlen. simpl. lia.
  - rewrite zlen_cons. destruct (Byte.eqb c NUL); lia.
Qed.

Lemma buffer_create_ok (text : option (list byte)) :
  match text with
  | Some s => strlen s < SIZE_MOD - 1
  | None => True
  end ->
  buf_ok (buffer_create text).
Proof.
  intros H. pose proof SIZE_MOD_eq as HM.
  assert (Hempty : buf_ok (mkBuffer [] [] [] 0 [] 0 true)).
  { apply buf_okb_ok. reflexivity. }
  destruct text as [s |]; simpl; [| exact Hempty].
  destruct (Z.ltb_spec 0 (strlen s)); [| exact Hempty].
  pose proof (strlen_range s).
  unfold buf_ok, original_length, add_length. simpl.
  rewrite zlen_ztake by lia. change (zlen (@nil byte)) with 0.
  split; [| split; [| split; [| split]]]; try lia.
  - constructor; [| constructor]. unfold piece_ok. simpl.
    rewrite zlen_ztake by lia. lia.
  - unfold cache_ok. simpl. intros Hd. discriminate Hd.
Qed.

Lemma buffer_create_content (text : option (list byte)) :
  content (buffer_create text)
  = match text with
    | Some s => ztake (strlen s) s
    | None => []
    end.
Proof.
  destruct text as [s |]; simpl; [| reflexivity].
  pose proof (strlen_range s).
  destruct (Z.ltb_spec 0 (strlen s)).
  - unfold content, piece_bytes. simpl. rewrite app_nil_r.
    rewrite zdrop_none by lia. apply ztake_all.
    rewrite zlen_ztake by lia. lia.
  - rewrite ztake_none by lia. reflexivity.
Qed.

(** ** The line cache *)

Lemma chain_length (ls : list Z) :
  forall lo hi, chain lo ls hi -> lo + zlen ls <= hi.
Proof.
  induction ls as [| s ls IH]; intros lo hi H; simpl in H.
  - rewrite zlen_nil. lia.
  - destruct H as (Hlo & H). apply IH in H. rewrite zlen_cons. lia.
Qed.

Lemma chain_weaken (ls : list Z) (lo lo' hi : Z) :
  lo' <= lo -> chain lo ls hi -> chain lo' ls hi.
Proof.
  destruct ls as [| s ls]; simpl; intros Hle H; [lia |].
  destruct H as (Hlo & H). split; [lia | exact H].
Qed.

Lemma chain_app (pre : list Z) :
  forall lo s post hi,
    chain lo (pre ++ s :: post) hi -> lo < s /\ chain s post hi.
Proof.
  induction pre as [| x pre IH]; intros lo s post hi H; simpl in H.
  - exact H.
  - destruct H as (Hlo & H). apply IH in H. destruct H as (Hx & H).
    split; [lia | exact H].
Qed.

Lemma chain_next (s nx : Z) (post : list Z) (hi : Z) :
  chain s (nx :: post) hi -> s < nx <= hi.
Proof.
  simpl. intros (Hs & H). apply chain_length in H.
  pose proof (zlen_nonneg post). lia.
Qed.

Lemma count_lines_loop_spec (text : list byte) :
  forall lc i T,
    0 <= i -> i + zlen text <= T -> T < SIZE_MOD ->
    0 <= lc -> lc + zlen text < SIZE_MOD ->
    count_lines_loop text lc = lc + zlen (line_starts_loop text i T).
Proof.
  induction text as [| c text IH]; intros lc i T Hi HT HM Hlc Hb;
    cbn [count_lines_loop line_starts_loop].
  - rewrite zlen_nil. lia.
  - rewrite zlen_cons in *. pose proof (zlen_nonneg text). unwrap.
    destruct (Z.leb_spec (i + 1) T); [| lia].
    rewrite andb_true_r.
    destruct (Byte.eqb c NEWLINE).
    + rewrite (IH _ (i + 1) T) by lia. rewrite zlen_cons. lia.
    + rewrite (IH _ (i + 1) T) by lia. lia.
Qed.

Lemma line_starts_loop_chain (text : list byte) :
  forall i T,
    0 <= i -> i + zlen text <= T -> T < SIZE_MOD ->
    chain i (line_starts_loop text i T) T.
Proof.
  induction text as [| c text IH]; intros i T Hi HT HM;
    cbn [line_starts_loop].
  - rewrite zlen_nil in HT. simpl. lia.
  - rewrite zlen_cons in *. pose proof (zlen_nonneg text). unwrap.
    destruct (Z.leb_spec (i + 1) T); [| lia].
    rewrite andb_true_r.
    destruct (Byte.eqb c NEWLINE).
    + simpl. split; [lia |]. apply IH; lia.
    + apply (chain_weaken _ (i + 1)); [lia |]. apply IH; lia.
Qed.

Lemma same_doc_refl (b : Buffer) : same_doc b b.
Proof. repeat split. Qed.

Lemma same_doc_trans (b1 b2 b3 : Buffer) :
  same_doc b1 b2 -> same_doc b2 b3 -> same_doc b1 b3.
Proof.
  intros (H1 & H2 & H3 & H4) (H5 & H6 & H7 & H8).
  repeat split; congruence.
Qed.

Lemma same_doc_content (b b' : Buffer) :
  same_doc b b' -> content b' = content b.
Proof.
  intros (Ho & Ha & Hp & _). unfold content. rewrite Hp.
  apply piece_bytes_same; assumption.
Qed.

Lemma clean_lines_ok (b : Buffer) :
  buf_ok b -> lines_dirty b = false -> lines_ok b.
Proof.
  intros Hok Hd. pose proof (total_length_range b Hok) as Ht.
  pose proof (content_length b Hok) as Hc.
  destruct Hok as (_ & Htot & Hsum & Hm & Hcache).
  destruct (Hcache Hd) as (Hls & Hlc).
  exists (line_starts_loop (content b) 0 (total_length b)).
  split; [exact Hls |]. split.
  - apply line_starts_loop_chain; lia.
  - rewrite Hlc. apply count_lines_loop_spec; lia.
Qed.

Lemma rebuild_line_cache_clean (b : Buffer) :
  lines_dirty b = false -> rebuild_line_cache b = b.
Proof. intros Hd. unfold rebuild_line_cache. rewrite Hd. reflexivity. Qed.

Lemma rebuild_line_cache_spec (b : Buffer) :
  buf_ok b ->
  buf_ok (rebuild_line_cache b) /\
  lines_dirty (rebuild_line_cache b) = false /\
  same_doc b (rebuild_line_cache b).
Proof.
  intros Hok. unfold rebuild_line_cache.
  destruct (lines_dirty b) eqn:Hd; simpl negb; cbv iota.
  - rewrite buffer_get_all_content by assumption.
    rewrite ztake_all by (rewrite content_length by assumption; lia).
    set (b' := mkBuffer _ _ _ _ _ _ _).
    assert (Hsame : same_doc b b') by (repeat split).
    split; [| split; [reflexivity | exact Hsame]].
    pose proof (same_doc_content b b' Hsame) as Hc.
    destruct Hok as (Hf & Htot & Hsum & Hm & _).
    split; [exact Hf |]. split; [exact Htot |]. split; [exact Hsum |].
    split; [exact Hm |].
    intros _. rewrite Hc. split; reflexivity.
  - split; [assumption |]. split; [assumption | apply same_doc_refl].
Qed.

Lemma same_doc_buf_length (b b' : Buffer) :
  same_doc b b' -> buffer_length b' = buffer_length b.
Proof. intros (_ & _ & _ & H). exact H. Qed.

(** ** Line queries *)

Lemma znth_error_some {A} (l : list A) (n : Z) :
  0 <= n < zlen l -> exists x, znth_error l n = Some x.
Proof.
  unfold znth_error, zlen. intros H.
  destruct (Z.ltb_spec n 0); [lia |].
  destruct (nth_error l (Z.to_nat n)) eqn:E; [eexists; reflexivity |].
  apply nth_error_None in E. lia.
Qed.

Lemma lines_ok_count (b : Buffer) :
  lines_ok b ->
  line_count b = zlen (line_starts b) /\
  1 <= line_count b <= total_length b + 1.
Proof.
  intros (rest & Hls & Hch & Hlc). rewrite Hls, zlen_cons.
  apply chain_length in Hch. pose proof (zlen_nonneg rest). lia.
Qed.

(** The entry of a valid line and what follows it in the index. *)
Lemma line_entry (b : Buffer) (n : Z) :
  lines_ok b -> 0 <= n < line_count b ->
  exists pre s post,
    line_starts b = pre ++ s :: post /\ zlen pre = n /\ 0 <= s /\
    chain s post (total_length b) /\
    line_count b = n + 1 + zlen post /\
    (n = 0 -> s = 0).
Proof.
  intros Hl Hn. destruct (lines_ok_count b Hl) as (Hc & _).
  destruct Hl as (rest & Hls & Hch & Hlc).
  destruct (znth_error_some (line_starts b) n) as (s & Hs); [lia |].
  destruct (znth_error_split _ _ _ Hs) as (pre & post & Hsplit & Hpre).
  exists pre, s, post.
  assert (Hch' : chain (-1) (pre ++ s :: post) (total_length b)).
  { rewrite <- Hsplit, Hls. simpl. split; [lia | exact Hch]. }
  destruct (chain_app pre _ _ _ _ Hch') as (Hlo & Hpost).
  repeat split; try assumption; try lia.
  - rewrite Hc, Hsplit, zlen_app, zlen_cons. lia.
  - intros ->. destruct pre as [| x pre].
    + rewrite Hls in Hsplit. simpl in Hsplit. congruence.
    + rewrite zlen_cons in Hpre. pose proof (zlen_nonneg pre). lia.
Qed.

Lemma line_starts_at_entry (b : Buffer) (pre : list Z) (s : Z)
    (post : list Z) :
  line_starts b = pre ++ s :: post ->
  line_starts_at b (zlen pre) = s.
Proof.
  intros H. unfold line_starts_at. rewrite H, znth_error_app_exact.
  reflexivity.
Qed.

Lemma line_starts_at_next (b : Buffer) (pre : list Z) (s nx : Z)
    (post : list Z) :
  line_starts b = pre ++ s :: nx :: post ->
  line_starts_at b (zlen pre + 1) = nx.
Proof.
  intros H. unfold line_starts_at. rewrite H.
  replace (pre ++ s :: nx :: post) with ((pre ++ [s]) ++ nx :: post)
    by (rewrite <- app_assoc; reflexivity).
  replace (zlen pre + 1) with (zlen (pre ++ [s]))
    by (rewrite zlen_app, zlen_cons, zlen_nil; lia).
  rewrite znth_error_app_exact. reflexivity.
Qed.

(** Start and length of a line of a clean buffer. *)
Lemma line_extent_clean (b : Buffer) (n : Z) :
  buf_ok b -> lines_dirty b = false -> 0 <= n < line_count b ->
  exists s len,
    buffer_line_start b n = (s, b) /\
    buffer_line_length b n = (len, b) /\
    line_starts_at b n = s /\
    0 <= s /\ 0 <= len /\ s + len <= total_length b /\
    (n = 0 -> s = 0) /\
    (n + 1 < line_count b ->
     0 < len /\ line_starts_at b (n + 1) = s + len) /\
    (line_count b <= n + 1 -> s + len = total_length b).
Proof.
  intros Hok Hd Hn. pose proof (total_length_range b Hok) as Ht.
  pose proof (clean_lines_ok b Hok Hd) as Hl.
  destruct (lines_ok_count b Hl) as (Hc & Hcr).
  destruct (line_entry b n Hl Hn)
    as (pre & s & post & Hsplit & Hpre & Hs & Hch & Hcount & Hzero).
  pose proof (line_starts_at_entry b pre s post Hsplit) as Hat.
  rewrite Hpre in Hat.
  unfold buffer_line_start, buffer_line_length.
  rewrite (rebuild_line_cache_clean b Hd).
  destruct (Z.leb_spec (line_count b) n); [lia |].
  rewrite Hat. unwrap.
  pose proof (zlen_nonneg post) as Hzp.
  destruct post as [| nx post].
  - rewrite zlen_nil in Hcount.
    destruct (Z.ltb_spec (n + 1) (line_count b)); [lia |].
    simpl in Hch. unwrap.
    exists s, (total_length b - s).
    repeat split; try assumption; try lia.
  - rewrite zlen_cons in Hcount. pose proof (zlen_nonneg post).
    destruct (Z.ltb_spec (n + 1) (line_count b)); [| lia].
    pose proof (line_starts_at_next b pre s nx post Hsplit) as Hnx.
    rewrite Hpre in Hnx. rewrite Hnx.
    pose proof (chain_next _ _ _ _ Hch) as Hr. unwrap.
    exists s, (nx - s).
    repeat split; try assumption; try lia.
Qed.

Lemma line_extent_beyond (b : Buffer) (n : Z) :
  lines_dirty b = false -> line_count b <= n ->
  buffer_line_start b n = (total_length b, b) /\
  buffer_line_length b n = (0, b).
Proof.
  intros Hd Hn. unfold buffer_line_start, buffer_line_length.
  rewrite (rebuild_line_cache_clean b Hd).
  destruct (Z.leb_spec (line_count b) n); [| lia]. split; reflexivity.
Qed.

(** Every line query first rebuilds the cache. *)
Lemma buffer_line_start_rebuild (b : Buffer) (n : Z) :
  buf_ok b ->
  buffer_line_start b n = buffer_line_start (rebuild_line_cache b) n.
Proof.
  intros Hok. destruct (rebuild_line_cache_spec b Hok) as (_ & Hd & _).
  unfold buffer_line_start at 2.
  rewrite (rebuild_line_cache_clean _ Hd). reflexivity.
Qed.

Lemma buffer_line_length_rebuild (b : Buffer) (n : Z) :
  buf_ok b ->
  buffer_line_length b n = buffer_line_length (rebuild_line_cache b) n.
Proof.
  intros Hok. destruct (rebuild_line_cache_spec b Hok) as (_ & Hd & _).
  unfold buffer_line_length at 2.
  rewrite (rebuild_line_cache_clean _ Hd). reflexivity.
Qed.

Lemma buffer_line_count_rebuild (b : Buffer) :
  buffer_line_count b
  = (line_count (rebuild_line_cache b), rebuild_line_cache b).
Proof. reflexivity. Qed.


(** ** Position and line/column conversions *)

Lemma pos_to_line_col_loop_next (s nx : Z) (rest : list Z)
    (i position line col : Z) :
  pos_to_line_col_loop (s :: nx :: rest) i position line col
  = if nx <=? position
    then pos_to_line_col_loop (nx :: rest) (sz_add i 1) position
           (sz_add i 1) (sz_sub position nx)
    else if s <=? position then (i, sz_sub position s)
    else pos_to_line_col_loop (nx :: rest) (sz_add i 1) position line col.
Proof. reflexivity. Qed.

Lemma pos_to_line_col_loop_spec (rest : list Z) :
  forall s i position line col T,
    chain s rest T -> s <= position -> 0 <= s -> position < SIZE_MOD ->
    0 <= i -> i + 1 + zlen rest < SIZE_MOD ->
    exists pre sk post,
      s :: rest = pre ++ sk :: post /\
      pos_to_line_col_loop (s :: rest) i position line col
      = (i + zlen pre, position - sk) /\
      sk <= position /\
      match post with
      | [] => True
      | nx :: _ => position < nx
      end.
Proof.
  induction rest as [| nx rest IH];
    intros s i position line col T Hch Hs Hs0 Hp Hi Hb.
  - exists [], s, []. cbn [pos_to_line_col_loop].
    destruct (Z.leb_spec s position); [| lia]. unwrap.
    rewrite zlen_nil, Z.add_0_r. repeat split; lia.
  - rewrite zlen_cons in Hb. pose proof (zlen_nonneg rest).
    destruct Hch as (Hlt & Hch).
    rewrite pos_to_line_col_loop_next.
    destruct (Z.leb_spec nx position) as [Hle | Hgt].
    + unwrap.
      destruct (IH nx (i + 1) position (i + 1) (position - nx) T)
        as (pre & sk & post & Hsplit & Hloop & Hsk & Hpost); try lia;
        [assumption |].
      exists (s :: pre), sk, post.
      rewrite Hloop, Hsplit, zlen_cons.
      repeat split; try assumption. f_equal. lia.
    + destruct (Z.leb_spec s position); [| lia]. unwrap.
      exists [], s, (nx :: rest). rewrite zlen_nil, Z.add_0_r.
      repeat split; lia.
Qed.

Lemma buffer_pos_to_line_col_spec (b : Buffer) (p : Z) :
  buf_ok b -> 0 <= p < SIZE_MOD ->
  exists pre sk post,
    line_starts (rebuild_line_cache b) = pre ++ sk :: post /\
    buffer_pos_to_line_col b p
    = ((zlen pre, p - sk), rebuild_line_cache b) /\
    0 <= sk <= p /\
    zlen pre < line_count (rebuild_line_cache b) /\
    match post with
    | [] => line_count (rebuild_line_cache b) = zlen pre + 1
    | nx :: _ => p < nx
    end.
Proof.
  intros Hok Hp.
  destruct (rebuild_line_cache_spec b Hok) as (Hok' & Hd & Hsame).
  set (b' := rebuild_line_cache b) in *.
  pose proof (total_length_range b' Hok') as Ht.
  pose proof (clean_lines_ok b' Hok' Hd) as Hl.
  destruct (lines_ok_count b' Hl) as (Hc & Hcr).
  destruct Hl as (rest & Hls & Hch & Hlc).
  unfold buffer_pos_to_line_col. fold b'.
  rewrite ztake_all by lia. rewrite Hls.
  destruct (pos_to_line_col_loop_spec rest 0 0 p 0 p (total_length b'))
    as (pre & sk & post & Hsplit & Hloop & Hsk & Hpost); try lia;
    [assumption |].
  exists pre, sk, post. rewrite Hloop, Hsplit, Z.add_0_l.
  assert (Hch' : chain (-1) (pre ++ sk :: post) (total_length b')).
  { rewrite <- Hsplit. simpl. split; [lia | exact Hch]. }
  destruct (chain_app pre _ _ _ _ Hch') as (Hlo & _).
  assert (Hlen : zlen (0 :: rest) = zlen pre + 1 + zlen post)
    by (rewrite Hsplit, zlen_app, zlen_cons; lia).
  rewrite zlen_cons in Hlen. pose proof (zlen_nonneg post).
  repeat split; try lia.
  destruct post as [| nx post]; [| exact Hpost].
  rewrite zlen_nil in Hlen. lia.
Qed.

(** ** Insertion and deletion seen through [buffer_get_all] *)





(** C6: converting a position p of [0, length] to (line, column) with
    buffer_pos_to_line_col and back with buffer_line_col_to_pos yields p. *)
Theorem pos_line_col_round_trip (b : Buffer) (p : Z) :
  buf_ok b -> 0 <= p <= buffer_length b ->
  let '((l, c), b1) := buffer_pos_to_line_col b p in
  fst (buffer_line_col_to_pos b1 l c) = p.
Proof.
  intros Hok Hp. unfold buffer_length in Hp.
  pose proof (total_length_range b Hok) as Ht.
  destruct (rebuild_line_cache_spec b Hok) as (Hok' & Hd & Hsame).
  destruct (buffer_pos_to_line_col_spec b p Hok)
    as (pre & sk & post & Hsplit & Hconv & Hsk & Hline & Hpost); [lia |].
  rewrite Hconv. set (b' := rebuild_line_cache b) in *.
  pose proof Hsame as (_ & _ & _ & Htot).
  pose proof (zlen_nonneg pre) as Hpre.
  destruct (line_extent_clean b' (zlen pre) Hok' Hd)
    as (s & len & Hstart & Hlen & Hat & Hs & Hl & Hsum & _ & Hnext & Hlast);
    [lia |].
  rewrite (line_starts_at_entry b' pre sk post Hsplit) in Hat. subst s.
  unfold buffer_line_col_to_pos.
  rewrite (rebuild_line_cache_clean b' Hd).
  destruct (Z.leb_spec (line_count b') (zlen pre)); [lia |].
  rewrite Hlen. cbn [fst].
  rewrite (line_starts_at_entry b' pre sk post Hsplit).
  assert (Hcol : p - sk <= len).
  { destruct post as [| nx post].
    - specialize (Hlast ltac:(lia)). lia.
    - destruct Hnext as (_ & Hnx).
      + pose proof (lines_ok_count b' (clean_lines_ok b' Hok' Hd)) as (Hc & _).
        rewrite Hc, Hsplit, zlen_app, !zlen_cons.
        pose proof (zlen_nonneg post). lia.
      + rewrite (line_starts_at_next b' pre sk nx post Hsplit) in Hnx. lia. }
  destruct (Z.ltb_spec len (p - sk)); [lia |].
  unwrap. lia.
Qed.

Lemma pos_line_col_round_trip_witness :
  let '((l, c), b1) := buffer_pos_to_line_col three_lines 4 in
  fst (buffer_line_col_to_pos b1 l c) = 4.
Proof.
  apply (pos_line_col_round_trip three_lines 4).
  - apply buf_okb_ok. vm_compute. reflexivity.
  - vm_compute. split; discriminate.
Defined.

(** ** buffer_line_col_to_pos *)

Lemma buffer_line_col_to_pos_spec (b : Buffer) (l c : Z) :
  buf_ok b -> 0 <= l < SIZE_MOD -> 0 <= c < SIZE_MOD ->
  let b' := rebuild_line_cache b in
  let l' := Z.min l (line_count b' - 1) in
  exists s len,
    buffer_line_start b' l' = (s, b') /\
    buffer_line_length b' l' = (len, b') /\
    buffer_line_col_to_pos b l c = (s + Z.min c len, b') /\
    0 <= l' < line_count b' /\
    0 <= s /\ 0 <= len /\ s + len <= total_length b /\
    (l' + 1 < line_count b' ->
     0 < len /\ buffer_line_start b' (l' + 1) = (s + len, b') /\
     line_starts_at b' (l' + 1) = s + len).
Proof.
  intros Hok Hl Hc b' l'.
  pose proof (total_length_range b Hok) as Ht.
  destruct (rebuild_line_cache_spec b Hok) as (Hok' & Hd & Hsame).
  fold b' in Hok', Hd, Hsame.
  pose proof Hsame as (_ & _ & _ & Htot).
  pose proof (lines_ok_count b' (clean_lines_ok b' Hok' Hd)) as (Hcnt & Hcr).
  destruct (line_extent_clean b' l' Hok' Hd)
    as (s & len & Hstart & Hlen & Hat & Hs & Hln & Hsum & _ & Hnext & _);
    [subst l'; lia |].
  exists s, len.
  split; [exact Hstart |]. split; [exact Hlen |].
  split; [| split; [subst l'; lia |]].
  - unfold buffer_line_col_to_pos. fold b'.
    replace (if line_count b' <=? l then sz_sub (line_count b') 1 else l)
      with l'.
    2:{ subst l'. destruct (Z.leb_spec (line_count b') l); unwrap; lia. }
    rewrite Hat, Hlen.
    replace (if len <? c then len else c) with (Z.min c len)
      by (destruct (Z.ltb_spec len c); lia).
    unwrap. reflexivity.
  - split; [assumption |]. split; [assumption |]. split; [lia |].
    intros Hnf. destruct (Hnext Hnf) as (Hpos & Hnx).
    split; [assumption |].
    destruct (line_extent_clean b' (l' + 1) Hok' Hd)
      as (s2 & len2 & Hstart2 & _ & Hat2 & _); [subst l'; lia |].
    rewrite Hstart2. split; [f_equal; congruence | exact Hnx].
Qed.

(** ** buffer_char_at *)

Lemma znth_error_app_l {A} (l1 l2 : list A) (i : Z) :
  i < zlen l1 -> znth_error (l1 ++ l2) i = znth_error l1 i.
Proof.
  unfold znth_error, zlen. intros H.
  destruct (Z.ltb_spec i 0); [reflexivity |].
  apply nth_error_app1. lia.
Qed.

Lemma znth_error_app_r {A} (l1 l2 : list A) (i : Z) :
  0 <= i -> znth_error (l1 ++ l2) (zlen l1 + i) = znth_error l2 i.
Proof.
  unfold znth_error, zlen. intros H.
  destruct (Z.ltb_spec (Z.of_nat (length l1) + i) 0); [lia |].
  destruct (Z.ltb_spec i 0); [lia |].
  rewrite nth_error_app2 by lia. f_equal. lia.
Qed.

Lemma znth_error_ztake {A} (l : list A) (n i : Z) :
  i < n -> znth_error (ztake n l) i = znth_error l i.
Proof.
  unfold znth_error, ztake. intros H.
  destruct (Z.ltb_spec i 0); [reflexivity |].
  rewrite nth_error_firstn.
  destruct (Nat.ltb_spec (Z.to_nat i) (Z.to_nat n)); [reflexivity | lia].
Qed.

Lemma znth_error_zdrop {A} (l : list A) (s i : Z) :
  0 <= s -> 0 <= i -> znth_error (zdrop s l) i = znth_error l (s + i).
Proof.
  unfold znth_error, zdrop. intros Hs Hi.
  destruct (Z.ltb_spec i 0); [lia |].
  destruct (Z.ltb_spec (s + i) 0); [lia |].
  rewrite nth_error_skipn. f_equal. lia.
Qed.

Lemma znth_error_cons_pos {A} (x : A) (l : list A) (i : Z) :
  0 < i -> znth_error (x :: l) i = znth_error l (i - 1).
Proof.
  intros H. change (x :: l) with ([x] ++ l).
  replace i with (zlen [x] + (i - 1)) at 1
    by (rewrite zlen_cons, zlen_nil; lia).
  apply znth_error_app_r. lia.
Qed.

Lemma znth_error_in {A} (l : list A) (i : Z) (x : A) :
  znth_error l i = Some x -> In x l.
Proof.
  unfold znth_error. destruct (i <? 0); [discriminate |].
  apply nth_error_In.
Qed.

Lemma buffer_char_at_content (b : Buffer) (pos : Z) :
  buf_ok b -> 0 <= pos < total_length b ->
  buffer_char_at b pos = byte_at (content b) pos.
Proof.
  intros Hok Hpos. pose proof (total_length_range b Hok) as Ht.
  pose proof Hok as (Hf & Htot & Hsum & Hm & _).
  unfold buffer_char_at.
  destruct (Z.leb_spec (total_length b) pos); [lia |].
  destruct (locate_piece b (pieces b) pos Hf) as (l1 & p & l2 & Hps & Hr);
    [lia |].
  rewrite (find_piece_at_inside b l1 p l2) by assumption.
  unfold content. rewrite Hps, znth_error_app_exact.
  rewrite Hps in Hf. apply Forall_app in Hf. destruct Hf as (Hf1 & Hf2).
  pose proof (Forall_inv Hf2) as Hp.
  pose proof (pieces_content_length b l1 Hf1) as Hc1.
  pose proof (piece_bytes_length b p Hp) as Hcp.
  pose proof Hp as (Hpl & Hpst & Hpr).
  pose proof (storage_bound b (piece_source p)).
  unwrap. unfold byte_at.
  rewrite content_app, content_cons.
  replace pos with (zlen (flat_map (piece_bytes b) l1)
                    + (pos - sum_lengths l1)) at 2 by lia.
  rewrite znth_error_app_r by lia.
  rewrite znth_error_app_l by lia.
  unfold piece_bytes.
  rewrite znth_error_ztake by lia.
  rewrite znth_error_zdrop by lia. reflexivity.
Qed.

(** ** Line starts follow newlines *)

Lemma chain_in (ls : list Z) :
  forall lo hi s, chain lo ls hi -> In s ls -> lo < s <= hi.
Proof.
  induction ls as [| x ls IH]; intros lo hi s Hch Hin; simpl in *;
    [contradiction |].
  destruct Hch as (Hlo & Hch). destruct Hin as [-> | Hin].
  - apply chain_length in Hch. pose proof (zlen_nonneg ls). lia.
  - specialize (IH _ _ _ Hch Hin). lia.
Qed.

Lemma line_starts_loop_newline (text : list byte) :
  forall i T s,
    0 <= i -> i + zlen text <= T -> T < SIZE_MOD ->
    In s (line_starts_loop text i T) ->
    byte_at text (s - 1 - i) = NEWLINE.
Proof.
  induction text as [| c text IH]; intros i T s Hi HT HM Hin;
    cbn [line_starts_loop] in Hin; [contradiction |].
  rewrite zlen_cons in HT. pose proof (zlen_nonneg text).
  unwrap_in Hin.
  assert (Htail : In s (line_starts_loop text (i + 1) T) ->
                  byte_at (c :: text) (s - 1 - i) = NEWLINE).
  { intros Hin'.
    pose proof (line_starts_loop_chain text (i + 1) T) as Hch.
    specialize (Hch ltac:(lia) ltac:(lia) HM).
    pose proof (chain_in _ _ _ _ Hch Hin').
    unfold byte_at. rewrite znth_error_cons_pos by lia.
    replace (s - 1 - i - 1) with (s - 1 - (i + 1)) by lia.
    apply (IH (i + 1) T s); try assumption; lia. }
  destruct (Byte.eqb c NEWLINE) eqn:Ec; simpl andb in Hin.
  - destruct (Z.leb_spec (i + 1) T); [| lia].
    destruct Hin as [<- | Hin]; [| exact (Htail Hin)].
    replace (i + 1 - 1 - i) with 0 by lia.
    apply Byte.byte_dec_bl in Ec. exact Ec.
  - exact (Htail Hin).
Qed.

(** The byte before the start of any line after the first is a newline. *)
Lemma newline_before_line (b : Buffer) (n : Z) :
  buf_ok b -> lines_dirty b = false -> 0 < n < line_count b ->
  buffer_char_at b (line_starts_at b n - 1) = NEWLINE.
Proof.
  intros Hok Hd Hn. pose proof (total_length_range b Hok) as Ht.
  pose proof (content_length b Hok) as Hc.
  pose proof (clean_lines_ok b Hok Hd) as Hl.
  destruct (lines_ok_count b Hl) as (Hcnt & _).
  pose proof Hok as (_ & _ & _ & _ & Hcache).
  destruct (Hcache Hd) as (Hls & _).
  destruct (znth_error_some (line_starts b) n) as (s & Hs); [lia |].
  unfold line_starts_at. rewrite Hs.
  rewrite Hls, znth_error_cons_pos in Hs by lia.
  apply znth_error_in in Hs.
  pose proof (line_starts_loop_chain (content b) 0 (total_length b)) as Hch.
  specialize (Hch ltac:(lia) ltac:(lia) ltac:(lia)).
  pose proof (chain_in _ _ _ _ Hch Hs).
  rewrite buffer_char_at_content by (try assumption; lia).
  replace (s - 1) with (s - 1 - 0) by lia.
  apply (line_starts_loop_newline _ 0 (total_length b)); try assumption; lia.
Qed.

Lemma same_doc_char_at (b b' : Buffer) (pos : Z) :
  same_doc b b' -> buffer_char_at b' pos = buffer_char_at b pos.
Proof.
  intros (Ho & Ha & Hp & Ht). unfold buffer_char_at, find_piece_at, piece_count.
  rewrite Hp, Ht.
  destruct (total_length b <=? pos); [reflexivity |].
  destruct (find_piece_loop (pieces b) pos 0 0) as [[i off] |].
  - destruct (znth_error (pieces b) i) as [p |]; [| reflexivity].
    destruct (piece_source p); simpl; rewrite ?Ho, ?Ha; reflexivity.
  - destruct (pos =? total_length b); [| reflexivity].
    destruct (znth_error (pieces b) (zlen (pieces b))) as [p |];
      [| reflexivity].
    destruct (piece_source p); simpl; rewrite ?Ho, ?Ha; reflexivity.
Qed.

(** C5, as the code has it: buffer_line_col_to_pos(l, c) clamps l to the
    last line and clamps c to that line's length as buffer_line_length
    gives it, the trailing newline included, and returns the clamped
    line's start offset plus the clamped column.  For a non-final line
    the last byte counted by that length is the newline, the returned
    position is at most the next line's start offset, and it is the next
    line's start offset when c is at least the line's length. *)
Theorem line_col_to_pos_clamps (b : Buffer) (l c : Z) :
  buf_ok b -> is_size l -> is_size c ->
  let count := fst (buffer_line_count b) in
  let l' := Z.min l (count - 1) in
  let start := fst (buffer_line_start b l') in
  let len := fst (buffer_line_length b l') in
  let pos := fst (buffer_line_col_to_pos b l c) in
  pos = start + Z.min c len /\
  (l' + 1 < count ->
   buffer_char_at b (start + len - 1) = NEWLINE /\
   pos <= fst (buffer_line_start b (l' + 1)) /\
   (len <= c -> pos = fst (buffer_line_start b (l' + 1)))).
Proof.
  intros Hok Hl Hc. unfold is_size in *.
  destruct (rebuild_line_cache_spec b Hok) as (Hok' & Hd & Hsame).
  destruct (buffer_line_col_to_pos_spec b l c Hok Hl Hc)
    as (s & len & Hstart & Hlen & Hpos & Hl' & Hs & Hln & Hsum & Hnext).
  cbv zeta. rewrite buffer_line_count_rebuild. cbn [fst].
  rewrite !(buffer_line_start_rebuild b), (buffer_line_length_rebuild b)
    by assumption.
  rewrite Hstart, Hlen, Hpos. cbn [fst].
  split; [reflexivity |].
  intros Hnf. destruct (Hnext Hnf) as (Hlpos & Hnx & Hat).
  rewrite Hnx. cbn [fst].
  split; [| split; [lia | intros Hge; lia]].
  rewrite <- (same_doc_char_at b _ _ Hsame), <- Hat.
  apply newline_before_line; try assumption. lia.
Qed.

Lemma line_col_to_pos_clamps_witness :
  fst (buffer_line_col_to_pos three_lines 1 9) = 3 + Z.min 9 3 /\
  buffer_char_at three_lines 5 = NEWLINE /\
  fst (buffer_line_col_to_pos three_lines 1 9) = 6.
Proof.
  pose proof (line_col_to_pos_clamps three_lines 1 9) as H.
  assert (Hok : buf_ok three_lines)
    by (apply buf_okb_ok; vm_compute; reflexivity).
  assert (Hl : is_size 1) by (unfold is_size; rewrite SIZE_MOD_eq; lia).
  assert (Hc : is_size 9) by (unfold is_size; rewrite SIZE_MOD_eq; lia).
  destruct (H Hok Hl Hc) as (Hpos & Hnext).
  split; [exact Hpos |].
  destruct Hnext as (Hnl & _ & Heq); [vm_compute; reflexivity |].
  split; [exact Hnl |].
  apply Heq. vm_compute. discriminate.
Defined.

(** C5 as the specification words it fails: on the document
    ab / cd / ef the call for line 0 and column 5 returns offset 3, the
    start of line 1, where the line's length without its newline would
    give offset 2 and a position before line 1. *)
Lemma line_col_to_pos_counterexample :
  fst (buffer_line_col_to_pos three_lines 0 5) = 3 /\
  fst (buffer_line_start three_lines 1) = 3 /\
  strip_newline three_lines 0 (fst (buffer_line_length three_lines 0)) = 2 /\
  ~ (fst (buffer_line_col_to_pos three_lines 0 5)
     < fst (buffer_line_start three_lines 1)).
Proof.
  vm_compute. repeat split; try reflexivity. discriminate.
Qed.

(** ** Search *)

Lemma strlen_no_nul_cons (c : byte) (s : list byte) :
  strlen (c :: s) = zlen (c :: s) -> c <> NUL /\ strlen s = zlen s.
Proof.
  cbn [strlen]. rewrite zlen_cons. pose proof (strlen_range s).
  pose proof (zlen_nonneg s).
  destruct (Byte.eqb c NUL) eqn:E; [lia |].
  intros Heq. split; [apply Byte.eqb_false; exact E | lia].
Qed.

Lemma byte_eqb_refl (c : byte) : Byte.eqb c c = true.
Proof. apply Byte.byte_dec_lb. reflexivity. Qed.

Lemma byte_eqb_neq (c d : byte) : c <> d -> Byte.eqb c d = false.
Proof.
  intros H. destruct (Byte.eqb c d) eqn:E; [| reflexivity].
  apply Byte.byte_dec_bl in E. contradiction.
Qed.

(** [strncmp] against a needle without NUL compares bytes literally. *)
Lemma strncmp_eq_spec (needle : list byte) :
  forall s,
    strlen needle = zlen needle ->
    strncmp_eq s needle (length needle) = true
    <-> firstn (length needle) s = needle.
Proof.
  induction needle as [| c needle IH]; intros s Hn; simpl.
  - split; reflexivity.
  - apply strlen_no_nul_cons in Hn. destruct Hn as (Hc & Hn).
    destruct s as [| d s]; simpl.
    + rewrite byte_eqb_neq by congruence. split; discriminate.
    + destruct (Byte.eqb d c) eqn:E.
      * apply Byte.byte_dec_bl in E. subst d.
        rewrite byte_eqb_neq by assumption.
        rewrite IH by assumption. split; [intros ->; reflexivity |].
        intros H. injection H as Hr. exact Hr.
      * split; [discriminate |]. intros H. injection H as Hd _.
        subst d. rewrite byte_eqb_refl in E. discriminate.
Qed.

Lemma strncmp_eq_occurs (doc needle : list byte) (i : Z) :
  strlen needle = zlen needle -> 0 <= i ->
  strncmp_eq (zdrop i doc) needle (Z.to_nat (zlen needle)) = true
  <-> occurs_at doc needle i.
Proof.
  intros Hn Hi. unfold occurs_at, ztake, zlen. rewrite Nat2Z.id.
  rewrite strncmp_eq_spec by assumption. tauto.
Qed.

Lemma occurs_at_range (doc pat : list byte) (i : Z) :
  occurs_at doc pat i -> pat <> [] -> 0 <= i /\ i + zlen pat <= zlen doc.
Proof.
  intros (Hi & H) Hne. split; [exact Hi |].
  assert (Hlen : zlen (ztake (zlen pat) (zdrop i doc)) = zlen pat)
    by (rewrite H; reflexivity).
  pose proof (zlen_nonneg pat). pose proof (zlen_nonneg doc).
  assert (0 < zlen pat).
  { destruct pat; [contradiction |]. rewrite zlen_cons.
    pose proof (zlen_nonneg pat). lia. }
  destruct (Z.le_gt_cases i (zlen doc)) as [Hle | Hgt].
  - pose proof (zlen_ztake_le (zlen pat) (zdrop i doc)) as Hle'.
    rewrite zlen_zdrop in Hle' by lia. lia.
  - rewrite zdrop_all in Hlen by lia.
    unfold ztake in Hlen. rewrite firstn_nil in Hlen.
    rewrite zlen_nil in Hlen. lia.
Qed.

Lemma to_long_small (i : Z) : 0 <= i < SIZE_MOD / 2 -> to_long i = i.
Proof.
  intros H. unfold to_long. destruct (Z.ltb_spec i (SIZE_MOD / 2)); lia.
Qed.

Lemma zdrop_succ {A} (l : list A) (i : Z) (x : A) (rest : list A) :
  0 <= i -> zdrop i l = x :: rest -> zdrop (i + 1) l = rest.
Proof.
  intros Hi H. rewrite <- (zdrop_zdrop 1 i) by lia. rewrite H. reflexivity.
Qed.

Lemma find_next_loop_spec (doc needle : list byte) (suffix : list byte) :
  forall i,
    pattern_ok needle -> zlen doc < SIZE_MOD / 2 ->
    0 <= i <= zlen doc + 1 -> suffix = zdrop i doc ->
    let r := find_next_loop suffix needle i (zlen needle) (zlen doc) in
    (r = -1 /\ forall j, i <= j -> ~ occurs_at doc needle j)
    \/ first_occurrence doc needle i r.
Proof.
  induction suffix as [| x rest IH]; intros i Hpat Hdoc Hi Hsuf;
    pose proof Hpat as (Hne & Hnul & H255);
    pose proof SIZE_MOD_eq as HM; pose proof (zlen_nonneg doc);
    assert (Hpos : 0 < zlen needle)
      by (destruct needle; [contradiction |]; rewrite zlen_cons;
          pose proof (zlen_nonneg needle); lia);
    assert (Hnone : zlen doc < i + zlen needle ->
                    forall j, i <= j -> ~ occurs_at doc needle j)
      by (intros Hlt j Hj Hocc;
          apply occurs_at_range in Hocc; [lia | assumption]);
    cbn [find_next_loop]; cbv zeta;
    assert (Hsmall : SIZE_MOD / 2 = 2147483648)
      by (rewrite HM; reflexivity).
  - (* the suffix is empty: i is at or past the end *)
    destruct (Z.lt_ge_cases i (zlen doc)) as [Hlt | Hge].
    + exfalso. assert (Hz : zlen (zdrop i doc) = zlen doc - i)
        by (apply zlen_zdrop; lia).
      rewrite <- Hsuf, zlen_nil in Hz. lia.
    + unwrap. destruct (Z.leb_spec (i + zlen needle) (zlen doc)); [lia |].
      left. split; [reflexivity | apply Hnone; lia].
  - unwrap.
    destruct (Z.leb_spec (i + zlen needle) (zlen doc)) as [Hfit | Hover].
    + destruct (strncmp_eq (x :: rest) needle (Z.to_nat (zlen needle)))
        eqn:Ecmp.
      * right. rewrite Hsuf in Ecmp.
        apply strncmp_eq_occurs in Ecmp; try assumption; try lia.
        rewrite to_long_small by lia.
        split; [lia |]. split; [exact Ecmp | intros j Hj; exfalso; lia].
      * assert (Hnot : ~ occurs_at doc needle i).
        { intros Hocc. apply strncmp_eq_occurs in Hocc; try assumption; try lia.
          rewrite <- Hsuf, Ecmp in Hocc. discriminate. }
        assert (Hrest : rest = zdrop (i + 1) doc)
          by (symmetry; apply (zdrop_succ doc i x); [lia | congruence]).
        assert (Hin : i < zlen doc).
        { destruct (Z.lt_ge_cases i (zlen doc)) as [Hlt | Hge];
            [exact Hlt |].
          rewrite zdrop_all in Hsuf by lia. discriminate. }
        destruct (IH (i + 1) Hpat Hdoc ltac:(lia) Hrest)
          as [(Hr & Hno) | (Hge & Hocc & Hmin)].
        -- left. split; [exact Hr |]. intros j Hj.
           destruct (Z.eq_dec j i) as [-> | Hji]; [exact Hnot |].
           apply Hno. lia.
        -- right. split; [lia |]. split; [exact Hocc |].
           intros j Hj. destruct (Z.eq_dec j i) as [-> | Hji];
             [exact Hnot | apply Hmin; lia].
    + left. split; [reflexivity | apply Hnone; lia].
Qed.

Lemma buffer_find_next_spec (b : Buffer) (start : Z) (pat : list byte) :
  buf_ok b -> pattern_ok pat -> total_length b < SIZE_MOD / 2 ->
  0 <= start <= total_length b + 1 ->
  let r := buffer_find_next b start (Some pat) in
  (r = -1 /\ forall j, start <= j -> ~ occurs_at (content b) pat j)
  \/ first_occurrence (content b) pat start r.
Proof.
  intros Hok Hpat Ht Hs. pose proof Hpat as (Hne & Hnul & H255).
  unfold buffer_find_next. rewrite Hnul.
  assert (Hpos : 0 < zlen pat).
  { destruct pat; [contradiction |]. rewrite zlen_cons.
    pose proof (zlen_nonneg pat). lia. }
  destruct (Z.eqb_spec (zlen pat) 0); [lia |].
  rewrite buffer_get_all_content by assumption.
  rewrite <- (content_length b Hok).
  apply find_next_loop_spec; try assumption; try reflexivity;
    rewrite content_length by assumption; assumption.
Qed.

(** ** Cursor bookkeeping *)

Lemma update_cursor_line_col_position (st : Editor) :
  position (g_cursor (update_cursor_line_col st)) = position (g_cursor st).
Proof.
  unfold update_cursor_line_col. destruct (g_buffer st); [| reflexivity].
  destruct (buffer_pos_to_line_col b (position (g_cursor st)))
    as [[l c] b']. reflexivity.
Qed.

Lemma update_cursor_line_col_buffer (st : Editor) :
  g_buffer (update_cursor_line_col st)
  = option_map rebuild_line_cache (g_buffer st).
Proof.
  unfold update_cursor_line_col.
  destruct (g_buffer st) eqn:E; [| rewrite E; reflexivity].
  unfold buffer_pos_to_line_col.
  destruct (pos_to_line_col_loop _ _ _ _ _) as [l c]. reflexivity.
Qed.

Lemma update_cursor_line_col_frame (st : Editor) :
  let st' := update_cursor_line_col st in
  g_mode st' = g_mode st /\
  g_selection_start st' = g_selection_start st /\
  g_has_selection st' = g_has_selection st /\
  g_search_pattern st' = g_search_pattern st /\
  preferred_column (g_cursor st') = preferred_column (g_cursor st).
Proof.
  unfold update_cursor_line_col. destruct (g_buffer st);
    [| repeat split].
  destruct (buffer_pos_to_line_col b (position (g_cursor st)))
    as [[l c] b']. repeat split.
Qed.

Lemma move_to_match_spec (st : Editor) (b : Buffer) (i : Z) :
  g_buffer st = Some b ->
  exists st',
    move_to_match st i = (1, st') /\
    position (g_cursor st') = i /\
    g_buffer st' = Some (rebuild_line_cache b).
Proof.
  intros Hb. eexists. split; [reflexivity |]. split.
  - change (position (g_cursor (update_cursor_line_col (with_position st i)))
            = i).
    rewrite update_cursor_line_col_position. reflexivity.
  - change (g_buffer (update_cursor_line_col (with_position st i))
            = Some (rebuild_line_cache b)).
    rewrite update_cursor_line_col_buffer.
    change (g_buffer (with_position st i)) with (g_buffer st).
    rewrite Hb. reflexivity.
Qed.

Lemma first_occurrence_unique (doc pat : list byte) (from i j : Z) :
  first_occurrence doc pat from i -> first_occurrence doc pat from j ->
  i = j.
Proof.
  intros (Hi & Hoi & Hmi) (Hj & Hoj & Hmj).
  destruct (Z.lt_trichotomy i j) as [Hlt | [Heq | Hgt]]; [| exact Heq |].
  - exfalso. apply (Hmj i); [lia | exact Hoi].
  - exfalso. apply (Hmi j); [lia | exact Hoj].
Qed.

Lemma pattern_ok_head (pat : list byte) :
  pattern_ok pat -> Byte.eqb (head_or_nul pat) NUL = false.
Proof.
  intros (Hne & Hnul & _). destruct pat as [| c pat]; [contradiction |].
  apply strlen_no_nul_cons in Hnul. destruct Hnul as (Hc & _).
  simpl. apply byte_eqb_neq. exact Hc.
Qed.

Lemma pattern_ok_length (pat : list byte) : pattern_ok pat -> 0 < zlen pat.
Proof.
  intros (Hne & _). destruct pat; [contradiction |]. rewrite zlen_cons.
  pose proof (zlen_nonneg pat). lia.
Qed.

(** A hit of [search_next] at an occurrence [i] of the pattern. *)
Lemma search_hit (st : Editor) (b : Buffer) (i : Z) :
  g_buffer st = Some b -> buf_ok b -> pattern_ok (g_search_pattern st) ->
  occurs_at (content b) (g_search_pattern st) i ->
  exists st',
    move_to_match st i = (1, st') /\
    cursor_on_match st' (content b) (g_search_pattern st) i.
Proof.
  intros Hb Hok Hpat Hocc.
  destruct (move_to_match_spec st b i Hb) as (st' & Hmv & Hpos & Hbuf).
  exists st'. split; [exact Hmv |]. split; [exact Hpos |].
  exists (rebuild_line_cache b). split; [exact Hbuf |].
  destruct (rebuild_line_cache_spec b Hok) as (Hok' & _ & Hsame).
  pose proof (same_doc_content _ _ Hsame) as Hc.
  pose proof Hsame as (_ & _ & _ & Htot).
  pose proof (occurs_at_range _ _ _ Hocc (proj1 Hpat)) as (Hi & Hr).
  rewrite content_length in Hr by assumption.
  pose proof (pattern_ok_length _ Hpat).
  split.
  - rewrite buffer_get_all_content by assumption. rewrite Hc. reflexivity.
  - rewrite buffer_get_text_spec by (try assumption; lia).
    rewrite Hc. f_equal. apply Hocc.
Qed.

(** C7: with a non-empty stored pattern, search_next moves the cursor to
    the smallest offset >= position + 1 at which the pattern occurs, or,
    when there is none, to the smallest occurrence from offset 0, and
    returns success; after a successful search the bytes at the cursor
    are the pattern; when the pattern occurs nowhere search_next returns
    failure and leaves the state as it was. *)
Theorem search_next_finds (st : Editor) (b : Buffer) :
  g_buffer st = Some b -> buf_ok b ->
  pattern_ok (g_search_pattern st) ->
  0 <= position (g_cursor st) <= buffer_length b ->
  buffer_length b < SIZE_MOD / 2 ->
  let doc := content b in
  let pat := g_search_pattern st in
  let p := position (g_cursor st) in
  (forall i, first_occurrence doc pat (p + 1) i ->
     exists st', search_next st = (1, st') /\ cursor_on_match st' doc pat i)
  /\
  ((forall j, p + 1 <= j -> ~ occurs_at doc pat j) ->
   forall i, first_occurrence doc pat 0 i ->
     exists st', search_next st = (1, st') /\ cursor_on_match st' doc pat i)
  /\
  ((forall j, ~ occurs_at doc pat j) -> search_next st = (0, st))
  /\
  (forall st', search_next st = (1, st') ->
     cursor_on_match st' doc pat (position (g_cursor st'))).
Proof.
  intros Hb Hok Hpat Hpos Hlen doc pat p. unfold buffer_length in *.
  pose proof SIZE_MOD_eq as HM.
  assert (Hhalf : SIZE_MOD / 2 = 2147483648) by (rewrite HM; reflexivity).
  pose proof (buffer_find_next_spec b (p + 1) pat Hok Hpat Hlen) as Hnext.
  pose proof (buffer_find_next_spec b 0 pat Hok Hpat Hlen) as Hwrap.
  specialize (Hnext ltac:(subst p; lia)).
  specialize (Hwrap ltac:(lia)).
  cbv zeta in Hnext, Hwrap. fold doc in Hnext, Hwrap.
  assert (Hunfold :
    search_next st
    = if 0 <=? buffer_find_next b (p + 1) (Some pat)
      then move_to_match st (buffer_find_next b (p + 1) (Some pat))
      else if 0 <=? buffer_find_next b 0 (Some pat)
           then move_to_match st (buffer_find_next b 0 (Some pat))
           else (0, st)).
  { unfold search_next. rewrite Hb, (pattern_ok_head _ Hpat).
    fold pat p. unwrap. reflexivity. }
  assert (Hhit : forall from r,
             first_occurrence doc pat from r -> 0 <= from ->
             (0 <=? r) = true /\
             exists st', move_to_match st r = (1, st')
                         /\ cursor_on_match st' doc pat r).
  { intros from r (Hfr & Hocc & _) Hfrom. split; [apply Z.leb_le; lia |].
    apply search_hit; assumption. }
  split; [| split; [| split]].
  - intros i Hi. destruct Hnext as [(_ & Hno) | Hfirst].
    + exfalso. destruct Hi as (Hge & Hocc & _). exact (Hno i Hge Hocc).
    + rewrite (first_occurrence_unique _ _ _ _ _ Hi Hfirst).
      destruct (Hhit _ _ Hfirst ltac:(subst p; lia)) as (Hle & Hres).
      rewrite Hunfold, Hle. exact Hres.
  - intros Hnone i Hi. destruct Hnext as [(Hr & _) | (Hge & Hocc & _)].
    + destruct Hwrap as [(_ & Hno) | Hfirst].
      * exfalso. destruct Hi as (Hge & Hocc & _). exact (Hno i Hge Hocc).
      * rewrite (first_occurrence_unique _ _ _ _ _ Hi Hfirst).
        destruct (Hhit _ _ Hfirst ltac:(lia)) as (Hle & Hres).
        rewrite Hunfold, Hr, Hle. exact Hres.
    + exfalso. exact (Hnone _ Hge Hocc).
  - intros Hnone.
    destruct Hnext as [(Hr & _) | (Hge & Hocc & _)];
      [| exfalso; exact (Hnone _ Hocc)].
    destruct Hwrap as [(Hr0 & _) | (Hge & Hocc & _)];
      [| exfalso; exact (Hnone _ Hocc)].
    rewrite Hunfold, Hr, Hr0. reflexivity.
  - intros st' Hres. rewrite Hunfold in Hres.
    destruct Hnext as [(Hr & _) | Hfirst].
    + rewrite Hr in Hres. cbn [Z.leb Z.compare] in Hres.
      destruct Hwrap as [(Hr0 & _) | Hfirst].
      * rewrite Hr0 in Hres. discriminate Hres.
      * destruct (Hhit _ _ Hfirst ltac:(lia)) as (Hle & st'' & Hmv & Hon).
        rewrite Hle, Hmv in Hres. injection Hres as <-.
        rewrite (proj1 Hon). exact Hon.
    + destruct (Hhit _ _ Hfirst ltac:(subst p; lia))
        as (Hle & st'' & Hmv & Hon).
      rewrite Hle, Hmv in Hres. injection Hres as <-.
      rewrite (proj1 Hon). exact Hon.
Qed.

Lemma search_next_finds_witness :
  exists st',
    search_next needle_editor = (1, st') /\
    cursor_on_match st' (bytes "find the needle in the haystack")
      (bytes "the") 5.
Proof.
  pose (b := buffer_create (Some (bytes "find the needle in the haystack"))).
  assert (Hok : buf_ok b) by (apply buf_okb_ok; vm_compute; reflexivity).
  assert (Hpat : pattern_ok (g_search_pattern needle_editor)).
  { split; [discriminate |]. split; [vm_compute; reflexivity |].
    vm_compute. discriminate. }
  assert (Hpos : 0 <= position (g_cursor needle_editor) <= buffer_length b)
    by (vm_compute; split; discriminate).
  assert (Hlen : buffer_length b < SIZE_MOD / 2) by (vm_compute; reflexivity).
  destruct (search_next_finds needle_editor b eq_refl Hok Hpat Hpos Hlen)
    as (Hfirst & _).
  apply Hfirst.
  split; [vm_compute; discriminate |]. split.
  - split; [lia | vm_compute; reflexivity].
  - intros j Hj (_ & Hocc).
    change (position (g_cursor needle_editor)) with 0 in Hj.
    assert (Hcases : j = 1 \/ j = 2 \/ j = 3 \/ j = 4) by lia.
    destruct Hcases as [-> | [-> | [-> | ->]]];
      vm_compute in Hocc; discriminate Hocc.
Defined.

(** ** delete_line *)





(** ** Failing edits *)







(** ** Sequences of inserts and deletes *)




(** C3 fails on the code: buffer_delete checks its range with
    position + length, which wraps around in size_t.  On the document
    abcdef held in two pieces, buffer_delete(4, 4294967293) passes the
    check (4 + 4294967293 is 1 modulo 2^32), returns true and leaves four
    pieces of lengths 2, 1, 2, 1 with a cached total_length of 9, while
    get_all holds 6 bytes. *)
Theorem delete_overflow_breaks_total :
  let b := run_ops (buffer_create (Some (bytes "abc")))
             [OpInsert 3 (Some (bytes "def")) 3] in
  let r := buffer_delete b 4 4294967293 in
  is_size 4294967293 /\
  buf_ok b /\
  buffer_get_all b = Some (bytes "abcdef") /\
  fst r = true /\
  total_length (snd r) = 9 /\
  sum_lengths (pieces (snd r)) = 6 /\
  map piece_length (pieces (snd r)) = [2; 1; 2; 1] /\
  buffer_get_all (snd r) = Some (bytes "bcdbcd").
Proof.
  cbv zeta. split; [unfold is_size; rewrite SIZE_MOD_eq; lia |].
  split; [apply buf_okb_ok; vm_compute; reflexivity |].
  vm_compute. repeat split.
Qed.

(** ** editor_load_text and the selection *)

(** C10: editor_load_text resets the cursor to position 0, line 0,
    column 0 and leaves the mode, the has_selection flag and the
    selection anchor as they were, where editor_init resets the mode and
    the flag; after loading hi over hello world with the selection
    anchored at 8, the anchor exceeds the new length 2 and
    get_selection_end returns 8. *)
Theorem editor_load_text_keeps_selection :
  (forall st text,
     let st' := snd (editor_load_text st text) in
     g_cursor st' = mkCursor 0 0 0 0 /\
     g_mode st' = g_mode st /\
     g_has_selection st' = g_has_selection st /\
     g_selection_start st' = g_selection_start st) /\
  (forall st,
     let st' := snd (editor_init st) in
     g_cursor st' = mkCursor 0 0 0 0 /\
     g_mode st' = MODE_NORMAL /\
     g_has_selection st' = false) /\
  (g_has_selection stale_selection_editor = true /\
   g_mode stale_selection_editor = MODE_VISUAL /\
   get_buffer_length stale_selection_editor = 2 /\
   g_selection_start stale_selection_editor = 8 /\
   get_selection_end stale_selection_editor = 8).
Proof.
  split; [intros st text; repeat split |].
  split; [intros st; repeat split |].
  vm_compute. repeat split.
Qed.

(** ** The cursor stays inside the document *)


(** Recomputing line and column of an in-range position. *)
Lemma settle_cursor (st : Editor) (b : Buffer) :
  g_buffer st = Some b -> buf_ok b ->
  0 <= position (g_cursor st) <= total_length b ->
  is_size (preferred_column (g_cursor st)) ->
  zlen (g_search_pattern st) <= 255 ->
  editor_ok (update_cursor_line_col st) /\
  get_buffer_length (update_cursor_line_col st) = total_length b.
Proof.
  intros Hb Hok Hpos Hpref Hpat.
  pose proof (total_length_range b Hok) as Ht.
  destruct (rebuild_line_cache_spec b Hok) as (Hok' & Hd & Hsame).
  pose proof Hsame as (_ & _ & _ & Htot).
  destruct (buffer_pos_to_line_col_spec b (position (g_cursor st)) Hok)
    as (pre & sk & post & Hsplit & Hconv & Hsk & Hline & _); [lia |].
  pose proof (lines_ok_count _ (clean_lines_ok _ Hok' Hd)) as (_ & Hcr).
  pose proof (zlen_nonneg pre).
  unfold update_cursor_line_col. rewrite Hb, Hconv.
  unfold editor_ok, get_buffer_length, buffer_length, is_size in *.
  cbn [g_cursor g_buffer g_search_pattern line column preferred_column
       position].
  rewrite Htot.
  split; [| reflexivity].
  split; [lia |]. split; [lia |]. split; [assumption |].
  split; [assumption |]. split; [lia | exact Hok'].
Qed.



(** Moving the cursor to an in-range position [p] of the buffer [b]. *)
Lemma move_cursor_ok (st : Editor) (b : Buffer) (p : Z) :
  editor_ok st -> buf_ok b -> 0 <= p <= total_length b ->
  let st' := update_cursor_line_col
               (with_position (with_buffer st (Some b)) p) in
  editor_ok st' /\ get_buffer_length st' = total_length b /\
  position (g_cursor st') = p.
Proof.
  intros (Hl & Hc & Hp & Hpat & _) Hok Hpos st'.
  destruct (settle_cursor (with_position (with_buffer st (Some b)) p) b)
    as (H1 & H2); try assumption; try reflexivity.
  split; [exact H1 |]. split; [exact H2 |].
  subst st'. rewrite update_cursor_line_col_position. reflexivity.
Qed.


Lemma scan_forward_range (b : Buffer) (stop : bool) (len : Z) (fuel : nat) :
  forall pos,
    0 <= pos -> len < SIZE_MOD ->
    pos <= scan_forward fuel b stop pos len <= Z.max pos len.
Proof.
  induction fuel as [| fuel IH]; intros pos Hpos Hlen; simpl; [lia |].
  destruct (Z.ltb_spec pos len); [| lia].
  destruct (Bool.eqb _ stop); [lia |]. unwrap.
  specialize (IH (pos + 1) ltac:(lia) Hlen). lia.
Qed.





(** ** The fuel of the loops suffices *)

(** Each loop stops by its own test before the fuel runs out: giving it
    more fuel than the distance it has to cover changes nothing. *)
Lemma scan_forward_fuel (b : Buffer) (stop : bool) (len : Z) (extra : nat) :
  forall (fuel : nat) (pos : Z),
    0 <= pos -> len < SIZE_MOD -> len - pos <= Z.of_nat fuel ->
    scan_forward (fuel + extra) b stop pos len = scan_forward fuel b stop pos len.
Proof.
  induction fuel as [| fuel IH]; intros pos Hpos Hlen Hfuel.
  - destruct extra as [| extra]; [reflexivity |].
    cbn [Nat.add scan_forward].
    destruct (Z.ltb_spec pos len); [lia | reflexivity].
  - cbn [Nat.add scan_forward].
    destruct (Z.ltb_spec pos len) as [Hlt | Hge]; [| reflexivity].
    destruct (Bool.eqb _ _); [reflexivity |].
    rewrite (sz_add_small pos 1) by lia.
    apply IH; lia.
Qed.

Lemma scan_word_end_fuel (b : Buffer) (bound : Z) (extra : nat) :
  forall (fuel : nat) (pos : Z),
    0 <= pos -> bound < SIZE_MOD -> bound - pos <= Z.of_nat fuel ->
    scan_word_end (fuel + extra) b pos bound = scan_word_end fuel b pos bound.
Proof.
  induction fuel as [| fuel IH]; intros pos Hpos Hbound Hfuel.
  - destruct extra as [| extra]; [reflexivity |].
    cbn [Nat.add scan_word_end].
    destruct (Z.ltb_spec pos bound); [lia | reflexivity].
  - cbn [Nat.add scan_word_end].
    destruct (Z.ltb_spec pos bound) as [Hlt | Hge]; [| reflexivity].
    destruct (is_space _); [reflexivity |].
    rewrite (sz_add_small pos 1) by lia.
    apply IH; lia.
Qed.

Lemma scan_backward_fuel (b : Buffer) (stop : bool) (back : Z)
    (extra : nat) :
  forall (fuel : nat) (pos : Z),
    pos < SIZE_MOD -> pos <= Z.of_nat fuel ->
    scan_backward (fuel + extra) b stop back pos
    = scan_backward fuel b stop back pos.
Proof.
  induction fuel as [| fuel IH]; intros pos Hpos Hfuel.
  - destruct extra as [| extra]; [reflexivity |].
    cbn [Nat.add scan_backward].
    destruct (Z.ltb_spec 0 pos); [lia | reflexivity].
  - cbn [Nat.add scan_backward].
    destruct (Z.ltb_spec 0 pos) as [Hlt | Hge]; [| reflexivity].
    destruct (Bool.eqb _ _); [reflexivity |].
    rewrite (sz_sub_small pos 1) by lia.
    apply IH; lia.
Qed.

Lemma find_prev_loop_fuel (text needle : list byte) (needle_len : Z)
    (extra : nat) :
  forall (fuel : nat) (i : Z),
    0 <= i < SIZE_MOD -> i < Z.of_nat fuel ->
    find_prev_loop (fuel + extra) text needle i needle_len
    = find_prev_loop fuel text needle i needle_len.
Proof.
  induction fuel as [| fuel IH]; intros i Hi Hfuel; [lia |].
  cbn [Nat.add find_prev_loop].
  destruct (strncmp_eq _ _ _); [reflexivity |].
  destruct (Z.eqb_spec i 0) as [H0 | Hn0]; [reflexivity |].
  rewrite (sz_sub_small i 1) by lia.
  apply IH; lia.
Qed.



Ltac open_editor_ok H :=
  let Hl := fresh "Hline" in
  let Hc := fresh "Hcol" in
  let Hp := fresh "Hpref" in
  let Hpat := fresh "Hpat" in
  let Hpos := fresh "Hpos" in
  let Hb := fresh "Hbuf" in
  pose proof H as (Hl & Hc & Hp & Hpat & Hpos & Hb);
  unfold is_size in Hl, Hc, Hp.














(** ** Edits keep the cursor inside the document *)










(** ** Searches keep the cursor inside the document *)










(** ** Initialisation and the registers *)






Lemma is_sizeb_ok (z : Z) : is_sizeb z = true -> is_size z.
Proof.
  unfold is_sizeb, is_size. intros H.
  apply andb_true_iff in H. destruct H as (H1 & H2).
  apply Z.leb_le in H1. apply Z.ltb_lt in H2. lia.
Qed.

Lemma editor_okb_ok (st : Editor) : editor_okb st = true -> editor_ok st.
Proof.
  unfold editor_okb, editor_ok. intros H.
  apply andb_true_iff in H. destruct H as (H & Hbuf).
  apply andb_true_iff in H. destruct H as (H & Hle).
  apply andb_true_iff in H. destruct H as (H & Hge).
  apply andb_true_iff in H. destruct H as (H & Hpat).
  apply andb_true_iff in H. destruct H as (H & Hpref).
  apply andb_true_iff in H. destruct H as (Hline & Hcol).
  apply Z.leb_le in Hle, Hge, Hpat.
  split; [apply is_sizeb_ok; exact Hline |].
  split; [apply is_sizeb_ok; exact Hcol |].
  split; [apply is_sizeb_ok; exact Hpref |].
  split; [exact Hpat |]. split; [lia |].
  destruct (g_buffer st); [apply buf_okb_ok; exact Hbuf | discriminate].
Qed.




(** ** motion_e on an empty document *)

Lemma sync_preferred_column_ok_position (st : Editor) :
  position (g_cursor (sync_preferred_column st)) = position (g_cursor st).
Proof. reflexivity. Qed.

Lemma scan_word_end_empty (b : Buffer) (bound : Z) (fuel : nat) :
  forall pos,
    total_length b = 0 -> 0 <= pos <= bound -> bound < SIZE_MOD ->
    bound - pos <= Z.of_nat fuel ->
    scan_word_end fuel b pos bound = bound.
Proof.
  induction fuel as [| fuel IH]; intros pos Hempty Hpos Hb Hfuel;
    cbn [scan_word_end].
  - lia.
  - destruct (Z.ltb_spec pos bound); [| lia].
    unwrap. unfold buffer_char_at at 1. rewrite Hempty.
    destruct (Z.leb_spec 0 (pos + 1)); [| lia].
    change (is_space NUL) with false. cbv iota.
    apply IH; try assumption; lia.
Qed.

(** The loop bound [len - 1] of motion_e wraps around when the document
    is empty, and the cursor runs to the largest [size_t]. *)
Lemma motion_e_on_empty (st : Editor) (b : Buffer) :
  g_buffer st = Some b -> total_length b = 0 ->
  position (g_cursor st) = 0 ->
  position (g_cursor (motion_e st)) = SIZE_MOD - 1.
Proof.
  intros Hb Hempty Hpos. pose proof SIZE_MOD_eq as HM.
  unfold motion_e. rewrite Hb. unfold buffer_length.
  rewrite Hempty, Hpos.
  change (0 <? 0) with false. cbv iota.
  assert (Hskip : scan_forward (loop_fuel 0 0) b false 0 0 = 0).
  { pose proof (scan_forward_range b false 0 (loop_fuel 0 0) 0
                  ltac:(lia) ltac:(lia)). lia. }
  rewrite Hskip.
  assert (Hbound : sz_sub 0 1 = SIZE_MOD - 1)
    by (rewrite sz_sub_borrow by lia; lia).
  rewrite Hbound.
  rewrite sync_preferred_column_ok_position.
  rewrite update_cursor_line_col_position.
  unfold with_position, with_cursor, g_cursor, position.
  apply scan_word_end_empty; try assumption; try lia.
  unfold loop_fuel. rewrite Z2Nat.id; lia.
Qed.

Lemma motion_e_empty_underflow :
  get_buffer_length empty_editor = 0 /\
  position (g_cursor empty_editor) = 0 /\
  position (g_cursor (motion_e empty_editor)) = SIZE_MOD - 1.
Proof.
  split; [reflexivity |]. split; [reflexivity |].
  apply (motion_e_on_empty empty_editor (buffer_create (Some [])));
    reflexivity.
Qed.

(** * Further properties of the buffer *)

(** ** Creation and reading *)

Lemma byte_at_slice (l : list byte) (pos : Z) :
  0 <= pos < zlen l -> ztake 1 (zdrop pos l) = [byte_at l pos].
Proof.
  intros Hpos.
  destruct (znth_error_some l pos Hpos) as [x Hx].
  destruct (znth_error_split l pos x Hx) as (l1 & l2 & -> & Hl1).
  unfold byte_at. rewrite Hx. subst pos.
  rewrite zdrop_app_exact. reflexivity.
Qed.

Lemma get_all_is_content (b : Buffer) (doc : list byte) :
  buf_ok b -> buffer_get_all b = Some doc ->
  doc = content b /\ zlen doc = total_length b.
Proof.
  intros Hok Hall.
  rewrite buffer_get_all_content in Hall by assumption.
  injection Hall as <-. split; [reflexivity |].
  apply content_length. exact Hok.
Qed.

(** X1: buffer_create on a C string whose length fits the address space
    yields a buffer that satisfies the invariants of the piece table,
    whose document is the string up to its terminator and whose length is
    strlen of it; the piece table has one piece for a non-empty string and
    none for an empty or null one, and the add storage is empty. *)
Theorem buffer_create_document (text : option (list byte)) :
  match text with
  | Some s => strlen s < SIZE_MOD - 1
  | None => True
  end ->
  let b := buffer_create text in
  let doc :=
    match text with
    | Some s => ztake (strlen s) s
    | None => []
    end in
  buf_ok b /\
  buffer_get_all b = Some doc /\
  buffer_length b = zlen doc /\
  piece_count b = (if buffer_length b =? 0 then 0 else 1) /\
  add_length b = 0.
Proof.
  intros Hfit b doc.
  assert (Hok : buf_ok b) by (apply buffer_create_ok; exact Hfit).
  assert (Hdoc : content b = doc) by apply buffer_create_content.
  split; [exact Hok |].
  split; [rewrite buffer_get_all_content by exact Hok; congruence |].
  split.
  { unfold buffer_length. rewrite <- Hdoc. symmetry.
    apply content_length. exact Hok. }
  subst b. unfold buffer_create, buffer_length, piece_count, add_length.
  destruct text as [s |]; [| split; reflexivity].
  pose proof (strlen_range s) as Hr.
  destruct (Z.ltb_spec 0 (strlen s)) as [Hpos | Hzero].
  - cbn [total_length pieces add_buffer].
    destruct (Z.eqb_spec (strlen s) 0); [lia |]. split; reflexivity.
  - split; reflexivity.
Qed.

Lemma buffer_create_document_witness :
  let b := buffer_create (Some (bytes "Hello World")) in
  buf_ok b /\
  buffer_get_all b = Some (bytes "Hello World") /\
  buffer_length b = 11 /\
  piece_count b = 1 /\
  add_length b = 0.
Proof.
  apply (buffer_create_document (Some (bytes "Hello World"))).
  vm_compute. reflexivity.
Defined.

(** X2: for size_t arguments whose sum does not overflow, buffer_get_text
    returns the length bytes of the document that start at offset start,
    exactly length of them, when the range lies inside the document, and
    a null pointer when it does not. *)
Theorem buffer_get_text_substring (b : Buffer) (start length : Z)
    (doc : list byte) :
  buf_ok b -> buffer_get_all b = Some doc ->
  is_size start -> is_size length -> start + length < SIZE_MOD ->
  (start + length <= buffer_length b ->
   buffer_get_text b start length = Some (ztake length (zdrop start doc)) /\
   zlen (ztake length (zdrop start doc)) = length) /\
  (buffer_length b < start + length ->
   buffer_get_text b start length = None).
Proof.
  intros Hok Hall [Hs0 Hs1] [Hl0 Hl1] Hsum.
  destruct (get_all_is_content b doc Hok Hall) as [-> Hlen].
  unfold buffer_length. split.
  - intros Hin. split.
    + apply buffer_get_text_spec; assumption.
    + rewrite zlen_ztake; [reflexivity |].
      rewrite zlen_zdrop by lia. lia.
  - intros Hout. apply buffer_get_text_out_of_range; assumption.
Qed.

Lemma buffer_get_text_substring_witness :
  (6 + 9 <= buffer_length hello_beautiful ->
   buffer_get_text hello_beautiful 6 9
   = Some (ztake 9 (zdrop 6 (bytes "Hello Beautiful World"))) /\
   zlen (ztake 9 (zdrop 6 (bytes "Hello Beautiful World"))) = 9) /\
  (buffer_length hello_beautiful < 6 + 9 ->
   buffer_get_text hello_beautiful 6 9 = None).
Proof.
  apply (buffer_get_text_substring hello_beautiful 6 9
           (bytes "Hello Beautiful World")).
  - apply buf_okb_ok. vm_compute. reflexivity.
  - vm_compute. reflexivity.
  - unfold is_size. rewrite SIZE_MOD_eq. lia.
  - unfold is_size. rewrite SIZE_MOD_eq. lia.
  - rewrite SIZE_MOD_eq. lia.
Defined.

(** X3: buffer_char_at agrees with buffer_get_text: inside the document
    the one-byte text read at pos is the byte buffer_char_at returns, and
    at or beyond the end of the document buffer_char_at returns NUL. *)
Theorem buffer_char_at_get_text (b : Buffer) (pos : Z) :
  buf_ok b -> is_size pos ->
  (pos < buffer_length b ->
   buffer_get_text b pos 1 = Some [buffer_char_at b pos]) /\
  (buffer_length b <= pos -> buffer_char_at b pos = NUL).
Proof.
  intros Hok [Hp0 Hp1]. unfold buffer_length. split.
  - intros Hin.
    rewrite buffer_get_text_spec by (try assumption; lia).
    rewrite buffer_char_at_content by (try assumption; lia).
    rewrite byte_at_slice; [reflexivity |].
    rewrite content_length by assumption. lia.
  - intros Hout. unfold buffer_char_at.
    destruct (Z.leb_spec (total_length b) pos); [reflexivity | lia].
Qed.

Lemma buffer_char_at_get_text_witness :
  (8 < buffer_length hello_beautiful ->
   buffer_get_text hello_beautiful 8 1
   = Some [buffer_char_at hello_beautiful 8]) /\
  (buffer_length hello_beautiful <= 8 ->
   buffer_char_at hello_beautiful 8 = NUL).
Proof.
  apply (buffer_char_at_get_text hello_beautiful 8).
  - apply buf_okb_ok. vm_compute. reflexivity.
  - unfold is_size. rewrite SIZE_MOD_eq. lia.
Defined.

(** ** Sequences of edits *)







(** ** The storages are append-only *)




(** * Further properties of the line cache *)

(** ** Newlines and line starts *)

Lemma count_newlines_cons (c : byte) (text : list byte) :
  count_newlines (c :: text)
  = (if Byte.eqb c NEWLINE then 1 else 0) + count_newlines text.
Proof.
  unfold count_newlines. cbn [filter].
  destruct (Byte.eqb c NEWLINE); [rewrite zlen_cons |]; lia.
Qed.

Lemma count_newlines_range (text : list byte) :
  0 <= count_newlines text <= zlen text.
Proof.
  induction text as [| c text IH].
  - vm_compute. split; discriminate.
  - rewrite count_newlines_cons, zlen_cons.
    destruct (Byte.eqb c NEWLINE); lia.
Qed.

Lemma count_newlines_app (t1 t2 : list byte) :
  count_newlines (t1 ++ t2) = count_newlines t1 + count_newlines t2.
Proof.
  unfold count_newlines. rewrite filter_app, zlen_app. reflexivity.
Qed.

Lemma count_lines_loop_count (text : list byte) :
  forall lc,
    0 <= lc -> lc + zlen text < SIZE_MOD ->
    count_lines_loop text lc = lc + count_newlines text.
Proof.
  induction text as [| c text IH]; intros lc Hlc Hfit.
  - change (count_newlines []) with 0. cbn [count_lines_loop]. lia.
  - rewrite zlen_cons in Hfit. pose proof (zlen_nonneg text).
    cbn [count_lines_loop]. rewrite count_newlines_cons.
    destruct (Byte.eqb c NEWLINE).
    + rewrite (sz_add_small lc 1) by lia. rewrite IH by lia. lia.
    + rewrite IH by lia. lia.
Qed.

Lemma line_starts_loop_length (text : list byte) :
  forall i T,
    0 <= i -> i + zlen text <= T -> T < SIZE_MOD ->
    zlen (line_starts_loop text i T) = count_newlines text.
Proof.
  induction text as [| c text IH]; intros i T Hi Hfit HT.
  - reflexivity.
  - rewrite zlen_cons in Hfit. pose proof (zlen_nonneg text).
    cbn [line_starts_loop]. rewrite count_newlines_cons.
    rewrite (sz_add_small i 1) by lia.
    destruct (Z.leb_spec (i + 1) T); [| lia].
    destruct (Byte.eqb c NEWLINE); cbn [andb].
    + rewrite zlen_cons, IH by lia. reflexivity.
    + rewrite IH by lia. lia.
Qed.

Lemma byte_at_cons_zero (c : byte) (text : list byte) :
  byte_at (c :: text) 0 = c.
Proof. reflexivity. Qed.

Lemma byte_at_cons_pos (c : byte) (text : list byte) (j : Z) :
  0 < j -> byte_at (c :: text) j = byte_at text (j - 1).
Proof.
  intros Hj. unfold byte_at. rewrite znth_error_cons_pos by lia.
  reflexivity.
Qed.

(** Every newline of the text gives a line start. *)
Lemma line_starts_loop_complete (text : list byte) :
  forall i T j,
    0 <= i -> i + zlen text <= T -> T < SIZE_MOD ->
    0 <= j < zlen text -> byte_at text j = NEWLINE ->
    In (i + j + 1) (line_starts_loop text i T).
Proof.
  induction text as [| c text IH]; intros i T j Hi Hfit HT Hj Hnl.
  - rewrite (@zlen_nil byte) in Hj. lia.
  - rewrite zlen_cons in Hfit, Hj. pose proof (zlen_nonneg text).
    cbn [line_starts_loop]. rewrite (sz_add_small i 1) by lia.
    destruct (Z.leb_spec (i + 1) T); [| lia].
    destruct (Z.eq_dec j 0) as [-> | Hj0].
    + rewrite byte_at_cons_zero in Hnl. subst c. cbn [Byte.eqb andb].
      left. lia.
    + rewrite byte_at_cons_pos in Hnl by lia.
      assert (Hin : In (i + 1 + (j - 1) + 1) (line_starts_loop text (i + 1) T))
        by (apply IH; try assumption; lia).
      replace (i + 1 + (j - 1) + 1) with (i + j + 1) in Hin by lia.
      destruct (Byte.eqb c NEWLINE && true); [right |]; exact Hin.
Qed.

Lemma chain_before (pre : list Z) :
  forall lo s post hi x,
    chain lo (pre ++ s :: post) hi -> In x pre -> x < s.
Proof.
  induction pre as [| a pre IH]; intros lo s post hi x Hch Hin.
  - destruct Hin.
  - cbn [app chain] in Hch. destruct Hch as [_ Hch].
    destruct Hin as [<- | Hin].
    + apply (chain_app pre a s post hi Hch).
    + apply (IH a s post hi x Hch Hin).
Qed.

(** A line start above the start of line [n] is at or above the start of
    line [n + 1]. *)
Lemma starts_between (b : Buffer) (n x : Z) :
  buf_ok b -> lines_dirty b = false -> 0 <= n < line_count b ->
  In x (line_starts b) -> line_starts_at b n < x ->
  n + 1 < line_count b /\ line_starts_at b (n + 1) <= x.
Proof.
  intros Hok Hd Hn Hin Hlt.
  pose proof (clean_lines_ok b Hok Hd) as Hl.
  destruct (line_entry b n Hl Hn)
    as (pre & s & post & Hsplit & Hpre & Hs & Hch & Hcount & _).
  pose proof (line_starts_at_entry b pre s post Hsplit) as Hat.
  rewrite Hpre in Hat. rewrite Hat in Hlt.
  destruct Hl as (rest & Hls & Hchain & _).
  rewrite Hsplit in Hin. apply in_app_or in Hin.
  destruct Hin as [Hin | [Heq | Hin]].
  - exfalso. destruct pre as [| a pre]; [destruct Hin |].
    rewrite Hls in Hsplit. cbn [app] in Hsplit.
    injection Hsplit as <- Hrest. rewrite Hrest in Hchain.
    destruct Hin as [<- | Hin].
    + pose proof (chain_app pre 0 s post _ Hchain). lia.
    + pose proof (chain_before pre 0 s post _ x Hchain Hin). lia.
  - lia.
  - destruct post as [| e post]; [destruct Hin |].
    rewrite zlen_cons in Hcount. pose proof (zlen_nonneg post).
    pose proof (line_starts_at_next b pre s e post Hsplit) as Hnx.
    rewrite Hpre in Hnx. rewrite Hnx.
    split; [lia |].
    cbn [chain] in Hch. destruct Hch as [_ Hch].
    destruct Hin as [<- | Hin]; [lia |].
    pose proof (chain_in post e _ x Hch Hin). lia.
Qed.

(** A newline at or after the start of line [n] ends line [n] or a later
    line. *)
Lemma newline_ends_line (b : Buffer) (n k : Z) :
  buf_ok b -> lines_dirty b = false -> 0 <= n < line_count b ->
  line_starts_at b n <= k < total_length b ->
  byte_at (content b) k = NEWLINE ->
  n + 1 < line_count b /\ line_starts_at b (n + 1) <= k + 1.
Proof.
  intros Hok Hd Hn Hk Hnl.
  pose proof (total_length_range b Hok) as Ht.
  pose proof (content_length b Hok) as Hc.
  pose proof Hok as (_ & _ & _ & _ & Hcache).
  destruct (Hcache Hd) as (Hls & _).
  destruct (line_extent_clean b n Hok Hd Hn)
    as (s & len & _ & _ & Hat & Hs & _).
  apply starts_between; try assumption; [| lia].
  rewrite Hls. right.
  replace (k + 1) with (0 + k + 1) by lia.
  apply line_starts_loop_complete; try assumption; lia.
Qed.

Lemma in_slice (l : list byte) (s m : Z) (x : byte) :
  0 <= s -> In x (ztake m (zdrop s l)) ->
  exists k, s <= k < s + m /\ k < zlen l /\ byte_at l k = x.
Proof.
  intros Hs Hin.
  destruct (In_nth_error _ _ Hin) as [i Hi].
  assert (Hlt : (i < length (ztake m (zdrop s l)))%nat).
  { apply nth_error_Some. congruence. }
  assert (Hm : Z.of_nat i < m).
  { unfold ztake in Hlt. pose proof (firstn_le_length (Z.to_nat m) (zdrop s l)).
    lia. }
  assert (Hz : znth_error (ztake m (zdrop s l)) (Z.of_nat i) = Some x).
  { unfold znth_error. destruct (Z.ltb_spec (Z.of_nat i) 0); [lia |].
    rewrite Nat2Z.id. exact Hi. }
  rewrite znth_error_ztake in Hz by lia.
  rewrite znth_error_zdrop in Hz by lia.
  exists (s + Z.of_nat i). split; [lia |]. split.
  - destruct (Z.lt_ge_cases (s + Z.of_nat i) (zlen l)) as [Hin' | Hout];
      [exact Hin' |].
    rewrite znth_error_none in Hz by lia. discriminate.
  - unfold byte_at. rewrite Hz. reflexivity.
Qed.

Lemma ztake_succ (l : list byte) (k : Z) :
  0 <= k -> ztake (k + 1) l = ztake k l ++ ztake 1 (zdrop k l).
Proof.
  intros Hk.
  rewrite <- (ztake_zdrop k (ztake (k + 1) l)).
  rewrite ztake_ztake by lia. rewrite zdrop_ztake by lia.
  replace (k + 1 - k) with 1 by lia. reflexivity.
Qed.

(** ** Lines of a buffer whose cache is clean *)

Lemma buffer_get_line_clean (b : Buffer) (n : Z) :
  buf_ok b -> lines_dirty b = false -> 0 <= n < line_count b ->
  exists s len ln,
    buffer_line_start b n = (s, b) /\
    buffer_line_length b n = (len, b) /\
    buffer_get_line b n = (Some ln, b) /\
    0 <= s /\ 0 <= len /\ s + len <= total_length b /\
    ~ In NEWLINE ln /\
    strip_newline b s len = zlen ln /\
    ztake len (zdrop s (content b))
    = ln ++ (if n + 1 <? line_count b then [NEWLINE] else []).
Proof.
  intros Hok Hd Hn.
  pose proof (total_length_range b Hok) as Ht.
  pose proof (content_length b Hok) as Hc.
  pose proof (clean_lines_ok b Hok Hd) as Hl.
  destruct (lines_ok_count b Hl) as (_ & Hcr).
  destruct (line_extent_clean b n Hok Hd Hn)
    as (s & len & H1 & H2 & Hat & Hs & Hlen & Hbound & _ & Hnext & Hlast).
  exists s, len.
  unfold buffer_get_line. rewrite (rebuild_line_cache_clean b Hd).
  destruct (Z.leb_spec (line_count b) n); [lia |].
  rewrite Hat. rewrite (sz_add_small n 1) by lia.
  destruct (Z.ltb_spec (n + 1) (line_count b)) as [Hnf | Hfinal].
  - destruct (Hnext Hnf) as [Hpos Hnx]. rewrite Hnx.
    rewrite (sz_sub_small (s + len) s) by lia.
    replace (s + len - s) with len by lia.
    rewrite (sz_sub_small (s + len) 1) by lia.
    pose proof (newline_before_line b (n + 1) Hok Hd ltac:(lia)) as Hnl.
    rewrite Hnx in Hnl. rewrite Hnl.
    destruct (Z.ltb_spec 0 len); [| lia]. rewrite byte_eqb_refl. cbn [andb].
    rewrite (sz_sub_small len 1) by lia.
    rewrite buffer_get_text_spec by (try assumption; lia).
    exists (ztake (len - 1) (zdrop s (content b))).
    repeat (split; [first [reflexivity | assumption] |]).
    split.
    + intros Hin.
      destruct (in_slice _ _ _ _ Hs Hin) as (k & Hk & Hkl & Hbyte).
      destruct (newline_ends_line b n k Hok Hd Hn) as [_ Hge];
        [lia | exact Hbyte |].
      lia.
    + split.
      { unfold strip_newline. rewrite (sz_add_small s len) by lia.
        rewrite (sz_sub_small (s + len) 1) by lia. rewrite Hnl.
        destruct (Z.ltb_spec 0 len); [| lia].
        rewrite byte_eqb_refl. cbn [andb].
        rewrite (sz_sub_small len 1) by lia.
        rewrite zlen_ztake; [reflexivity |].
        rewrite zlen_zdrop by lia. lia. }
      replace len with (len - 1 + 1) at 1 by lia.
      rewrite ztake_succ by lia. f_equal.
      rewrite zdrop_zdrop by lia.
      rewrite byte_at_slice by lia.
      rewrite buffer_char_at_content in Hnl by (try assumption; lia).
      replace (s + (len - 1)) with (s + len - 1) by lia.
      rewrite Hnl. reflexivity.
  - specialize (Hlast ltac:(lia)).
    rewrite (sz_sub_small (total_length b) s) by lia.
    replace (total_length b - s) with len by lia.
    assert (Hnone : forall k, s <= k < total_length b ->
                      byte_at (content b) k <> NEWLINE).
    { intros k Hk Hbyte.
      destruct (newline_ends_line b n k Hok Hd Hn) as [Hlt _];
        [lia | exact Hbyte | lia]. }
    assert (Hkeep :
      (0 <? len)
      && Byte.eqb (buffer_char_at b (sz_sub (total_length b) 1)) NEWLINE
      = false).
    { destruct (Z.ltb_spec 0 len) as [Hpos | Hz]; [| reflexivity].
      cbn [andb]. rewrite (sz_sub_small (total_length b) 1) by lia.
      rewrite buffer_char_at_content by (try assumption; lia).
      destruct (Byte.eqb _ NEWLINE) eqn:He; [| reflexivity].
      apply Byte.byte_dec_bl in He.
      exfalso. apply (Hnone (total_length b - 1)); [lia | exact He]. }
    rewrite Hkeep.
    rewrite buffer_get_text_spec by (try assumption; lia).
    exists (ztake len (zdrop s (content b))).
    repeat (split; [first [reflexivity | assumption] |]).
    split.
    + intros Hin.
      destruct (in_slice _ _ _ _ Hs Hin) as (k & Hk & Hkl & Hbyte).
      apply (Hnone k); [lia | exact Hbyte].
    + split.
      { unfold strip_newline. rewrite (sz_add_small s len) by lia.
        replace (s + len) with (total_length b) by lia.
        rewrite Hkeep.
        rewrite zlen_ztake; [reflexivity |].
        rewrite zlen_zdrop by lia. lia. }
      rewrite app_nil_r. reflexivity.
Qed.

Lemma buffer_get_line_rebuild (b : Buffer) (n : Z) :
  buf_ok b ->
  buffer_get_line b n = buffer_get_line (rebuild_line_cache b) n.
Proof.
  intros Hok.
  destruct (rebuild_line_cache_spec b Hok) as (_ & Hd & _).
  unfold buffer_get_line.
  rewrite (rebuild_line_cache_clean (rebuild_line_cache b) Hd).
  reflexivity.
Qed.

Lemma buffer_line_count_newlines (b : Buffer) :
  buf_ok b ->
  fst (buffer_line_count b) = 1 + count_newlines (content b).
Proof.
  intros Hok.
  pose proof (total_length_range b Hok) as Ht.
  pose proof (content_length b Hok) as Hlen.
  destruct (rebuild_line_cache_spec b Hok) as (Hok' & Hd & Hsame).
  rewrite buffer_line_count_rebuild. cbn [fst].
  pose proof Hok' as (_ & _ & _ & _ & Hcache).
  destruct (Hcache Hd) as (_ & Hlc).
  rewrite Hlc, (same_doc_content b _ Hsame).
  apply count_lines_loop_count; lia.
Qed.

(** X8: the number of lines that buffer_line_count returns is one more
    than the number of newline bytes of the document; an empty document
    has one line. *)
Theorem line_count_counts_newlines (b : Buffer) (doc : list byte) :
  buf_ok b -> buffer_get_all b = Some doc ->
  fst (buffer_line_count b) = 1 + count_newlines doc.
Proof.
  intros Hok Hall.
  destruct (get_all_is_content b doc Hok Hall) as [-> _].
  apply buffer_line_count_newlines. exact Hok.
Qed.

Lemma line_count_counts_newlines_witness :
  fst (buffer_line_count three_lines) = 1 + count_newlines (bytes "ab
cd
ef").
Proof.
  apply (line_count_counts_newlines three_lines).
  - apply buf_okb_ok. vm_compute. reflexivity.
  - vm_compute. reflexivity.
Defined.

(** X9: the lines tile the document.  Line 0 starts at offset 0; a line
    that is not the last one is not empty and ends where the next line
    starts; the last line ends at the end of the document; and for a line
    number at or beyond the line count buffer_line_start returns the
    length of the document and buffer_line_length returns 0. *)
Theorem lines_tile_document (b : Buffer) (n : Z) :
  buf_ok b -> is_size n ->
  let count := fst (buffer_line_count b) in
  let start k := fst (buffer_line_start b k) in
  let len k := fst (buffer_line_length b k) in
  1 <= count /\
  start 0 = 0 /\
  (n + 1 < count -> 0 < len n /\ start n + len n = start (n + 1)) /\
  (n + 1 = count -> start n + len n = buffer_length b) /\
  (count <= n -> start n = buffer_length b /\ len n = 0).
Proof.
  intros Hok [Hn0 Hn1] count start len.
  destruct (rebuild_line_cache_spec b Hok) as (Hok' & Hd & Hsame).
  pose proof Hsame as (_ & _ & _ & Htot).
  pose proof (clean_lines_ok _ Hok' Hd) as Hl.
  destruct (lines_ok_count _ Hl) as (_ & Hcr).
  subst count start len. cbv beta.
  rewrite buffer_line_count_rebuild. cbn [fst].
  rewrite !(buffer_line_start_rebuild b) by assumption.
  rewrite !(buffer_line_length_rebuild b) by assumption.
  set (b' := rebuild_line_cache b) in *.
  split; [lia |]. split.
  { destruct (line_extent_clean b' 0 Hok' Hd)
      as (s & len & H1 & _ & _ & _ & _ & _ & Hz & _); [lia |].
    rewrite H1. cbn [fst]. apply Hz. reflexivity. }
  split; [| split].
  - intros Hnf.
    destruct (line_extent_clean b' n Hok' Hd)
      as (s & len & H1 & H2 & _ & _ & _ & _ & _ & Hnext & _); [lia |].
    destruct (Hnext Hnf) as [Hpos Hnx].
    destruct (line_extent_clean b' (n + 1) Hok' Hd)
      as (s1 & len1 & H3 & _ & Hat1 & _); [lia |].
    rewrite H1, H2, H3. cbn [fst]. split; [exact Hpos | congruence].
  - intros Hfin.
    destruct (line_extent_clean b' n Hok' Hd)
      as (s & len & H1 & H2 & _ & _ & _ & _ & _ & _ & Hlast); [lia |].
    rewrite H1, H2. cbn [fst]. unfold buffer_length.
    rewrite <- Htot. apply Hlast. lia.
  - intros Hbeyond.
    destruct (line_extent_beyond b' n Hd Hbeyond) as [H1 H2].
    rewrite H1, H2. cbn [fst]. unfold buffer_length. split; congruence.
Qed.

Lemma lines_tile_document_witness :
  let count := fst (buffer_line_count three_lines) in
  let start k := fst (buffer_line_start three_lines k) in
  let len k := fst (buffer_line_length three_lines k) in
  1 <= count /\
  start 0 = 0 /\
  (1 + 1 < count -> 0 < len 1 /\ start 1 + len 1 = start (1 + 1)) /\
  (1 + 1 = count -> start 1 + len 1 = buffer_length three_lines) /\
  (count <= 1 -> start 1 = buffer_length three_lines /\ len 1 = 0).
Proof.
  apply (lines_tile_document three_lines 1).
  - apply buf_okb_ok. vm_compute. reflexivity.
  - unfold is_size. rewrite SIZE_MOD_eq. lia.
Defined.

(** X10: buffer_get_line returns a null pointer for a line number at or
    beyond the line count.  For an existing line it returns a text that
    holds no newline byte; the bytes of the line as buffer_line_start and
    buffer_line_length delimit it are that text followed by one newline
    when the line is not the last one, and that text alone for the last
    line. *)
Theorem buffer_get_line_contents (b : Buffer) (n : Z) :
  buf_ok b -> is_size n ->
  let count := fst (buffer_line_count b) in
  let start := fst (buffer_line_start b n) in
  let len := fst (buffer_line_length b n) in
  (count <= n -> fst (buffer_get_line b n) = None) /\
  (n < count ->
   exists ln,
     fst (buffer_get_line b n) = Some ln /\
     ~ In NEWLINE ln /\
     buffer_get_text b start len
     = Some (ln ++ (if n + 1 <? count then [NEWLINE] else []))).
Proof.
  intros Hok [Hn0 Hn1] count start len.
  destruct (rebuild_line_cache_spec b Hok) as (Hok' & Hd & Hsame).
  pose proof (same_doc_content b _ Hsame) as Hcontent.
  pose proof Hsame as (_ & _ & _ & Htot).
  subst count start len. cbv zeta.
  rewrite buffer_line_count_rebuild. cbn [fst].
  rewrite (buffer_line_start_rebuild b) by assumption.
  rewrite (buffer_line_length_rebuild b) by assumption.
  rewrite (buffer_get_line_rebuild b) by assumption.
  set (b' := rebuild_line_cache b) in *.
  split.
  - intros Hbeyond. unfold buffer_get_line.
    rewrite (rebuild_line_cache_clean b' Hd).
    destruct (Z.leb_spec (line_count b') n); [reflexivity | lia].
  - intros Hin.
    destruct (buffer_get_line_clean b' n Hok' Hd)
      as (s & len & ln & H1 & H2 & H3 & Hs & Hlen & Hbound & Hnone & _
          & Hfull);
      [lia |].
    exists ln. rewrite H1, H2, H3. cbn [fst].
    split; [reflexivity |]. split; [exact Hnone |].
    rewrite buffer_get_text_spec by (try assumption; lia).
    rewrite <- Hcontent, Hfull. reflexivity.
Qed.

Lemma buffer_get_line_contents_witness :
  let count := fst (buffer_line_count three_lines) in
  let start := fst (buffer_line_start three_lines 1) in
  let len := fst (buffer_line_length three_lines 1) in
  (count <= 1 -> fst (buffer_get_line three_lines 1) = None) /\
  (1 < count ->
   exists ln,
     fst (buffer_get_line three_lines 1) = Some ln /\
     ~ In NEWLINE ln /\
     buffer_get_text three_lines start len
     = Some (ln ++ (if 1 + 1 <? count then [NEWLINE] else []))).
Proof.
  apply (buffer_get_line_contents three_lines 1).
  - apply buf_okb_ok. vm_compute. reflexivity.
  - unfold is_size. rewrite SIZE_MOD_eq. lia.
Defined.

(** ** Positions, lines and columns *)

Lemma line_starts_loop_range (text : list byte) :
  forall i T x,
    0 <= i -> i + zlen text < SIZE_MOD ->
    In x (line_starts_loop text i T) -> i < x <= i + zlen text.
Proof.
  induction text as [| c text IH]; intros i T x Hi Hfit Hin.
  - destruct Hin.
  - rewrite zlen_cons in *. pose proof (zlen_nonneg text).
    cbn [line_starts_loop] in Hin.
    rewrite (sz_add_small i 1) in Hin by lia.
    destruct (Byte.eqb c NEWLINE && (i + 1 <=? T)).
    + destruct Hin as [<- | Hin]; [lia |].
      specialize (IH (i + 1) T x ltac:(lia) ltac:(lia) Hin). lia.
    + specialize (IH (i + 1) T x ltac:(lia) ltac:(lia) Hin). lia.
Qed.

Lemma line_starts_loop_app (t1 t2 : list byte) :
  forall i T,
    0 <= i -> i + zlen t1 < SIZE_MOD ->
    line_starts_loop (t1 ++ t2) i T
    = line_starts_loop t1 i T ++ line_starts_loop t2 (i + zlen t1) T.
Proof.
  induction t1 as [| c t1 IH]; intros i T Hi Hfit.
  - rewrite (@zlen_nil byte). cbn [app line_starts_loop].
    f_equal. lia.
  - rewrite zlen_cons in *. pose proof (zlen_nonneg t1).
    cbn [app line_starts_loop].
    rewrite (sz_add_small i 1) by lia.
    rewrite IH by lia.
    replace (i + 1 + zlen t1) with (i + (1 + zlen t1)) by lia.
    destruct (Byte.eqb c NEWLINE && (i + 1 <=? T)); reflexivity.
Qed.

Lemma last_cons (a d : Z) (l : list Z) : last (a :: l) d = last l a.
Proof.
  revert a d. induction l as [| x l IH]; intros a d; [reflexivity |].
  change (last (a :: x :: l) d) with (last (x :: l) d).
  rewrite (IH x d), (IH x a). reflexivity.
Qed.

(** The loop of [buffer_pos_to_line_col] stops at the last line start
    that is not above the position. *)
Lemma pos_to_line_col_loop_locate (L1 : list Z) :
  forall s L2 i p line col,
    Forall (fun x => 0 <= x <= p) (s :: L1) ->
    match L2 with
    | [] => True
    | nx :: _ => p < nx
    end ->
    0 <= i -> i + zlen L1 + 1 < SIZE_MOD -> p < SIZE_MOD ->
    pos_to_line_col_loop (s :: L1 ++ L2) i p line col
    = (i + zlen L1, p - last (s :: L1) 0).
Proof.
  induction L1 as [| a L1 IH]; intros s L2 i p line col Hall Hnext Hi Hfit Hp.
  - apply Forall_inv in Hall. cbv beta in Hall.
    rewrite (@zlen_nil Z). cbn [app last].
    destruct L2 as [| nx L2].
    + cbn [pos_to_line_col_loop].
      destruct (Z.leb_spec s p); [| lia].
      rewrite (sz_sub_small p s) by lia. f_equal. lia.
    + cbn [pos_to_line_col_loop].
      destruct (Z.leb_spec nx p); [lia |].
      destruct (Z.leb_spec s p); [| lia].
      rewrite (sz_sub_small p s) by lia. f_equal. lia.
  - rewrite zlen_cons in *. pose proof (zlen_nonneg L1).
    pose proof (Forall_inv_tail Hall) as Hall'.
    pose proof (Forall_inv Hall') as Ha. cbv beta in Ha.
    cbn [app]. rewrite pos_to_line_col_loop_next.
    destruct (Z.leb_spec a p); [| lia].
    rewrite (sz_add_small i 1) by lia.
    rewrite (IH a L2 (i + 1) p (i + 1) (sz_sub p a)) by (try assumption; lia).
    change (last (s :: a :: L1) 0) with (last (a :: L1) 0).
    f_equal. lia.
Qed.

Lemma line_col_scan_starts (text : list byte) :
  forall i T s l,
    0 <= i -> i + zlen text <= T -> T < SIZE_MOD ->
    line_col_scan text l (i - s)
    = (l + zlen (line_starts_loop text i T),
       i + zlen text - last (line_starts_loop text i T) s).
Proof.
  induction text as [| c text IH]; intros i T s l Hi Hfit HT.
  - rewrite (@zlen_nil byte). cbn [line_col_scan line_starts_loop last].
    rewrite (@zlen_nil Z). f_equal; lia.
  - rewrite zlen_cons in *. pose proof (zlen_nonneg text).
    cbn [line_col_scan line_starts_loop].
    rewrite (sz_add_small i 1) by lia.
    destruct (Z.leb_spec (i + 1) T); [| lia].
    destruct (Byte.eqb c NEWLINE); cbn [andb].
    + replace 0 with (i + 1 - (i + 1)) at 1 by lia.
      rewrite (IH (i + 1) T (i + 1) (l + 1)) by lia.
      rewrite zlen_cons, last_cons. f_equal; lia.
    + replace (i - s + 1) with (i + 1 - s) by lia.
      rewrite (IH (i + 1) T s l) by lia. f_equal; lia.
Qed.

(** What [buffer_pos_to_line_col] returns on a buffer whose cache is
    clean, read off the line starts at or below the position. *)
Lemma pos_to_line_col_clean (b : Buffer) (p : Z) (pre : list Z) (s : Z)
    (post : list Z) :
  buf_ok b -> lines_dirty b = false ->
  line_starts b = pre ++ s :: post ->
  s <= p < SIZE_MOD ->
  match post with
  | [] => True
  | nx :: _ => p < nx
  end ->
  buffer_pos_to_line_col b p = ((zlen pre, p - s), b).
Proof.
  intros Hok Hd Hsplit Hp Hnext.
  pose proof (total_length_range b Hok) as Ht.
  pose proof (clean_lines_ok b Hok Hd) as Hl.
  destruct (lines_ok_count b Hl) as (Hcount & Hcr).
  destruct Hl as (rest & Hls & Hchain & _).
  assert (Hsorted : Forall (fun x => 0 <= x <= p) (pre ++ [s])).
  { apply Forall_forall. intros x Hin. apply in_app_or in Hin.
    assert (Hs0 : 0 <= s).
    { destruct pre as [| a pre].
      - rewrite Hls in Hsplit. cbn [app] in Hsplit. injection Hsplit. lia.
      - rewrite Hls in Hsplit. cbn [app] in Hsplit.
        injection Hsplit as <- Hrest. rewrite Hrest in Hchain.
        pose proof (chain_app pre 0 s post _ Hchain). lia. }
    destruct Hin as [Hin | [<- | []]]; [| lia].
    destruct pre as [| a pre]; [destruct Hin |].
    rewrite Hls in Hsplit. cbn [app] in Hsplit.
    injection Hsplit as <- Hrest. rewrite Hrest in Hchain.
    destruct Hin as [<- | Hin]; [lia |].
    pose proof (chain_before pre 0 s post _ x Hchain Hin) as Hlt.
    rewrite <- Hrest in Hchain.
    assert (Hin' : In x rest).
    { rewrite Hrest. apply in_or_app. left. exact Hin. }
    pose proof (chain_in rest 0 _ x Hchain Hin'). lia. }
  unfold buffer_pos_to_line_col.
  rewrite (rebuild_line_cache_clean b Hd).
  rewrite ztake_all by lia.
  rewrite Hsplit.
  assert (Hlen : zlen pre + 1 + zlen post = line_count b).
  { rewrite Hcount, Hsplit, zlen_app, zlen_cons. lia. }
  pose proof (zlen_nonneg pre). pose proof (zlen_nonneg post).
  replace (pre ++ s :: post) with ((pre ++ [s]) ++ post)
    by (rewrite <- app_assoc; reflexivity).
  destruct pre as [| a pre].
  - cbn [app] in *. rewrite (@zlen_nil Z) in *.
    pose proof (pos_to_line_col_loop_locate [] s post 0 p 0 p Hsorted Hnext)
      as Hloc.
    rewrite (@zlen_nil Z) in Hloc. cbn [app last] in Hloc.
    rewrite Hloc by lia. reflexivity.
  - cbn [app] in *. rewrite zlen_cons in *.
    rewrite (pos_to_line_col_loop_locate (pre ++ [s]) a post 0 p 0 p);
      try assumption; try lia.
    + rewrite zlen_app, zlen_cons, (@zlen_nil Z).
      change (last (a :: pre ++ [s]) 0) with (last ((a :: pre) ++ [s]) 0).
      rewrite last_last. f_equal. f_equal. lia.
    + rewrite zlen_app, zlen_cons, (@zlen_nil Z). lia.
Qed.

Lemma buffer_pos_to_line_col_rebuild (b : Buffer) (p : Z) :
  buf_ok b ->
  buffer_pos_to_line_col b p
  = buffer_pos_to_line_col (rebuild_line_cache b) p.
Proof.
  intros Hok.
  destruct (rebuild_line_cache_spec b Hok) as (_ & Hd & _).
  unfold buffer_pos_to_line_col.
  rewrite (rebuild_line_cache_clean (rebuild_line_cache b) Hd).
  reflexivity.
Qed.

Lemma pos_to_line_col_scan_clean (b : Buffer) (p : Z) :
  buf_ok b -> lines_dirty b = false -> 0 <= p <= total_length b ->
  buffer_pos_to_line_col b p
  = (line_col_scan (ztake p (content b)) 0 0, b).
Proof.
  intros Hok Hd Hp.
  pose proof (total_length_range b Hok) as Ht.
  pose proof (content_length b Hok) as Hc.
  pose proof Hok as (_ & _ & _ & _ & Hcache).
  destruct (Hcache Hd) as (Hls & _).
  set (t1 := ztake p (content b)).
  set (t2 := zdrop p (content b)).
  assert (Hz1 : zlen t1 = p) by (apply zlen_ztake; lia).
  assert (Happ : content b = t1 ++ t2)
    by (symmetry; apply ztake_zdrop).
  set (T := total_length b) in *.
  set (L1 := line_starts_loop t1 0 T).
  set (L2 := line_starts_loop t2 p T).
  assert (Hstarts : line_starts b = 0 :: L1 ++ L2).
  { rewrite Hls, Happ, line_starts_loop_app by lia.
    rewrite Hz1. reflexivity. }
  assert (HL1 : Forall (fun x => 0 <= x <= p) (0 :: L1)).
  { constructor; [lia |]. apply Forall_forall. intros x Hin.
    pose proof (line_starts_loop_range t1 0 T x ltac:(lia) ltac:(lia) Hin).
    lia. }
  assert (HL2 : match L2 with [] => True | nx :: _ => p < nx end).
  { destruct L2 as [| nx L2'] eqn:E; [exact I |].
    assert (Hin : In nx (line_starts_loop t2 p T))
      by (fold L2; rewrite E; left; reflexivity).
    assert (Hz2 : zlen t2 = T - p) by (unfold t2; rewrite zlen_zdrop; lia).
    pose proof (line_starts_loop_range t2 p T nx ltac:(lia) ltac:(lia) Hin).
    lia. }
  pose proof (clean_lines_ok b Hok Hd) as Hl.
  destruct (lines_ok_count b Hl) as (Hcount & Hcr).
  unfold buffer_pos_to_line_col.
  rewrite (rebuild_line_cache_clean b Hd).
  rewrite ztake_all by lia.
  rewrite Hstarts.
  assert (HzL : zlen L1 + 1 + zlen L2 = line_count b).
  { rewrite Hcount, Hstarts, zlen_cons, zlen_app. lia. }
  pose proof (zlen_nonneg L1). pose proof (zlen_nonneg L2).
  rewrite (pos_to_line_col_loop_locate L1 0 L2 0 p 0 p);
    try assumption; try lia.
  f_equal.
  pose proof (line_col_scan_starts t1 0 T 0 0 ltac:(lia) ltac:(lia)
                ltac:(lia)) as Hscan.
  change (0 - 0) with 0 in Hscan. rewrite Hscan. fold L1.
  rewrite last_cons, Hz1. f_equal.
Qed.

(** X11: for a position p inside the document or at its end, the line
    and column that buffer_pos_to_line_col returns are those reached by
    reading the first p bytes of the document from line 0, column 0,
    where a newline starts the next line at column 0 and any other byte
    advances the column: the line is the number of newlines before p and
    the column the number of bytes after the last of them. *)
Theorem pos_to_line_col_scans_prefix (b : Buffer) (p : Z)
    (doc : list byte) :
  buf_ok b -> buffer_get_all b = Some doc ->
  0 <= p <= buffer_length b ->
  fst (buffer_pos_to_line_col b p) = line_col_scan (ztake p doc) 0 0 /\
  fst (fst (buffer_pos_to_line_col b p)) = count_newlines (ztake p doc).
Proof.
  intros Hok Hall Hp. unfold buffer_length in Hp.
  destruct (get_all_is_content b doc Hok Hall) as [-> Hlen].
  destruct (rebuild_line_cache_spec b Hok) as (Hok' & Hd & Hsame).
  pose proof Hsame as (_ & _ & _ & Htot).
  pose proof (total_length_range b Hok) as Ht.
  rewrite buffer_pos_to_line_col_rebuild by assumption.
  rewrite pos_to_line_col_scan_clean by (try assumption; lia).
  cbn [fst]. rewrite (same_doc_content b _ Hsame).
  split; [reflexivity |].
  pose proof (line_col_scan_starts (ztake p (content b)) 0
                (total_length b) 0 0) as Hscan.
  pose proof (zlen_ztake_le p (content b)) as Hle.
  change (0 - 0) with 0 in Hscan.
  rewrite Hscan by lia. cbn [fst].
  rewrite line_starts_loop_length by lia. lia.
Qed.

Lemma pos_to_line_col_scans_prefix_witness :
  fst (buffer_pos_to_line_col three_lines 4)
  = line_col_scan (ztake 4 (bytes "ab
cd
ef")) 0 0 /\
  fst (fst (buffer_pos_to_line_col three_lines 4))
  = count_newlines (ztake 4 (bytes "ab
cd
ef")).
Proof.
  apply (pos_to_line_col_scans_prefix three_lines 4).
  - apply buf_okb_ok. vm_compute. reflexivity.
  - vm_compute. reflexivity.
  - vm_compute. split; discriminate.
Defined.

(** Line [l], column [c] of a clean buffer, for a column inside the
    line. *)
Lemma line_col_locate_clean (b : Buffer) (l c : Z) :
  buf_ok b -> lines_dirty b = false ->
  0 <= l < line_count b -> 0 <= c ->
  (c < fst (buffer_line_length b l)
   \/ (l + 1 = line_count b /\ c <= fst (buffer_line_length b l))) ->
  buffer_pos_to_line_col b (fst (buffer_line_start b l) + c) = ((l, c), b).
Proof.
  intros Hok Hd Hl Hc Hcol.
  pose proof (total_length_range b Hok) as Ht.
  pose proof (clean_lines_ok b Hok Hd) as Hlines.
  destruct (line_entry b l Hlines Hl)
    as (pre & s & post & Hsplit & Hpre & Hs & Hch & Hcount & _).
  destruct (line_extent_clean b l Hok Hd Hl)
    as (s' & len & H1 & H2 & Hat & _ & Hlen & Hbound & _ & Hnext & Hlast).
  pose proof (line_starts_at_entry b pre s post Hsplit) as Hat'.
  rewrite Hpre, Hat in Hat'. subst s'.
  rewrite H1, H2 in *. cbn [fst] in *.
  rewrite Hat' in Hlast, Hnext, Hbound |- *.
  rewrite (pos_to_line_col_clean b (s + c) pre s post);
    try assumption; try lia.
  - rewrite Hpre. f_equal. f_equal. lia.
  - destruct post as [| nx post]; [exact I |].
    rewrite zlen_cons in Hcount. pose proof (zlen_nonneg post).
    pose proof (line_starts_at_next b pre s nx post Hsplit) as Hnx.
    rewrite Hpre in Hnx.
    destruct (Hnext ltac:(lia)) as [_ Heq]. lia.
Qed.

(** X12: for an existing line l and a column c inside it (below the
    length of the line, or at most the length on the last line),
    buffer_line_col_to_pos returns the start of the line plus c, and
    buffer_pos_to_line_col maps that position back to (l, c). *)
Theorem line_col_pos_round_trip (b : Buffer) (l c : Z) :
  buf_ok b -> is_size l -> is_size c ->
  let count := fst (buffer_line_count b) in
  let len := fst (buffer_line_length b l) in
  l < count ->
  (c < len \/ (l + 1 = count /\ c <= len)) ->
  let p := fst (buffer_line_col_to_pos b l c) in
  p = fst (buffer_line_start b l) + c /\
  fst (buffer_pos_to_line_col b p) = (l, c).
Proof.
  intros Hok [Hl0 Hl1] [Hc0 Hc1] count len Hl Hcol p.
  destruct (rebuild_line_cache_spec b Hok) as (Hok' & Hd & Hsame).
  subst count len p.
  rewrite buffer_line_count_rebuild in *. cbn [fst] in Hl, Hcol.
  rewrite (buffer_line_length_rebuild b) in * by assumption.
  rewrite (buffer_line_start_rebuild b) by assumption.
  destruct (buffer_line_col_to_pos_spec b l c Hok)
    as (s & len & H1 & H2 & H3 & Hl' & Hs & Hlen & Hbound & _);
    [unfold is_size in *; lia .. |].
  set (b' := rebuild_line_cache b) in *.
  rewrite (Z.min_l l (line_count b' - 1)) in * by lia.
  rewrite H3, H1. rewrite H2 in Hcol. cbn [fst] in *.
  rewrite (Z.min_l c len) by lia.
  split; [reflexivity |].
  rewrite buffer_pos_to_line_col_rebuild by assumption. fold b'.
  pose proof (line_col_locate_clean b' l c Hok' Hd ltac:(lia) Hc0) as Hloc.
  rewrite H1, H2 in Hloc. cbn [fst] in Hloc.
  rewrite Hloc by exact Hcol. reflexivity.
Qed.

Lemma line_col_pos_round_trip_witness :
  let p := fst (buffer_line_col_to_pos three_lines 1 2) in
  p = fst (buffer_line_start three_lines 1) + 2 /\
  fst (buffer_pos_to_line_col three_lines p) = (1, 2).
Proof.
  apply (line_col_pos_round_trip three_lines 1 2).
  - apply buf_okb_ok. vm_compute. reflexivity.
  - unfold is_size. rewrite SIZE_MOD_eq. lia.
  - unfold is_size. rewrite SIZE_MOD_eq. lia.
  - vm_compute. reflexivity.
  - left. vm_compute. reflexivity.
Defined.

(** * Searching backwards *)

Lemma find_prev_loop_spec (doc needle : list byte) :
  forall (fuel : nat) (i : Z),
    pattern_ok needle -> zlen doc < SIZE_MOD / 2 ->
    0 <= i < SIZE_MOD -> i < Z.of_nat fuel ->
    let r := find_prev_loop fuel doc needle i (zlen needle) in
    (r = -1 /\ forall j, j <= i -> ~ occurs_at doc needle j)
    \/ (0 <= r <= i /\ occurs_at doc needle r /\
        forall j, r < j <= i -> ~ occurs_at doc needle j).
Proof.
  induction fuel as [| fuel IH]; intros i Hpat Hdoc Hi Hfuel; [lia |].
  pose proof Hpat as (Hne & Hnul & _).
  cbn [find_prev_loop]. cbv zeta.
  destruct (strncmp_eq (zdrop i doc) needle (Z.to_nat (zlen needle))) eqn:Hcmp.
  - apply strncmp_eq_occurs in Hcmp; [| assumption | lia].
    pose proof (occurs_at_range _ _ _ Hcmp Hne) as (_ & Hr).
    pose proof (pattern_ok_length _ Hpat).
    rewrite to_long_small by lia.
    right. split; [lia |]. split; [exact Hcmp |]. intros j Hj. lia.
  - assert (Hnot : ~ occurs_at doc needle i).
    { intros Hocc. apply strncmp_eq_occurs in Hocc; [| assumption | lia].
      congruence. }
    destruct (Z.eqb_spec i 0) as [-> | Hi0].
    + left. split; [reflexivity |]. intros j Hj Hocc.
      destruct (Z.eq_dec j 0) as [-> | Hj0]; [exact (Hnot Hocc) |].
      destruct Hocc as [Hj' _]. lia.
    + rewrite (sz_sub_small i 1) by lia.
      specialize (IH (i - 1) Hpat Hdoc ltac:(lia) ltac:(lia)).
      cbv zeta in IH.
      destruct IH as [(Hr & Hno) | (Hr & Hocc & Hno)].
      * left. split; [exact Hr |]. intros j Hj Hocc.
        destruct (Z.eq_dec j i) as [-> | Hji]; [exact (Hnot Hocc) |].
        apply (Hno j); [lia | exact Hocc].
      * right. split; [lia |]. split; [exact Hocc |]. intros j Hj Hoccj.
        destruct (Z.eq_dec j i) as [-> | Hji]; [exact (Hnot Hoccj) |].
        apply (Hno j); [lia | exact Hoccj].
Qed.

Lemma buffer_find_prev_spec (b : Buffer) (start : Z) (pat : list byte) :
  buf_ok b -> pattern_ok pat -> total_length b < SIZE_MOD / 2 ->
  is_size start ->
  let r := buffer_find_prev b start (Some pat) in
  (r = -1 /\ forall j, j + zlen pat <= start -> ~ occurs_at (content b) pat j)
  \/ last_occurrence (content b) pat start r.
Proof.
  intros Hok Hpat Ht [Hs0 Hs1]. pose proof Hpat as (Hne & Hnul & _).
  pose proof (pattern_ok_length _ Hpat) as Hpos.
  unfold buffer_find_prev. rewrite Hnul.
  destruct (Z.eqb_spec (zlen pat) 0); [lia |]. cbn [orb].
  destruct (Z.ltb_spec start (zlen pat)) as [Hshort | Hlong].
  - left. split; [reflexivity |]. intros j Hj [Hj0 _]. lia.
  - rewrite buffer_get_all_content by assumption.
    rewrite (sz_sub_small start (zlen pat)) by lia.
    pose proof (find_prev_loop_spec (content b) pat
                  (S (Z.to_nat (start - zlen pat))) (start - zlen pat) Hpat)
      as Hloop.
    rewrite content_length in Hloop by assumption.
    specialize (Hloop Ht ltac:(lia) ltac:(lia)). cbv zeta in Hloop.
    destruct Hloop as [(Hr & Hno) | (Hr & Hocc & Hno)].
    + left. split; [exact Hr |]. intros j Hj. apply Hno. lia.
    + right. split; [exact Hocc |]. split; [lia |].
      intros j Hj1 Hj2. apply Hno. lia.
Qed.

Lemma last_occurrence_unique (doc pat : list byte) (upto i j : Z) :
  last_occurrence doc pat upto i -> last_occurrence doc pat upto j ->
  i = j.
Proof.
  intros (Hoi & Hbi & Hni) (Hoj & Hbj & Hnj).
  destruct (Z.lt_trichotomy i j) as [Hlt | [Heq | Hgt]]; [| exact Heq |].
  - exfalso. exact (Hni j Hlt Hbj Hoj).
  - exfalso. exact (Hnj i Hgt Hbi Hoi).
Qed.



(** X14: with a non-empty stored pattern, the cursor inside a document
    shorter than 2 GiB: search_prev moves the cursor to the last
    occurrence of the pattern that ends at or before the cursor; when
    there is none it wraps around to the last occurrence in the
    document; it returns 1 in both cases, with the bytes read at the new
    cursor equal to the pattern; and when the pattern occurs nowhere it
    returns 0 and changes nothing. *)
Theorem search_prev_finds (st : Editor) (b : Buffer) :
  g_buffer st = Some b -> buf_ok b ->
  pattern_ok (g_search_pattern st) ->
  0 <= position (g_cursor st) <= buffer_length b ->
  buffer_length b < SIZE_MOD / 2 ->
  let doc := content b in
  let pat := g_search_pattern st in
  let p := position (g_cursor st) in
  (forall i, last_occurrence doc pat p i ->
     exists st', search_prev st = (1, st') /\ cursor_on_match st' doc pat i)
  /\
  ((forall j, j + zlen pat <= p -> ~ occurs_at doc pat j) ->
   forall i, last_occurrence doc pat (buffer_length b) i ->
     exists st', search_prev st = (1, st') /\ cursor_on_match st' doc pat i)
  /\
  ((forall j, ~ occurs_at doc pat j) -> search_prev st = (0, st)).
Proof.
  intros Hb Hok Hpat Hpos Hlen doc pat p. unfold buffer_length in *.
  pose proof SIZE_MOD_eq as HM.
  assert (Hhalf : SIZE_MOD / 2 = 2147483648) by (rewrite HM; reflexivity).
  pose proof (buffer_find_prev_spec b p pat Hok Hpat Hlen) as Hprev.
  pose proof (buffer_find_prev_spec b (total_length b) pat Hok Hpat Hlen)
    as Hwrap.
  specialize (Hprev ltac:(subst p; unfold is_size; lia)).
  specialize (Hwrap ltac:(unfold is_size; lia)).
  cbv zeta in Hprev, Hwrap. fold doc in Hprev, Hwrap.
  assert (Hunfold :
    search_prev st
    = if 0 <=? buffer_find_prev b p (Some pat)
      then move_to_match st (buffer_find_prev b p (Some pat))
      else if 0 <=? buffer_find_prev b (total_length b) (Some pat)
           then move_to_match st
                  (buffer_find_prev b (total_length b) (Some pat))
           else (0, st)).
  { unfold search_prev. rewrite Hb, (pattern_ok_head _ Hpat).
    reflexivity. }
  assert (Hhit : forall upto r,
             last_occurrence doc pat upto r ->
             (0 <=? r) = true /\
             exists st', move_to_match st r = (1, st')
                         /\ cursor_on_match st' doc pat r).
  { intros upto r (Hocc & _). split.
    - apply Z.leb_le. destruct Hocc as [Hr _]. exact Hr.
    - apply search_hit; assumption. }
  split; [| split].
  - intros i Hi. destruct Hprev as [(_ & Hno) | Hlast].
    + exfalso. destruct Hi as (Hocc & Hend & _). exact (Hno i Hend Hocc).
    + rewrite (last_occurrence_unique _ _ _ _ _ Hi Hlast).
      destruct (Hhit _ _ Hlast) as (Hle & Hres).
      rewrite Hunfold, Hle. exact Hres.
  - intros Hnone i Hi. destruct Hprev as [(Hr & _) | (Hocc & Hend & _)].
    + destruct Hwrap as [(_ & Hno) | Hlast].
      * exfalso. destruct Hi as (Hocc & Hend & _). exact (Hno i Hend Hocc).
      * rewrite (last_occurrence_unique _ _ _ _ _ Hi Hlast).
        destruct (Hhit _ _ Hlast) as (Hle & Hres).
        rewrite Hunfold, Hr, Hle. exact Hres.
    + exfalso. exact (Hnone _ Hend Hocc).
  - intros Hnone.
    destruct Hprev as [(Hr & _) | (Hocc & _)];
      [| exfalso; exact (Hnone _ Hocc)].
    destruct Hwrap as [(Hr0 & _) | (Hocc & _)];
      [| exfalso; exact (Hnone _ Hocc)].
    rewrite Hunfold, Hr, Hr0. reflexivity.
Qed.

Lemma search_prev_finds_witness :
  exists st',
    search_prev needle_editor = (1, st') /\
    cursor_on_match st' (bytes "find the needle in the haystack")
      (bytes "the") 19.
Proof.
  pose (b := buffer_create (Some (bytes "find the needle in the haystack"))).
  assert (Hok : buf_ok b) by (apply buf_okb_ok; vm_compute; reflexivity).
  assert (Hpat : pattern_ok (g_search_pattern needle_editor)).
  { split; [discriminate |]. split; [vm_compute; reflexivity |].
    vm_compute. discriminate. }
  assert (Hpos : 0 <= position (g_cursor needle_editor) <= buffer_length b)
    by (vm_compute; split; discriminate).
  assert (Hlen : buffer_length b < SIZE_MOD / 2) by (vm_compute; reflexivity).
  destruct (search_prev_finds needle_editor b eq_refl Hok Hpat Hpos Hlen)
    as (_ & Hwrap & _).
  apply Hwrap.
  - intros j Hj (Hj0 & _).
    change (position (g_cursor needle_editor)) with 0 in Hj.
    change (zlen (g_search_pattern needle_editor)) with 3 in Hj. lia.
  - split; [split; [lia | vm_compute; reflexivity] |].
    split; [vm_compute; discriminate |].
    intros j Hlt Hend (_ & Hocc).
    change (zlen (g_search_pattern needle_editor)) with 3 in Hend.
    change (buffer_length b) with 31 in Hend.
    assert (Hcases : j = 20 \/ j = 21 \/ j = 22 \/ j = 23 \/ j = 24
                     \/ j = 25 \/ j = 26 \/ j = 27 \/ j = 28) by lia.
    destruct Hcases as [-> | [-> | [-> | [-> | [-> | [-> | [-> | [-> | ->]]]]]]]];
      vm_compute in Hocc; discriminate Hocc.
Defined.

(** * Further properties of the editor *)

(** ** What moving the cursor leaves alone *)

Lemma rebuild_same_doc (b : Buffer) : same_doc b (rebuild_line_cache b).
Proof.
  unfold rebuild_line_cache.
  destruct (negb (lines_dirty b)); [apply same_doc_refl |].
  destruct (buffer_get_all b); [| apply same_doc_refl].
  repeat split.
Qed.

Lemma rebuild_idem (b : Buffer) :
  rebuild_line_cache (rebuild_line_cache b) = rebuild_line_cache b.
Proof.
  assert (H : rebuild_line_cache b = b
              \/ lines_dirty (rebuild_line_cache b) = false).
  { unfold rebuild_line_cache.
    destruct (lines_dirty b) eqn:Hd; cbn [negb]; [| left; reflexivity].
    destruct (buffer_get_all b); [right | left]; reflexivity. }
  destruct H as [H | H].
  - rewrite H. exact H.
  - apply rebuild_line_cache_clean. exact H.
Qed.

Lemma get_text_loop_storage (b b' : Buffer) (ps : list Piece) :
  forall start length written cur result,
    original b' = original b -> add_buffer b' = add_buffer b ->
    get_text_loop b' ps start length written cur result
    = get_text_loop b ps start length written cur result.
Proof.
  induction ps as [| p ps IH]; intros start length written cur result Ho Ha;
    [reflexivity |].
  cbn [get_text_loop].
  assert (Hs : storage b' (piece_source p) = storage b (piece_source p)).
  { destruct (piece_source p); cbn [storage]; assumption. }
  rewrite Hs.
  destruct (written <? length); [| reflexivity].
  destruct (start <? sz_add cur (piece_length p)); apply IH; assumption.
Qed.

Lemma same_doc_get_text (b b' : Buffer) (start length : Z) :
  same_doc b b' ->
  buffer_get_text b' start length = buffer_get_text b start length.
Proof.
  intros (Ho & Ha & Hp & Ht). unfold buffer_get_text.
  rewrite Ht, Hp.
  rewrite (get_text_loop_storage b b') by assumption. reflexivity.
Qed.

Lemma buffer_line_count_doc (b : Buffer) :
  snd (buffer_line_count b) = rebuild_line_cache b.
Proof. reflexivity. Qed.

Lemma buffer_line_start_doc (b : Buffer) (n : Z) :
  snd (buffer_line_start b n) = rebuild_line_cache b.
Proof.
  unfold buffer_line_start.
  destruct (line_count (rebuild_line_cache b) <=? n); reflexivity.
Qed.

Lemma buffer_line_length_doc (b : Buffer) (n : Z) :
  snd (buffer_line_length b n) = rebuild_line_cache b.
Proof.
  unfold buffer_line_length.
  destruct (line_count (rebuild_line_cache b) <=? n); reflexivity.
Qed.

Lemma same_text_refl (st : Editor) : same_text st st.
Proof.
  unfold same_text. destruct (g_buffer st); [apply same_doc_refl | exact I].
Qed.

Lemma same_text_trans (st1 st2 st3 : Editor) :
  same_text st1 st2 -> same_text st2 st3 -> same_text st1 st3.
Proof.
  unfold same_text.
  destruct (g_buffer st1), (g_buffer st2), (g_buffer st3);
    try tauto.
  apply same_doc_trans.
Qed.

Lemma same_text_get_all (st st' : Editor) :
  same_text st st' ->
  get_all_text st' = get_all_text st /\
  get_buffer_length st' = get_buffer_length st.
Proof.
  unfold same_text, get_all_text, get_buffer_length.
  destruct (g_buffer st) as [b |], (g_buffer st') as [b' |];
    try tauto.
  intros Hsame. split.
  - unfold buffer_get_all. pose proof Hsame as (_ & _ & _ & Ht).
    rewrite Ht. apply same_doc_get_text. exact Hsame.
  - apply same_doc_buf_length. exact Hsame.
Qed.

Lemma cursor_moved_refl (st : Editor) : cursor_moved st st.
Proof. split; [apply same_text_refl | repeat split]. Qed.

Lemma moved_cursor (st st' : Editor) (c : Cursor) :
  cursor_moved st st' -> cursor_moved st (with_cursor st' c).
Proof. intros H. exact H. Qed.

Lemma moved_position (st st' : Editor) (p : Z) :
  cursor_moved st st' -> cursor_moved st (with_position st' p).
Proof. intros H. exact H. Qed.

Lemma moved_preferred (st st' : Editor) (c : Z) :
  cursor_moved st st' -> cursor_moved st (with_preferred_column st' c).
Proof. intros H. exact H. Qed.

Lemma moved_sync (st st' : Editor) :
  cursor_moved st st' -> cursor_moved st (sync_preferred_column st').
Proof. intros H. exact H. Qed.

Lemma moved_update (st st' : Editor) :
  cursor_moved st st' -> cursor_moved st (update_cursor_line_col st').
Proof.
  intros (Htext & Hm & Hs & Hh & Hp).
  destruct (update_cursor_line_col_frame st') as (Hm' & Hs' & Hh' & Hp' & _).
  split; [| repeat split; congruence].
  apply (same_text_trans st st'); [exact Htext |].
  unfold same_text. rewrite update_cursor_line_col_buffer.
  destruct (g_buffer st') as [b |]; cbn [option_map];
    [apply rebuild_same_doc | exact I].
Qed.

Lemma moved_buffer (st st' : Editor) (b b' : Buffer) :
  g_buffer st' = Some b -> same_doc b b' ->
  cursor_moved st st' -> cursor_moved st (with_buffer st' (Some b')).
Proof.
  intros Hb Hsame (Htext & Hrest).
  split; [| exact Hrest].
  apply (same_text_trans st st'); [exact Htext |].
  unfold same_text. rewrite Hb. exact Hsame.
Qed.

Lemma moved_clamp (st st' : Editor) :
  cursor_moved st st' -> cursor_moved st (clamp_cursor st').
Proof.
  intros H. unfold clamp_cursor.
  destruct (g_buffer st') as [b |]; [| exact H].
  apply moved_update.
  destruct (buffer_length b <? position (g_cursor st')); exact H.
Qed.

Create HintDb moved.

#[local] Hint Resolve cursor_moved_refl moved_cursor moved_position
  moved_preferred moved_sync moved_update moved_clamp : moved.

Lemma motion_h_moved (st : Editor) : cursor_moved st (motion_h st).
Proof.
  unfold motion_h. destruct (0 <? position (g_cursor st)); auto with moved.
Qed.

Lemma motion_l_moved (st : Editor) : cursor_moved st (motion_l st).
Proof.
  unfold motion_l. destruct (g_buffer st) as [b |]; auto with moved.
  destruct (position (g_cursor st) <? buffer_length b); auto with moved.
Qed.

Lemma motion_j_moved (st : Editor) : cursor_moved st (motion_j st).
Proof.
  unfold motion_j. destruct (g_buffer st) as [b |] eqn:Hb; auto with moved.
  pose proof (buffer_line_count_doc b) as H1.
  destruct (buffer_line_count b) as [lc b1]. cbn [snd] in H1. subst b1.
  assert (Hst1 : cursor_moved st
                   (with_buffer st (Some (rebuild_line_cache b)))).
  { apply (moved_buffer st st b); auto with moved. apply rebuild_same_doc. }
  destruct (lc <=? _); [exact Hst1 |].
  match goal with
  | |- context [buffer_line_start ?x ?n] =>
      pose proof (buffer_line_start_doc x n) as H2;
      destruct (buffer_line_start x n) as [s b2]
  end.
  cbn [snd] in H2. subst b2.
  match goal with
  | |- context [buffer_line_length ?x ?n] =>
      pose proof (buffer_line_length_doc x n) as H3;
      destruct (buffer_line_length x n) as [len b3]
  end.
  cbn [snd] in H3. subst b3. rewrite !rebuild_idem.
  apply moved_update, moved_position.
  apply (moved_buffer st _ (rebuild_line_cache b));
    [reflexivity | apply same_doc_refl | exact Hst1].
Qed.

Lemma motion_k_moved (st : Editor) : cursor_moved st (motion_k st).
Proof.
  unfold motion_k. destruct (g_buffer st) as [b |] eqn:Hb; auto with moved.
  destruct (line (g_cursor st) =? 0); auto with moved.
  match goal with
  | |- context [buffer_line_start ?x ?n] =>
      pose proof (buffer_line_start_doc x n) as H2;
      destruct (buffer_line_start x n) as [s b2]
  end.
  cbn [snd] in H2. subst b2.
  match goal with
  | |- context [buffer_line_length ?x ?n] =>
      pose proof (buffer_line_length_doc x n) as H3;
      destruct (buffer_line_length x n) as [len b3]
  end.
  cbn [snd] in H3. subst b3. rewrite !rebuild_idem.
  apply moved_update, moved_position.
  apply (moved_buffer st st b); auto with moved. apply rebuild_same_doc.
Qed.

Lemma motion_w_moved (st : Editor) : cursor_moved st (motion_w st).
Proof.
  unfold motion_w. destruct (g_buffer st) as [b |]; auto with moved.
Qed.

Lemma motion_b_moved (st : Editor) : cursor_moved st (motion_b st).
Proof.
  unfold motion_b. destruct (g_buffer st) as [b |]; auto with moved.
  destruct (position (g_cursor st) =? 0); auto with moved.
Qed.

Lemma motion_e_moved (st : Editor) : cursor_moved st (motion_e st).
Proof.
  unfold motion_e. destruct (g_buffer st) as [b |]; auto with moved.
Qed.

Lemma motion_line_start_moved (st : Editor) :
  cursor_moved st (motion_line_start st).
Proof.
  unfold motion_line_start.
  destruct (g_buffer st) as [b |] eqn:Hb; auto with moved.
  pose proof (buffer_line_start_doc b (line (g_cursor st))) as H2.
  destruct (buffer_line_start b (line (g_cursor st))) as [s b2].
  cbn [snd] in H2. subst b2.
  apply moved_preferred, moved_update, moved_position.
  apply (moved_buffer st st b); auto with moved. apply rebuild_same_doc.
Qed.

Lemma motion_line_end_moved (st : Editor) :
  cursor_moved st (motion_line_end st).
Proof.
  unfold motion_line_end.
  destruct (g_buffer st) as [b |] eqn:Hb; auto with moved.
  pose proof (buffer_line_start_doc b (line (g_cursor st))) as H2.
  destruct (buffer_line_start b (line (g_cursor st))) as [s b2].
  cbn [snd] in H2. subst b2.
  match goal with
  | |- context [buffer_line_length ?x ?n] =>
      pose proof (buffer_line_length_doc x n) as H3;
      destruct (buffer_line_length x n) as [len b3]
  end.
  cbn [snd] in H3. subst b3. rewrite !rebuild_idem.
  apply moved_sync, moved_update, moved_position.
  apply (moved_buffer st st b); auto with moved. apply rebuild_same_doc.
Qed.

Lemma motion_file_start_moved (st : Editor) :
  cursor_moved st (motion_file_start st).
Proof. unfold motion_file_start. auto with moved. Qed.

Lemma motion_file_end_moved (st : Editor) :
  cursor_moved st (motion_file_end st).
Proof.
  unfold motion_file_end.
  destruct (g_buffer st) as [b |] eqn:Hb; auto with moved.
  pose proof (buffer_line_count_doc b) as H1.
  destruct (buffer_line_count b) as [lc b1]. cbn [snd] in H1. subst b1.
  assert (Hst1 : cursor_moved st
                   (with_buffer st (Some (rebuild_line_cache b)))).
  { apply (moved_buffer st st b); auto with moved. apply rebuild_same_doc. }
  apply moved_sync, moved_update.
  destruct (0 <? lc); [| exact Hst1].
  match goal with
  | |- context [buffer_line_start ?x ?n] =>
      pose proof (buffer_line_start_doc x n) as H2;
      destruct (buffer_line_start x n) as [s b2]
  end.
  cbn [snd] in H2. subst b2. rewrite !rebuild_idem.
  apply moved_position.
  apply (moved_buffer st _ (rebuild_line_cache b));
    [reflexivity | apply same_doc_refl | exact Hst1].
Qed.

Lemma move_to_match_moved (st : Editor) (found : Z) :
  cursor_moved st (snd (move_to_match st found)).
Proof. unfold move_to_match. cbn [snd]. auto with moved. Qed.

Lemma search_next_moved (st : Editor) :
  cursor_moved st (snd (search_next st)).
Proof.
  unfold search_next. destruct (g_buffer st) as [b |]; auto with moved.
  destruct (Byte.eqb _ NUL); auto with moved.
  destruct (0 <=? _); [apply move_to_match_moved |].
  destruct (0 <=? _); [apply move_to_match_moved | auto with moved].
Qed.

Lemma search_prev_moved (st : Editor) :
  cursor_moved st (snd (search_prev st)).
Proof.
  unfold search_prev. destruct (g_buffer st) as [b |]; auto with moved.
  destruct (Byte.eqb _ NUL); auto with moved.
  destruct (0 <=? _); [apply move_to_match_moved |].
  destruct (0 <=? _); [apply move_to_match_moved | auto with moved].
Qed.

Lemma set_cursor_position_moved (st : Editor) (pos : Z) :
  cursor_moved st (set_cursor_position st pos).
Proof. unfold set_cursor_position. auto with moved. Qed.

Lemma motion_moved (st : Editor) (op : EditorOp) :
  is_motion op = true -> cursor_moved st (step st op).
Proof.
  destruct op; try discriminate; intros _; cbn [step].
  - apply motion_h_moved.
  - apply motion_l_moved.
  - apply motion_j_moved.
  - apply motion_k_moved.
  - apply motion_w_moved.
  - apply motion_b_moved.
  - apply motion_e_moved.
  - apply motion_line_start_moved.
  - apply motion_line_end_moved.
  - apply motion_file_start_moved.
  - apply motion_file_end_moved.
Qed.

(** X15: no motion, no search, set_cursor_position, set_mode and
    set_search_pattern ever change the document: the text get_all_text
    returns and its length stay the same.  Apart from set_mode they leave
    the mode, the selection anchor and the selection flag alone, and
    apart from set_search_pattern they leave the search pattern alone. *)
Theorem cursor_moves_keep_document (st : Editor) (op : EditorOp) :
  is_edit op = false ->
  let st' := step st op in
  get_all_text st' = get_all_text st /\
  get_buffer_length st' = get_buffer_length st /\
  (g_search_pattern st' = g_search_pattern st
   \/ exists pattern, op = DoSetSearchPattern pattern) /\
  ((g_mode st' = g_mode st /\
    g_selection_start st' = g_selection_start st /\
    g_has_selection st' = g_has_selection st)
   \/ exists mode, op = DoSetMode mode).
Proof.
  intros Hop st'.
  assert (Hcases :
    cursor_moved st st'
    \/ (exists pattern, op = DoSetSearchPattern pattern)
    \/ (exists mode, op = DoSetMode mode)).
  { subst st'. destruct op; try discriminate;
      try (left; apply motion_moved; reflexivity).
    - left. apply set_cursor_position_moved.
    - right. right. eexists. reflexivity.
    - right. left. eexists. reflexivity.
    - left. apply search_next_moved.
    - left. apply search_prev_moved. }
  destruct Hcases as [(Htext & Hm & Hs & Hh & Hp) | [[pat ->] | [mode ->]]].
  - destruct (same_text_get_all st st' Htext) as [Hall Hlen].
    repeat split; try assumption; left; [assumption | repeat split; assumption].
  - subst st'. cbn [step]. unfold set_search_pattern, get_all_text,
      get_buffer_length. cbn [g_buffer].
    repeat split; [right; eexists; reflexivity | left; repeat split].
  - subst st'. cbn [step]. unfold set_mode, get_all_text, get_buffer_length.
    destruct (mode =? MODE_VISUAL); [| destruct (mode =? MODE_NORMAL)];
      cbn [g_buffer g_search_pattern];
      (repeat split; [left; reflexivity | right; eexists; reflexivity]).
Qed.

Lemma cursor_moves_keep_document_witness :
  let st' := step hello_editor DoMotionB in
  get_all_text st' = get_all_text hello_editor /\
  get_buffer_length st' = get_buffer_length hello_editor /\
  (g_search_pattern st' = g_search_pattern hello_editor
   \/ exists pattern, DoMotionB = DoSetSearchPattern pattern) /\
  ((g_mode st' = g_mode hello_editor /\
    g_selection_start st' = g_selection_start hello_editor /\
    g_has_selection st' = g_has_selection hello_editor)
   \/ exists mode, DoMotionB = DoSetMode mode).
Proof.
  apply (cursor_moves_keep_document hello_editor DoMotionB).
  reflexivity.
Defined.

(** X16: after set_mode(MODE_VISUAL) the selection is anchored at the
    cursor: whatever motion follows, has_selection returns 1 and
    get_selection_start and get_selection_end return the smaller and the
    larger of the anchor and the new cursor position.  A following
    set_mode(MODE_NORMAL) clears the selection, and both functions then
    return the cursor position; set_mode with any other mode keeps the
    selection. *)
Theorem selection_follows_cursor (st : Editor) (op : EditorOp) :
  is_motion op = true ->
  let anchor := position (g_cursor st) in
  let st' := step (set_mode st MODE_VISUAL) op in
  let p := position (g_cursor st') in
  has_selection st' = 1 /\
  get_selection_start st' = Z.min anchor p /\
  get_selection_end st' = Z.max anchor p /\
  has_selection (set_mode st' MODE_NORMAL) = 0 /\
  get_selection_start (set_mode st' MODE_NORMAL) = p /\
  get_selection_end (set_mode st' MODE_NORMAL) = p /\
  (forall mode,
     mode <> MODE_NORMAL -> has_selection (set_mode st' mode) = 1).
Proof.
  intros Hop anchor st' p.
  destruct (motion_moved (set_mode st MODE_VISUAL) op Hop)
    as (_ & _ & Hs & Hh & _).
  fold st' in Hs, Hh.
  change (g_selection_start (set_mode st MODE_VISUAL)) with anchor in Hs.
  change (g_has_selection (set_mode st MODE_VISUAL)) with true in Hh.
  unfold has_selection, get_selection_start, get_selection_end.
  rewrite Hh, Hs. cbn [negb bool_to_int]. fold p.
  split; [reflexivity |]. split.
  { destruct (Z.ltb_spec anchor p); lia. }
  split.
  { destruct (Z.ltb_spec p anchor); lia. }
  change (g_has_selection (set_mode st' MODE_NORMAL)) with false.
  cbn [negb bool_to_int].
  repeat (split; [reflexivity |]).
  intros mode Hmode. unfold set_mode.
  destruct (Z.eqb_spec mode MODE_VISUAL); [reflexivity |].
  destruct (Z.eqb_spec mode MODE_NORMAL); [contradiction |].
  cbn [g_has_selection]. rewrite Hh. reflexivity.
Qed.

Lemma selection_follows_cursor_witness :
  let st' := step (set_mode hello_editor MODE_VISUAL) DoMotionB in
  has_selection st' = 1 /\
  get_selection_start st' = 6 /\
  get_selection_end st' = 11.
Proof.
  destruct (selection_follows_cursor hello_editor DoMotionB eq_refl)
    as (Hh & Hs & He & _).
  split; [exact Hh |].
  split; [rewrite Hs | rewrite He]; vm_compute; reflexivity.
Defined.

(** ** The cursor's line and column follow its position *)

Lemma pos_to_line_col_scan (b : Buffer) (p : Z) :
  buf_ok b -> 0 <= p <= total_length b ->
  fst (buffer_pos_to_line_col b p)
  = line_col_scan (ztake p (content b)) 0 0.
Proof.
  intros Hok Hp.
  destruct (rebuild_line_cache_spec b Hok) as (Hok' & Hd & Hsame).
  pose proof Hsame as (_ & _ & _ & Htot).
  rewrite buffer_pos_to_line_col_rebuild by assumption.
  rewrite pos_to_line_col_scan_clean by (try assumption; lia).
  cbn [fst]. rewrite (same_doc_content b _ Hsame). reflexivity.
Qed.













(** ** Word motions *)

Lemma loop_fuel_up (from to : Z) :
  from <= to -> Z.of_nat (loop_fuel from to) = to - from.
Proof. intros H. unfold loop_fuel. lia. Qed.

Lemma scan_forward_spec (b : Buffer) (stop : bool) (len : Z) :
  forall (fuel : nat) (pos : Z),
    0 <= pos <= len -> len < SIZE_MOD -> len - pos <= Z.of_nat fuel ->
    let r := scan_forward fuel b stop pos len in
    pos <= r <= len /\
    (forall k, pos <= k < r -> is_space (buffer_char_at b k) = negb stop) /\
    (r = len \/ is_space (buffer_char_at b r) = stop).
Proof.
  induction fuel as [| fuel IH]; intros pos Hpos Hlen Hfuel; cbv zeta.
  - cbn [scan_forward]. split; [lia |]. split; [intros k Hk; lia |].
    left. lia.
  - cbn [scan_forward].
    destruct (Z.ltb_spec pos len) as [Hlt | Hge].
    + destruct (Bool.eqb (is_space (buffer_char_at b pos)) stop) eqn:He.
      * apply Bool.eqb_prop in He.
        split; [lia |]. split; [intros k Hk; lia |]. right. exact He.
      * apply Bool.eqb_false_iff in He.
        rewrite (sz_add_small pos 1) by lia.
        destruct (IH (pos + 1) ltac:(lia) Hlen ltac:(lia)) as (Hr & Hrun & Hend).
        split; [lia |]. split; [| exact Hend].
        intros k Hk. destruct (Z.eq_dec k pos) as [-> | Hne].
        -- destruct (is_space (buffer_char_at b pos)), stop;
             try reflexivity; contradiction He; reflexivity.
        -- apply Hrun. lia.
    + split; [lia |]. split; [intros k Hk; lia |]. left. lia.
Qed.

Lemma scan_word_end_spec (b : Buffer) (bound : Z) :
  forall (fuel : nat) (pos : Z),
    0 <= pos -> bound < SIZE_MOD -> bound - pos <= Z.of_nat fuel ->
    let r := scan_word_end fuel b pos bound in
    pos <= r <= Z.max pos bound /\
    (forall k, pos < k <= r -> is_space (buffer_char_at b k) = false) /\
    (bound <= r \/ is_space (buffer_char_at b (r + 1)) = true).
Proof.
  induction fuel as [| fuel IH]; intros pos Hpos Hbound Hfuel; cbv zeta.
  - cbn [scan_word_end]. split; [lia |]. split; [intros k Hk; lia |].
    left. lia.
  - cbn [scan_word_end].
    destruct (Z.ltb_spec pos bound) as [Hlt | Hge].
    + rewrite (sz_add_small pos 1) by lia.
      destruct (is_space (buffer_char_at b (pos + 1))) eqn:He.
      * split; [lia |]. split; [intros k Hk; lia |]. right. exact He.
      * destruct (IH (pos + 1) ltac:(lia) Hbound ltac:(lia))
          as (Hr & Hrun & Hend).
        split; [lia |]. split; [| exact Hend].
        intros k Hk. destruct (Z.eq_dec k (pos + 1)) as [-> | Hne];
          [exact He | apply Hrun; lia].
    + split; [lia |]. split; [intros k Hk; lia |]. left. lia.
Qed.

Lemma scan_backward_spec (b : Buffer) (stop : bool) (back : Z) :
  forall (fuel : nat) (pos : Z),
    0 <= pos < SIZE_MOD -> pos <= Z.of_nat fuel -> 0 <= back <= 1 ->
    let r := scan_backward fuel b stop back pos in
    0 <= r <= pos /\
    (forall k, r < k <= pos ->
       is_space (buffer_char_at b (k - back)) = negb stop) /\
    (r = 0 \/ is_space (buffer_char_at b (r - back)) = stop).
Proof.
  induction fuel as [| fuel IH]; intros pos Hpos Hfuel Hback; cbv zeta.
  - cbn [scan_backward]. split; [lia |]. split; [intros k Hk; lia |].
    left. lia.
  - cbn [scan_backward].
    destruct (Z.ltb_spec 0 pos) as [Hlt | Hge].
    + rewrite (sz_sub_small pos back) by lia.
      destruct (Bool.eqb (is_space (buffer_char_at b (pos - back))) stop)
        eqn:He.
      * apply Bool.eqb_prop in He.
        split; [lia |]. split; [intros k Hk; lia |]. right. exact He.
      * apply Bool.eqb_false_iff in He.
        rewrite (sz_sub_small pos 1) by lia.
        destruct (IH (pos - 1) ltac:(lia) ltac:(lia) Hback)
          as (Hr & Hrun & Hend).
        split; [lia |]. split; [| exact Hend].
        intros k Hk. destruct (Z.eq_dec k pos) as [-> | Hne].
        -- destruct (is_space (buffer_char_at b (pos - back))), stop;
             try reflexivity; contradiction He; reflexivity.
        -- apply Hrun. lia.
    + split; [lia |]. split; [intros k Hk; lia |]. left. lia.
Qed.

Lemma moved_position_of (st : Editor) (p : Z) :
  position
    (g_cursor
       (sync_preferred_column (update_cursor_line_col (with_position st p))))
  = p.
Proof.
  rewrite sync_preferred_column_ok_position.
  rewrite update_cursor_line_col_position. reflexivity.
Qed.

(** X18: motion_w moves the cursor over the rest of the current word and
    the blanks after it.  There is an offset q between the old and the
    new position such that no byte from the old position up to q is a
    blank (space, tab or newline), q is the end of the document or a
    blank, every byte from q up to the new position is a blank, and the
    new position is the end of the document or a byte that is not a
    blank.  The cursor advances unless it is at the end of the
    document. *)
Theorem motion_w_next_word (st : Editor) (b : Buffer) :
  editor_ok st -> g_buffer st = Some b ->
  let p := position (g_cursor st) in
  let p' := position (g_cursor (motion_w st)) in
  let len := buffer_length b in
  let blank k := is_space (buffer_char_at b k) in
  exists q,
    p <= q <= p' /\ p' <= len /\
    (forall k, p <= k < q -> blank k = false) /\
    (q = len \/ blank q = true) /\
    (forall k, q <= k < p' -> blank k = true) /\
    (p' = len \/ blank p' = false) /\
    (p < len -> p < p').
Proof.
  intros Hok Hb p p' len blank. open_editor_ok Hok.
  rewrite Hb in Hbuf. unfold get_buffer_length in Hpos. rewrite Hb in Hpos.
  pose proof (total_length_range b Hbuf) as Ht.
  fold len in Hpos. fold p in Hpos. unfold buffer_length in len.
  set (q := scan_forward (loop_fuel p len) b true p len).
  assert (Hp' : p' = scan_forward (loop_fuel q len) b false q len).
  { subst p'. unfold motion_w. rewrite Hb. apply moved_position_of. }
  destruct (scan_forward_spec b true len (loop_fuel p len) p)
    as (Hq & Hword & Hqend); [lia | subst len; lia | |].
  { rewrite loop_fuel_up; lia. }
  fold q in Hq, Hword, Hqend.
  destruct (scan_forward_spec b false len (loop_fuel q len) q)
    as (Hr & Hblanks & Hrend); [lia | subst len; lia | |].
  { rewrite loop_fuel_up; lia. }
  rewrite <- Hp' in Hr, Hblanks, Hrend.
  exists q. cbn [negb] in *.
  split; [lia |]. split; [lia |].
  split; [exact Hword |]. split; [exact Hqend |].
  split; [exact Hblanks |]. split; [exact Hrend |].
  intros Hlt.
  destruct (Z.eq_dec p' p) as [Heq | Hne]; [| lia].
  exfalso. assert (Hqp : q = p) by lia.
  destruct Hrend as [Hrend | Hrend]; [lia |].
  destruct Hqend as [Hqend | Hqend]; [lia |].
  unfold blank in *. rewrite Heq in Hrend. rewrite Hqp in Hqend. congruence.
Qed.

Lemma motion_w_next_word_witness :
  let st := set_cursor_position hello_editor 2 in
  let b := rebuild_line_cache (buffer_create (Some (bytes "hello world"))) in
  let p' := position (g_cursor (motion_w st)) in
  let blank k := is_space (buffer_char_at b k) in
  exists q,
    2 <= q <= p' /\ p' <= 11 /\
    (forall k, 2 <= k < q -> blank k = false) /\
    (q = 11 \/ blank q = true) /\
    (forall k, q <= k < p' -> blank k = true) /\
    (p' = 11 \/ blank p' = false) /\
    (2 < 11 -> 2 < p').
Proof.
  apply (motion_w_next_word (set_cursor_position hello_editor 2)
           (rebuild_line_cache
              (buffer_create (Some (bytes "hello world"))))).
  - apply editor_okb_ok. vm_compute. reflexivity.
  - reflexivity.
Defined.

(** X19: motion_b does nothing at offset 0.  Otherwise it moves the
    cursor back to the start of the word before it: from the byte before
    the old position it skips blanks backwards to an offset q, then
    bytes that are not blanks, and the new position is offset 0 or a
    byte preceded by a blank.  The cursor always moves back. *)
Theorem motion_b_previous_word (st : Editor) (b : Buffer) :
  editor_ok st -> g_buffer st = Some b ->
  let p := position (g_cursor st) in
  let p' := position (g_cursor (motion_b st)) in
  let blank k := is_space (buffer_char_at b k) in
  (p = 0 -> motion_b st = st) /\
  (0 < p ->
   exists q,
     0 <= p' <= q /\ q < p /\
     (forall k, q < k < p -> blank k = true) /\
     (q = 0 \/ blank q = false) /\
     (forall k, p' <= k < q -> blank k = false) /\
     (p' = 0 \/ blank (p' - 1) = true)).
Proof.
  intros Hok Hb p p' blank. open_editor_ok Hok.
  rewrite Hb in Hbuf. unfold get_buffer_length in Hpos. rewrite Hb in Hpos.
  pose proof (total_length_range b Hbuf) as Ht.
  unfold buffer_length in Hpos. fold p in Hpos.
  split.
  - intros Hzero. unfold motion_b. rewrite Hb. fold p. rewrite Hzero.
    reflexivity.
  - intros Hpos'.
    set (q := scan_backward (loop_fuel 0 (p - 1)) b false 0 (p - 1)).
    assert (Hp' : p' = scan_backward (loop_fuel 0 q) b true 1 q).
    { subst p'. unfold motion_b. rewrite Hb. fold p.
      destruct (Z.eqb_spec p 0); [lia |].
      rewrite moved_position_of.
      rewrite (sz_sub_small p 1) by lia. reflexivity. }
    destruct (scan_backward_spec b false 0 (loop_fuel 0 (p - 1)) (p - 1))
      as (Hq & Hblanks & Hqend); [lia | | lia |].
    { rewrite loop_fuel_up; lia. }
    fold q in Hq, Hblanks, Hqend.
    destruct (scan_backward_spec b true 1 (loop_fuel 0 q) q)
      as (Hr & Hword & Hrend); [lia | | lia |].
    { rewrite loop_fuel_up; lia. }
    rewrite <- Hp' in Hr, Hword, Hrend.
    exists q. cbn [negb] in *.
    split; [lia |]. split; [lia |].
    split.
    { intros k Hk. specialize (Hblanks k ltac:(lia)).
      replace (k - 0) with k in Hblanks by lia. exact Hblanks. }
    split.
    { replace (q - 0) with q in Hqend by lia. exact Hqend. }
    split; [| exact Hrend].
    intros k Hk. specialize (Hword (k + 1) ltac:(lia)).
    replace (k + 1 - 1) with k in Hword by lia. exact Hword.
Qed.

Lemma motion_b_previous_word_witness :
  position (g_cursor (motion_b hello_editor)) = 6 /\
  motion_b empty_editor = empty_editor.
Proof.
  assert (Hok : editor_ok empty_editor)
    by (apply editor_okb_ok; vm_compute; reflexivity).
  destruct (motion_b_previous_word empty_editor
              (buffer_create (Some [])) Hok eq_refl) as (Hzero & _).
  split; [vm_compute; reflexivity | apply Hzero; reflexivity].
Defined.

(** X20: on a non-empty document motion_e moves the cursor to the last
    byte of the next word.  Starting one byte after the old position (at
    most at the end of the document) it skips blanks up to an offset q,
    which is the end of the document or a byte that is not a blank, then
    advances while the next byte is not a blank: no byte after q up to
    the new position is a blank, and the new position is at or beyond
    the last byte of the document or is followed by a blank.  On an
    empty document, where len - 1 wraps around, the cursor of an editor
    at offset 0 ends at SIZE_MAX. *)
Theorem motion_e_word_end (st : Editor) (b : Buffer) :
  editor_ok st -> g_buffer st = Some b ->
  let p := position (g_cursor st) in
  let p' := position (g_cursor (motion_e st)) in
  let len := buffer_length b in
  let blank k := is_space (buffer_char_at b k) in
  (0 < len ->
   exists q,
     Z.min (p + 1) len <= q /\ q <= p' <= len /\
     (forall k, Z.min (p + 1) len <= k < q -> blank k = true) /\
     (q = len \/ blank q = false) /\
     (forall k, q < k <= p' -> blank k = false) /\
     (len - 1 <= p' \/ blank (p' + 1) = true)) /\
  (len = 0 -> p' = SIZE_MOD - 1).
Proof.
  intros Hok Hb p p' len blank. open_editor_ok Hok.
  rewrite Hb in Hbuf. unfold get_buffer_length in Hpos. rewrite Hb in Hpos.
  pose proof (total_length_range b Hbuf) as Ht.
  fold len in Hpos. fold p in Hpos. unfold buffer_length in len.
  split.
  - intros Hne.
    set (p0 := Z.min (p + 1) len).
    set (q := scan_forward (loop_fuel p0 len) b false p0 len).
    assert (Hp' : p' = scan_word_end (loop_fuel q (len - 1)) b q (len - 1)).
    { subst p'. unfold motion_e. rewrite Hb. rewrite moved_position_of.
      unfold buffer_length. fold len. fold p.
      rewrite (sz_sub_small len 1) by lia.
      assert (Hp0 : (if p <? len then sz_add p 1 else p) = p0).
      { subst p0. destruct (Z.ltb_spec p len).
        - rewrite (sz_add_small p 1) by lia. lia.
        - lia. }
      rewrite Hp0. reflexivity. }
    destruct (scan_forward_spec b false len (loop_fuel p0 len) p0)
      as (Hq & Hblanks & Hqend); [lia | subst len; lia | |].
    { rewrite loop_fuel_up; lia. }
    fold q in Hq, Hblanks, Hqend.
    destruct (scan_word_end_spec b (len - 1) (loop_fuel q (len - 1)) q)
      as (Hr & Hword & Hrend); [lia | subst len; lia | |].
    { unfold loop_fuel. lia. }
    rewrite <- Hp' in Hr, Hword, Hrend.
    exists q. cbn [negb] in *.
    split; [lia |]. split; [lia |].
    split; [exact Hblanks |]. split; [exact Hqend |].
    split; [exact Hword | exact Hrend].
  - intros Hempty. subst p'.
    apply (motion_e_on_empty st b Hb); [exact Hempty | fold p; lia].
Qed.

Lemma motion_e_word_end_witness :
  position
    (g_cursor (motion_e (set_cursor_position hello_editor 0))) = 4 /\
  position (g_cursor (motion_e empty_editor)) = SIZE_MOD - 1.
Proof.
  assert (Hok : editor_ok empty_editor)
    by (apply editor_okb_ok; vm_compute; reflexivity).
  destruct (motion_e_word_end empty_editor (buffer_create (Some []))
              Hok eq_refl) as (_ & Hempty).
  split; [vm_compute; reflexivity | apply Hempty; reflexivity].
Defined.

(** ** Line motions *)

Lemma update_cursor_value (st : Editor) (b b' : Buffer) (l c : Z) :
  g_buffer st = Some b ->
  buffer_pos_to_line_col b (position (g_cursor st)) = ((l, c), b') ->
  g_cursor (update_cursor_line_col st)
  = mkCursor (position (g_cursor st)) l c (preferred_column (g_cursor st)).
Proof.
  intros Hb Hlc. unfold update_cursor_line_col. rewrite Hb, Hlc.
  reflexivity.
Qed.

(** Line [n] of a clean buffer as a target of a motion: its start, the
    text [buffer_get_line] returns for it, and the line and column of the
    offsets inside that text. *)
Lemma line_target (b : Buffer) (n : Z) :
  buf_ok b -> lines_dirty b = false -> 0 <= n < line_count b ->
  exists s len ln,
    buffer_line_start b n = (s, b) /\
    buffer_line_length b n = (len, b) /\
    buffer_get_line b n = (Some ln, b) /\
    strip_newline b s len = zlen ln /\
    0 <= s /\
    forall c, 0 <= c <= zlen ln ->
      sz_add s c = s + c /\
      buffer_pos_to_line_col b (s + c) = ((n, c), b).
Proof.
  intros Hok Hd Hn.
  pose proof (total_length_range b Hok) as Ht.
  pose proof (content_length b Hok) as Hc.
  destruct (buffer_get_line_clean b n Hok Hd Hn)
    as (s & len & ln & H1 & H2 & H3 & Hs & Hlen & Hbound & _ & Hstrip
        & Hfull).
  exists s, len, ln.
  repeat (split; [assumption |]).
  intros c Hcol.
  assert (Hz : zlen ln + (if n + 1 <? line_count b then 1 else 0) = len).
  { apply (f_equal zlen) in Hfull. rewrite zlen_app in Hfull.
    rewrite zlen_ztake in Hfull by (rewrite zlen_zdrop by lia; lia).
    destruct (n + 1 <? line_count b);
      [rewrite zlen_cons, (@zlen_nil byte) in Hfull
      | rewrite (@zlen_nil byte) in Hfull]; lia. }
  split; [apply sz_add_small; destruct (n + 1 <? line_count b); lia |].
  pose proof (line_col_locate_clean b n c Hok Hd Hn ltac:(lia)) as Hloc.
  rewrite H1, H2 in Hloc. cbn [fst] in Hloc. apply Hloc.
  destruct (Z.ltb_spec (n + 1) (line_count b)); [left; lia | right; lia].
Qed.

Lemma min_as_test (a b : Z) : (if a <? b then a else b) = Z.min b a.
Proof. destruct (Z.ltb_spec a b); lia. Qed.

(** X21: the vertical motions, for a cursor whose line exists.
    motion_j leaves the cursor as it is on the last line, and motion_k
    leaves the editor as it is on line 0.  Otherwise they move the
    cursor to the next and to the previous line, to the column that is
    the smaller of preferred_column and the length of the text get_line
    returns for that line; the position is the start of that line plus
    the column, and preferred_column is unchanged. *)
Theorem vertical_motions_keep_preferred_column (st : Editor) (b : Buffer) :
  editor_ok st -> g_buffer st = Some b ->
  let l := line (g_cursor st) in
  let pref := preferred_column (g_cursor st) in
  let count := fst (buffer_line_count b) in
  let target l' ln :=
    mkCursor (fst (buffer_line_start b l') + Z.min pref (zlen ln)) l'
             (Z.min pref (zlen ln)) pref in
  l < count ->
  (count <= l + 1 -> g_cursor (motion_j st) = g_cursor st) /\
  (l + 1 < count ->
   exists ln,
     fst (buffer_get_line b (l + 1)) = Some ln /\
     g_cursor (motion_j st) = target (l + 1) ln) /\
  (l = 0 -> motion_k st = st) /\
  (0 < l ->
   exists ln,
     fst (buffer_get_line b (l - 1)) = Some ln /\
     g_cursor (motion_k st) = target (l - 1) ln).
Proof.
  intros Hok Hb l pref count target Hl. open_editor_ok Hok.
  rewrite Hb in Hbuf. fold l in Hline. fold pref in Hpref.
  destruct (rebuild_line_cache_spec b Hbuf) as (Hok1 & Hd1 & Hsame).
  pose proof (clean_lines_ok _ Hok1 Hd1) as Hlines.
  destruct (lines_ok_count _ Hlines) as (_ & Hcr).
  pose proof (total_length_range _ Hok1) as Ht.
  subst count target. cbv beta.
  rewrite buffer_line_count_rebuild in *. cbn [fst] in *.
  rewrite !(buffer_get_line_rebuild b) by assumption.
  rewrite !(buffer_line_start_rebuild b) by assumption.
  assert (Hmove : forall n st0 ln s,
    0 <= n < line_count (rebuild_line_cache b) ->
    g_buffer st0 = Some (rebuild_line_cache b) ->
    preferred_column (g_cursor st0) = pref ->
    buffer_line_start (rebuild_line_cache b) n
    = (s, rebuild_line_cache b) ->
    buffer_get_line (rebuild_line_cache b) n
    = (Some ln, rebuild_line_cache b) ->
    g_cursor
      (update_cursor_line_col
         (with_position st0 (s + Z.min pref (zlen ln))))
    = mkCursor (s + Z.min pref (zlen ln)) n (Z.min pref (zlen ln)) pref).
  { intros n st0 ln s Hn Hb0 Hpref0 Hstart Hget.
    destruct (line_target _ n Hok1 Hd1 Hn)
      as (s' & len & ln' & H1 & _ & H3 & _ & _ & Htgt).
    rewrite Hstart in H1. injection H1 as <-.
    rewrite Hget in H3. injection H3 as <-.
    pose proof (zlen_nonneg ln).
    destruct (Htgt (Z.min pref (zlen ln)) ltac:(lia)) as [_ Hloc].
    erewrite update_cursor_value; [| exact Hb0 | exact Hloc].
    cbn [with_position with_cursor g_cursor position preferred_column].
    rewrite Hpref0. reflexivity. }
  split; [| split; [| split]].
  - intros Hlast. unfold motion_j.
    rewrite Hb, buffer_line_count_rebuild. cbv beta iota zeta.
    cbn [with_buffer g_cursor]. fold l.
    rewrite (sz_add_small l 1) by lia.
    destruct (Z.leb_spec (line_count (rebuild_line_cache b)) (l + 1));
      [reflexivity | lia].
  - intros Hnext.
    destruct (line_target _ (l + 1) Hok1 Hd1 ltac:(lia))
      as (s & len & ln & H1 & H2 & H3 & Hstrip & Hs & Htgt).
    pose proof (zlen_nonneg ln).
    destruct (Htgt (Z.min pref (zlen ln)) ltac:(lia)) as [Hadd _].
    exists ln. rewrite H1, H3. cbn [fst]. split; [reflexivity |].
    unfold motion_j.
    rewrite Hb, buffer_line_count_rebuild. cbv beta iota zeta.
    cbn [with_buffer g_cursor]. fold l.
    rewrite (sz_add_small l 1) by lia.
    destruct (Z.leb_spec (line_count (rebuild_line_cache b)) (l + 1));
      [lia |].
    rewrite H1. cbv beta iota zeta. rewrite H2. cbv beta iota zeta.
    rewrite Hstrip. fold pref. rewrite min_as_test, Hadd.
    apply Hmove; try assumption; try reflexivity. lia.
  - intros Hzero. unfold motion_k. rewrite Hb. fold l. rewrite Hzero.
    reflexivity.
  - intros Hpos'.
    destruct (line_target _ (l - 1) Hok1 Hd1 ltac:(lia))
      as (s & len & ln & H1 & H2 & H3 & Hstrip & Hs & Htgt).
    pose proof (zlen_nonneg ln).
    destruct (Htgt (Z.min pref (zlen ln)) ltac:(lia)) as [Hadd _].
    exists ln. rewrite H1, H3. cbn [fst]. split; [reflexivity |].
    unfold motion_k. rewrite Hb. fold l.
    destruct (Z.eqb_spec l 0); [lia |].
    rewrite (sz_sub_small l 1) by lia.
    rewrite (buffer_line_start_rebuild b) by assumption.
    rewrite H1. cbv beta iota zeta. rewrite H2. cbv beta iota zeta.
    rewrite Hstrip. fold pref. rewrite min_as_test, Hadd.
    apply Hmove; try assumption; try reflexivity. lia.
Qed.

Lemma vertical_motions_keep_preferred_column_witness :
  g_cursor (motion_j line2_editor) = mkCursor 14 2 2 2 /\
  g_cursor (motion_k line2_editor) = mkCursor 2 0 2 2.
Proof.
  pose (b := rebuild_line_cache (buffer_create (Some (bytes "line1
line2
line3")))).
  assert (Hok : editor_ok line2_editor)
    by (apply editor_okb_ok; vm_compute; reflexivity).
  assert (Hl : line (g_cursor line2_editor) < fst (buffer_line_count b))
    by (vm_compute; reflexivity).
  destruct (vertical_motions_keep_preferred_column line2_editor b Hok
              eq_refl Hl) as (_ & Hnext & _ & Hprev).
  destruct (Hnext ltac:(vm_compute; reflexivity)) as (ln & Hln & Hcur).
  destruct (Hprev ltac:(vm_compute; reflexivity)) as (ln' & Hln' & Hcur').
  assert (Hline : ln = bytes "line3").
  { vm_compute in Hln. injection Hln as <-. reflexivity. }
  assert (Hline' : ln' = bytes "line1").
  { vm_compute in Hln'. injection Hln' as <-. reflexivity. }
  subst ln ln'. split.
  - rewrite Hcur. vm_compute. reflexivity.
  - rewrite Hcur'. vm_compute. reflexivity.
Defined.

(** X22: for a cursor whose line exists, motion_line_start puts the
    cursor at the start of its line, column 0, with preferred_column 0,
    and motion_line_end puts it after the last byte of the text get_line
    returns for its line (before the newline that ends the line), with
    the column and preferred_column equal to the length of that text;
    neither changes the line. *)
Theorem line_start_and_end_motions (st : Editor) (b : Buffer) :
  editor_ok st -> g_buffer st = Some b ->
  let l := line (g_cursor st) in
  let start := fst (buffer_line_start b l) in
  l < fst (buffer_line_count b) ->
  g_cursor (motion_line_start st) = mkCursor start l 0 0 /\
  exists ln,
    fst (buffer_get_line b l) = Some ln /\
    g_cursor (motion_line_end st)
    = mkCursor (start + zlen ln) l (zlen ln) (zlen ln).
Proof.
  intros Hok Hb l start Hl. open_editor_ok Hok.
  rewrite Hb in Hbuf. fold l in Hline.
  destruct (rebuild_line_cache_spec b Hbuf) as (Hok1 & Hd1 & Hsame).
  rewrite buffer_line_count_rebuild in Hl. cbn [fst] in Hl.
  subst start.
  rewrite (buffer_get_line_rebuild b) by assumption.
  rewrite (buffer_line_start_rebuild b) by assumption.
  unfold motion_line_start, motion_line_end. rewrite Hb. fold l.
  rewrite (buffer_line_start_rebuild b) by assumption.
  set (b1 := rebuild_line_cache b) in *.
  destruct (line_target b1 l Hok1 Hd1 ltac:(lia))
    as (s & len & ln & H1 & H2 & H3 & Hstrip & Hs & Htgt).
  pose proof (zlen_nonneg ln).
  rewrite H1, H3. cbn [fst]. cbv beta iota zeta. split.
  - destruct (Htgt 0 ltac:(lia)) as [_ Hloc].
    replace (s + 0) with s in Hloc by lia.
    unfold with_preferred_column.
    erewrite update_cursor_value; [reflexivity | reflexivity |].
    cbn [with_position with_cursor g_cursor position]. exact Hloc.
  - exists ln. split; [reflexivity |].
    rewrite H2. cbv beta iota zeta. rewrite Hstrip.
    destruct (Htgt (zlen ln) ltac:(lia)) as [Hadd Hloc].
    rewrite Hadd.
    unfold sync_preferred_column, with_preferred_column.
    erewrite update_cursor_value; [reflexivity | reflexivity |].
    cbn [with_position with_cursor g_cursor position]. exact Hloc.
Qed.

Lemma line_start_and_end_motions_witness :
  g_cursor (motion_line_start line2_editor) = mkCursor 6 1 0 0 /\
  g_cursor (motion_line_end line2_editor) = mkCursor 11 1 5 5.
Proof.
  pose (b := rebuild_line_cache (buffer_create (Some (bytes "line1
line2
line3")))).
  assert (Hok : editor_ok line2_editor)
    by (apply editor_okb_ok; vm_compute; reflexivity).
  assert (Hl : line (g_cursor line2_editor) < fst (buffer_line_count b))
    by (vm_compute; reflexivity).
  destruct (line_start_and_end_motions line2_editor b Hok eq_refl Hl)
    as (Hstart & ln & Hln & Hend).
  split.
  - rewrite Hstart. vm_compute. reflexivity.
  - rewrite Hend.
    assert (Hline : ln = bytes "line2").
    { vm_compute in Hln. injection Hln as <-. reflexivity. }
    subst ln. vm_compute. reflexivity.
Defined.

(** X23: on an initialised editor motion_file_start puts the cursor at
    offset 0, line 0, column 0, and motion_file_end puts it at the start
    of the last line, column 0; both set preferred_column to 0. *)
Theorem file_start_and_end_motions (st : Editor) (b : Buffer) :
  editor_ok st -> g_buffer st = Some b ->
  let last := fst (buffer_line_count b) - 1 in
  g_cursor (motion_file_start st) = mkCursor 0 0 0 0 /\
  g_cursor (motion_file_end st)
  = mkCursor (fst (buffer_line_start b last)) last 0 0.
Proof.
  intros Hok Hb last. open_editor_ok Hok. rewrite Hb in Hbuf.
  destruct (rebuild_line_cache_spec b Hbuf) as (Hok1 & Hd1 & Hsame).
  pose proof (clean_lines_ok _ Hok1 Hd1) as Hlines.
  destruct (lines_ok_count _ Hlines) as (_ & Hcr).
  pose proof (total_length_range _ Hok1) as Ht.
  subst last. rewrite buffer_line_count_rebuild. cbn [fst].
  rewrite (buffer_line_start_rebuild b) by assumption.
  split.
  - unfold motion_file_start, with_preferred_column.
    pose proof (pos_to_line_col_scan b 0 Hbuf) as Hscan.
    pose proof (total_length_range b Hbuf).
    specialize (Hscan ltac:(lia)).
    rewrite ztake_none in Hscan by lia. cbn [line_col_scan] in Hscan.
    destruct (buffer_pos_to_line_col b 0) as [[l c] b'] eqn:E.
    cbn [fst] in Hscan. injection Hscan as -> ->.
    erewrite update_cursor_value; [reflexivity | exact Hb |].
    cbn [with_position with_cursor g_cursor position]. exact E.
  - unfold motion_file_end. rewrite Hb, buffer_line_count_rebuild.
    set (b1 := rebuild_line_cache b) in *.
    cbv beta iota zeta.
    destruct (Z.ltb_spec 0 (line_count b1)); [| lia].
    rewrite (sz_sub_small (line_count b1) 1) by lia.
    destruct (line_target b1 (line_count b1 - 1) Hok1 Hd1 ltac:(lia))
      as (s & len & ln & H1 & H2 & H3 & Hstrip & Hs & Htgt).
    pose proof (zlen_nonneg ln).
    rewrite H1. cbn [fst]. cbv beta iota zeta.
    destruct (Htgt 0 ltac:(lia)) as [_ Hloc].
    replace (s + 0) with s in Hloc by lia.
    unfold sync_preferred_column, with_preferred_column.
    erewrite update_cursor_value; [reflexivity | reflexivity |].
    cbn [with_position with_cursor g_cursor position]. exact Hloc.
Qed.

Lemma file_start_and_end_motions_witness :
  g_cursor (motion_file_start line2_editor) = mkCursor 0 0 0 0 /\
  g_cursor (motion_file_end line2_editor) = mkCursor 12 2 0 0.
Proof.
  pose (b := rebuild_line_cache (buffer_create (Some (bytes "line1
line2
line3")))).
  assert (Hok : editor_ok line2_editor)
    by (apply editor_okb_ok; vm_compute; reflexivity).
  destruct (file_start_and_end_motions line2_editor b Hok eq_refl)
    as (Hstart & Hend).
  split; [exact Hstart |].
  rewrite Hend. vm_compute. reflexivity.
Defined.

(** ** Edits at the cursor *)











(** X27: set_cursor_position clamps the position to the length of the
    document, sets the line and column to those reached by reading the
    document up to that position, and sets preferred_column to the
    column. *)
Theorem set_cursor_position_clamps (st : Editor) (b : Buffer) (pos : Z)
    (doc : list byte) :
  editor_ok st -> g_buffer st = Some b -> buffer_get_all b = Some doc ->
  is_size pos ->
  let cur := g_cursor (set_cursor_position st pos) in
  position cur = Z.min pos (buffer_length b) /\
  (line cur, column cur) = line_col_scan (ztake (position cur) doc) 0 0 /\
  preferred_column cur = column cur.
Proof.
  intros Hok Hb Hall [Hp0 Hp1] cur. open_editor_ok Hok.
  rewrite Hb in Hbuf.
  destruct (get_all_is_content b doc Hbuf Hall) as [-> Hlen].
  pose proof (total_length_range b Hbuf) as Ht.
  unfold buffer_length.
  set (p := Z.min pos (total_length b)).
  assert (Hclamp :
    clamp_cursor (with_position st pos)
    = update_cursor_line_col (with_position st p)).
  { unfold clamp_cursor. cbn [with_position with_cursor g_buffer g_cursor
                                position].
    rewrite Hb. unfold buffer_length.
    destruct (Z.ltb_spec (total_length b) pos).
    - cbn [with_position with_cursor g_buffer g_cursor position line column
             preferred_column g_mode g_selection_start g_has_selection
             g_search_pattern].
      subst p. rewrite Z.min_r by lia. reflexivity.
    - subst p. rewrite Z.min_l by lia. reflexivity. }
  pose proof (pos_to_line_col_scan b p Hbuf ltac:(subst p; lia)) as Hscan.
  destruct (buffer_pos_to_line_col b p) as [[l c] b'] eqn:E.
  cbn [fst] in Hscan.
  assert (Hcur : cur = mkCursor p l c c).
  { subst cur. unfold set_cursor_position. rewrite Hclamp.
    unfold sync_preferred_column, with_preferred_column.
    erewrite update_cursor_value; [reflexivity | exact Hb |].
    cbn [with_position with_cursor g_cursor position]. exact E. }
  rewrite Hcur. cbn [position line column preferred_column].
  split; [reflexivity |]. split; [exact Hscan | reflexivity].
Qed.

Lemma set_cursor_position_clamps_witness :
  let cur := g_cursor (set_cursor_position line2_editor 100) in
  position cur = Z.min 100 17 /\
  (line cur, column cur)
  = line_col_scan (ztake (position cur) (bytes "line1
line2
line3")) 0 0 /\
  preferred_column cur = column cur.
Proof.
  apply (set_cursor_position_clamps line2_editor
           (rebuild_line_cache (buffer_create (Some (bytes "line1
line2
line3"))))).
  - apply editor_okb_ok. vm_compute. reflexivity.
  - reflexivity.
  - vm_compute. reflexivity.
  - unfold is_size. rewrite SIZE_MOD_eq. lia.
Defined.

(** ** Loading a document and setting the search pattern *)

Lemma ztake_cons_pos (c : byte) (l : list byte) (k : Z) :
  0 < k -> ztake k (c :: l) = c :: ztake (k - 1) l.
Proof.
  intros Hk. unfold ztake.
  replace (Z.to_nat k) with (S (Z.to_nat (k - 1))) by lia. reflexivity.
Qed.

Lemma strlen_ztake (s : list byte) :
  forall k,
    0 <= k <= strlen s ->
    strlen (ztake k s) = k /\ zlen (ztake k s) = k.
Proof.
  induction s as [| c s IH]; intros k Hk.
  - cbn [strlen] in Hk. assert (k = 0) by lia. subst k.
    split; reflexivity.
  - destruct (Z.eq_dec k 0) as [-> | Hk0]; [split; reflexivity |].
    cbn [strlen] in Hk.
    destruct (Byte.eqb c NUL) eqn:He; [lia |].
    rewrite ztake_cons_pos by lia.
    destruct (IH (k - 1) ltac:(lia)) as [H1 H2].
    cbn [strlen]. rewrite He, zlen_cons, H1, H2. split; lia.
Qed.

(** X28: set_search_pattern stores the C string it is given, up to its
    terminator and cut after 255 bytes, and leaves the buffer and the
    cursor alone.  A non-empty string gives a stored pattern that is
    not empty, holds no NUL and has at most 255 bytes; after an empty
    string search_next and search_prev return 0 and change nothing. *)
Theorem set_search_pattern_truncates (st : Editor) (s : list byte) :
  let st' := set_search_pattern st s in
  let pat := g_search_pattern st' in
  pat = ztake (Z.min (strlen s) 255) s /\
  zlen pat = Z.min (strlen s) 255 /\
  (0 < strlen s -> pattern_ok pat) /\
  (strlen s = 0 ->
   search_next st' = (0, st') /\ search_prev st' = (0, st')) /\
  g_buffer st' = g_buffer st /\
  g_cursor st' = g_cursor st.
Proof.
  intros st' pat. pose proof (strlen_range s) as Hs.
  assert (Hpat : pat = ztake (Z.min (strlen s) 255) s).
  { subst pat st'. unfold set_search_pattern. cbn [g_search_pattern].
    destruct (Z.le_ge_cases (strlen s) 255) as [Hle | Hge].
    - rewrite Z.min_l by lia. apply ztake_all.
      destruct (strlen_ztake s (strlen s) ltac:(lia)) as [_ Hz]. lia.
    - rewrite Z.min_r by lia. apply ztake_ztake. lia. }
  destruct (strlen_ztake s (Z.min (strlen s) 255) ltac:(lia)) as [Hstr Hz].
  rewrite <- Hpat in Hstr, Hz.
  split; [exact Hpat |]. split; [exact Hz |].
  split; [| split; [| split; reflexivity]].
  - intros Hpos. split; [| split; [congruence | lia]].
    intros Hnil. rewrite Hnil in Hz. rewrite (@zlen_nil byte) in Hz. lia.
  - intros Hzero.
    assert (Hnil : pat = []).
    { apply zlen_zero_nil. lia. }
    unfold search_next, search_prev. fold pat. rewrite Hnil.
    cbn [head_or_nul]. rewrite byte_eqb_refl.
    destruct (g_buffer st'); split; reflexivity.
Qed.

(** X29: editor_load_text with a C string that fits the address space
    returns 1 and makes the string, up to its terminator, the document:
    get_all_text returns it, get_buffer_length its length, get_line_count
    one more than the number of its newlines, and get_line(0) its bytes
    before the first newline.  With a null pointer, and after
    editor_init, the document is empty. *)
Theorem editor_load_text_document (st : Editor) (s : list byte) :
  strlen s < SIZE_MOD - 1 ->
  let doc := ztake (strlen s) s in
  let st' := snd (editor_load_text st (Some s)) in
  fst (editor_load_text st (Some s)) = 1 /\
  get_all_text st' = Some doc /\
  get_buffer_length st' = strlen s /\
  fst (get_line_count st') = 1 + count_newlines doc /\
  (exists ln,
     fst (get_line st' 0) = Some ln /\ ~ In NEWLINE ln /\
     (doc = ln \/ exists rest, doc = ln ++ NEWLINE :: rest)) /\
  get_all_text (snd (editor_load_text st None)) = Some [] /\
  get_all_text (snd (editor_init st)) = Some [].
Proof.
  intros Hfit doc st'.
  set (b := buffer_create (Some s)).
  assert (Hok : buf_ok b) by (apply buffer_create_ok; exact Hfit).
  assert (Hc : content b = doc) by apply buffer_create_content.
  pose proof (content_length b Hok) as Hlen.
  pose proof (total_length_range b Hok) as Ht.
  destruct (strlen_ztake s (strlen s)) as [_ Hz];
    [pose proof (strlen_range s); lia |].
  fold doc in Hz.
  split; [reflexivity |].
  split.
  { subst st'. unfold get_all_text. cbn [editor_load_text snd g_buffer].
    fold b. rewrite buffer_get_all_content by exact Hok. congruence. }
  split.
  { subst st'. unfold get_buffer_length, buffer_length.
    cbn [editor_load_text snd g_buffer]. fold b. congruence. }
  split.
  { subst st'. unfold get_line_count. cbn [editor_load_text snd g_buffer].
    fold b. pose proof (buffer_line_count_newlines b Hok) as Hcount.
    destruct (buffer_line_count b) as [n b']. cbn [fst] in *. congruence. }
  split.
  { destruct (rebuild_line_cache_spec b Hok) as (Hok' & Hd & Hsame).
    pose proof (same_doc_content b _ Hsame) as Hc'.
    pose proof Hsame as (_ & _ & _ & Htot).
    pose proof (clean_lines_ok _ Hok' Hd) as Hlines.
    destruct (lines_ok_count _ Hlines) as (_ & Hcr).
    destruct (buffer_get_line_clean (rebuild_line_cache b) 0 Hok' Hd)
      as (s0 & len & ln & H1 & H2 & H3 & Hs0 & Hlen0 & Hbound & Hnone & _
          & Hfull); [lia |].
    destruct (line_extent_clean (rebuild_line_cache b) 0 Hok' Hd)
      as (s1 & len1 & H1' & H2' & _ & _ & _ & _ & Hzero & _ & Hlast);
      [lia |].
    rewrite H1 in H1'. injection H1' as <-.
    rewrite H2 in H2'. injection H2' as <-.
    pose proof (Hzero eq_refl) as Hs. subst s0.
    rewrite (zdrop_none 0) in Hfull by lia.
    rewrite Hc', Hc in Hfull.
    exists ln. split.
    - subst st'. unfold get_line. cbn [editor_load_text snd g_buffer].
      fold b. rewrite (buffer_get_line_rebuild b) by exact Hok.
      rewrite H3. reflexivity.
    - split; [exact Hnone |].
      destruct (Z.ltb_spec (0 + 1) (line_count (rebuild_line_cache b))).
      + right. exists (zdrop len doc).
        rewrite <- (ztake_zdrop len doc) at 1. rewrite Hfull.
        rewrite <- app_assoc. reflexivity.
      + left. rewrite app_nil_r in Hfull. rewrite <- Hfull.
        symmetry. apply ztake_all.
        specialize (Hlast ltac:(lia)). rewrite Hc in Hlen. lia. }
  split; vm_compute; reflexivity.
Qed.

Lemma editor_load_text_document_witness :
  let st' :=
    snd (editor_load_text initial_editor (Some (bytes "ab
cd
ef"))) in
  get_all_text st' = Some (bytes "ab
cd
ef") /\
  get_buffer_length st' = 8 /\
  fst (get_line_count st') = 3 /\
  fst (get_line st' 0) = Some (bytes "ab").
Proof.
  assert (Hfit : strlen (bytes "ab
cd
ef") < SIZE_MOD - 1) by (vm_compute; reflexivity).
  destruct (editor_load_text_document initial_editor (bytes "ab
cd
ef") Hfit) as (_ & Hall & Hlen & Hcount & _).
  split; [rewrite Hall; vm_compute; reflexivity |].
  split; [rewrite Hlen; vm_compute; reflexivity |].
  split; [rewrite Hcount; vm_compute; reflexivity |].
  vm_compute. reflexivity.
Defined.

(** ** Operations without a buffer *)

(** X30: after editor_destroy there is no buffer.  The queries then
    return 0 or a null pointer, every edit and search returns 0, and
    they and every motion except motion_h and motion_file_start leave
    the state as it is.  motion_h, motion_file_start and
    set_cursor_position do not test the buffer: without one, motion_h
    still decrements a positive position, motion_file_start sets the
    position and preferred_column to 0 and set_cursor_position stores
    its argument unclamped, the line and column staying as they were.
    editor_init gives an empty document again. *)
Theorem destroyed_editor_operations (st0 : Editor) :
  let st := editor_destroy st0 in
  let cur := g_cursor st0 in
  get_buffer_length st = 0 /\
  get_all_text st = None /\
  get_line_count st = (0, st) /\
  (forall n, get_line st n = (None, st)) /\
  (forall pos text, insert_text st pos text = (0, st)) /\
  (forall pos n, delete_text st pos n = (0, st)) /\
  (forall c, insert_char st c = (0, st)) /\
  (forall str, insert_string st str = (0, st)) /\
  delete_char_before st = (0, st) /\
  delete_char_after st = (0, st) /\
  delete_line st = (0, st) /\
  search_next st = (0, st) /\
  search_prev st = (0, st) /\
  (forall op,
     is_motion op = true -> op <> DoMotionH -> op <> DoMotionFileStart ->
     step st op = st) /\
  g_cursor (motion_h st)
  = (if 0 <? position cur
     then mkCursor (sz_sub (position cur) 1) (line cur) (column cur)
                   (column cur)
     else cur) /\
  g_cursor (motion_file_start st) = mkCursor 0 (line cur) (column cur) 0 /\
  (forall pos,
     g_cursor (set_cursor_position st pos)
     = mkCursor pos (line cur) (column cur) (column cur)) /\
  get_all_text (snd (editor_init st)) = Some [].
Proof.
  intros st cur.
  repeat match goal with
         | |- _ /\ _ => split
         end; try reflexivity.
  - intros op Hop Hh Hfs.
    destruct op; try discriminate; try contradiction; reflexivity.
  - unfold motion_h. cbn [st editor_destroy with_buffer g_cursor]. fold cur.
    destruct (0 <? position cur); reflexivity.
Qed.
